(** * PyUE4Builder: the step pipeline runner, the engine bootstrap and the
    packaging action

    A shallow embedding of [build_script.py] ([run_build_steps],
    [ensure_engine] and the step-group part of [build_script]) and of
    [actions/package.py] ([Package.__init__], [Package.verify],
    [Package.run]).

    Python objects that are shared by reference live in a heap of cells:
    the project configuration objects, and with the driver's one the script
    whose argument objects a step hands to its action.  Everything a
    function prints, launches or does to the file system is appended to a
    trace; a call that ends the process ([error_exit], [sys.exit]) or
    raises is a [Result] other than [Ok]. *)

From Stdlib Require Import ZArith Ascii String.
From stdpp Require Import gmap strings list fin_maps.

Local Open Scope string_scope.
Local Open Scope list_scope.

(** ** Python values

    The values that [json.load] produces and that travel through the step
    descriptors, the keyword arguments and the metadata store.  [PyObject]
    stands for any other object (a bound method, a configuration object). *)

#[local] Set Warnings "-register-all".
Inductive pyval : Type :=
| JNull
| JBool (b : bool)
| JNum (z : Z)
| JStr (s : string)
| JList (l : list pyval)
| JObj (l : list (string * pyval))
| PyObject (name : string).

(** Python truthiness, as used by [if x:]. *)
Definition truthy (v : pyval) : bool :=
  match v with
  | JNull => false
  | JBool b => b
  | JNum z => negb (z =? 0)%Z
  | JStr s => negb (String.eqb s "")
  | JList l => match l with [] => false | _ => true end
  | JObj l => match l with [] => false | _ => true end
  | PyObject _ => true
  end.

(** [x is True] and [x is False]: identity with the two bool singletons. *)
Definition is_True (v : pyval) : bool :=
  match v with JBool true => true | _ => false end.
Definition is_False (v : pyval) : bool :=
  match v with JBool false => true | _ => false end.

(** [x == s] for a string literal [s]: only a [str] compares equal to it. *)
Definition py_eq_str (v : pyval) (s : string) : bool :=
  match v with JStr t => String.eqb t s | _ => false end.

(** [len(x)]: defined on strings, lists and dicts; [None] is [TypeError]. *)
Definition py_len (v : pyval) : option nat :=
  match v with
  | JStr s => Some (String.length s)
  | JList l => Some (length l)
  | JObj l => Some (length l)
  | _ => None
  end.

Fixpoint chars (s : string) : list string :=
  match s with
  | EmptyString => []
  | String c r => String c EmptyString :: chars r
  end.

Definition as_str (v : pyval) : option string :=
  match v with JStr s => Some s | _ => None end.

(** Iterating a value that [str.join] accepts: every item must be a [str]. *)
Definition py_iter_strs (v : pyval) : option (list string) :=
  match v with
  | JStr s => Some (chars s)
  | JList l => mapM as_str l
  | JObj l => Some (l.*1)
  | _ => None
  end.

(** [sep.join(items)]. *)
Definition py_join (sep : string) (items : list string) : string :=
  String.concat sep items.

(** [d.update(e)]: the entries of [e] replace those of [d] on equal keys. *)
Definition py_update {V} (d e : gmap string V) : gmap string V := e ∪ d.

(** [sub in s] for two strings. *)
Fixpoint py_contains (sub s : string) : bool :=
  String.prefix sub s
  || match s with
     | EmptyString => false
     | String _ r => py_contains sub r
     end.

(** Whether [v'] can be what the object [v] holds after a change in place:
    only a list and a dict can be changed, and each stays what it is. *)
Definition same_kind (v v' : pyval) : bool :=
  match v, v' with
  | JList _, JList _ | JObj _, JObj _ => true
  | _, _ => false
  end.

(** ** Python string methods used to resolve an action class *)

Definition is_lower (c : ascii) : bool :=
  let n := nat_of_ascii c in (97 <=? n)%nat && (n <=? 122)%nat.
Definition is_upper (c : ascii) : bool :=
  let n := nat_of_ascii c in (65 <=? n)%nat && (n <=? 90)%nat.
Definition to_upper (c : ascii) : ascii :=
  if is_lower c then ascii_of_nat (nat_of_ascii c - 32) else c.
Definition to_lower (c : ascii) : ascii :=
  if is_upper c then ascii_of_nat (nat_of_ascii c + 32) else c.

(** [str.title()] on ASCII text: a cased character is upper-cased when the
    character before it is not cased, and lower-cased otherwise. *)
Fixpoint title_from (previous_is_cased : bool) (s : string) : string :=
  match s with
  | EmptyString => EmptyString
  | String c r =>
      if is_lower c || is_upper c then
        String (if previous_is_cased then to_lower c else to_upper c)
               (title_from true r)
      else String c (title_from false r)
  end.
Definition py_title (s : string) : string := title_from false s.

(** [s.split(sep)] for a one-character separator; never the empty list. *)
Fixpoint py_split (sep : ascii) (s : string) : list string :=
  match s with
  | EmptyString => [EmptyString]
  | String c r =>
      if Ascii.eqb c sep then EmptyString :: py_split sep r
      else match py_split sep r with
           | h :: t => String c h :: t
           | [] => [String c EmptyString]
           end
  end.

(** [s.split('.')[-1]]. *)
Definition last_component (s : string) : string :=
  default EmptyString (last (py_split "."%char s)).

(** ** Step descriptors and the project configuration *)

(** [step['action']]: the module name is required, the rest is optional.
    [a_id] stands for the identity of the dict: the steps of one script have
    different ones and a deep copy keeps them, so that it names the step
    whose argument objects an action was given. *)
Record StepAction : Type := {
  a_id : nat;
  a_module : string;
  a_meta : option (list string);
  a_args : option (gmap string pyval);
  a_meta_updates : option (list (string * string))
}.

(** One entry of a step group.  An absent key is [None]. *)
Record Step : Type := {
  s_desc : option string;
  s_enabled : option pyval;
  s_allow_failure : option pyval;
  s_action : StepAction
}.

(** What the script has under one of its keys: a list of steps, or a dict
    of values as under [meta]. *)
Inductive Entry : Type :=
| Group (steps : list Step)
| Table (items : list (string * pyval)).

(** The loaded script [config.script]: one dict, which holds the seed
    metadata and the named step groups side by side. *)
Definition Script : Type := gmap string Entry.

(** The fields of [ProjectConfig] that the two source files read or write.
    [script] is [None] while no script json is loaded. *)
Record ProjectConfig : Type := {
  script : option Script;
  clean : bool;
  editor_running : bool;
  configuration : string;
  version_str : string;
  git_repo : string;
  git_proj_branch : string;
  engine_path_name : string;
  exclude_samples : bool;
  extra_dependency_excludes : list string;
  build_engine_tools : list string;
  uproject_name : string;
  uproject_dir_path : string;
  uproject_file_path : string;
  builds_path : string;
  UE4EnginePath : string;
  UE4EngineKeyName : string;
  UE4GitDependenciesPath : string;
  UE4UBTPath : string;
  UE4GenProjFilesPath : string;
  UE4RunUATBatPath : string
}.

(** [config.clean = b]. *)
Definition set_clean (b : bool) (c : ProjectConfig) : ProjectConfig :=
  {| script := script c; clean := b; editor_running := editor_running c;
     configuration := configuration c; version_str := version_str c;
     git_repo := git_repo c; git_proj_branch := git_proj_branch c;
     engine_path_name := engine_path_name c;
     exclude_samples := exclude_samples c;
     extra_dependency_excludes := extra_dependency_excludes c;
     build_engine_tools := build_engine_tools c;
     uproject_name := uproject_name c;
     uproject_dir_path := uproject_dir_path c;
     uproject_file_path := uproject_file_path c;
     builds_path := builds_path c; UE4EnginePath := UE4EnginePath c;
     UE4EngineKeyName := UE4EngineKeyName c;
     UE4GitDependenciesPath := UE4GitDependenciesPath c;
     UE4UBTPath := UE4UBTPath c;
     UE4GenProjFilesPath := UE4GenProjFilesPath c;
     UE4RunUATBatPath := UE4RunUATBatPath c |}.

(** The configuration [c] with [s] for its script. *)
Definition set_script (s : option Script) (c : ProjectConfig)
  : ProjectConfig :=
  {| script := s; clean := clean c; editor_running := editor_running c;
     configuration := configuration c; version_str := version_str c;
     git_repo := git_repo c; git_proj_branch := git_proj_branch c;
     engine_path_name := engine_path_name c;
     exclude_samples := exclude_samples c;
     extra_dependency_excludes := extra_dependency_excludes c;
     build_engine_tools := build_engine_tools c;
     uproject_name := uproject_name c;
     uproject_dir_path := uproject_dir_path c;
     uproject_file_path := uproject_file_path c;
     builds_path := builds_path c; UE4EnginePath := UE4EnginePath c;
     UE4EngineKeyName := UE4EngineKeyName c;
     UE4GitDependenciesPath := UE4GitDependenciesPath c;
     UE4UBTPath := UE4UBTPath c;
     UE4GenProjFilesPath := UE4GenProjFilesPath c;
     UE4RunUATBatPath := UE4RunUATBatPath c |}.

Definition empty_config : ProjectConfig :=
  {| script := None; clean := false; editor_running := false;
     configuration := ""; version_str := ""; git_repo := "";
     git_proj_branch := ""; engine_path_name := "";
     exclude_samples := false; extra_dependency_excludes := [];
     build_engine_tools := []; uproject_name := ""; uproject_dir_path := "";
     uproject_file_path := ""; builds_path := ""; UE4EnginePath := "";
     UE4EngineKeyName := ""; UE4GitDependenciesPath := ""; UE4UBTPath := "";
     UE4GenProjFilesPath := ""; UE4RunUATBatPath := "" |}.

#[global] Instance ProjectConfig_inhabited : Inhabited ProjectConfig :=
  populate empty_config.

(** ** Traces and results *)

(** Object identity of a configuration object. *)
Abbreviation loc := nat.

Inductive PrintKind : Type :=
  PTitle | PAction | PWarning | PError | PSecho.

(** What an action, or the driver on its own account, does to the outside. *)
Inductive IOEvent : Type :=
| IoPrint (kind : PrintKind) (msg : string)
| IoLaunch (exe : string) (args : list string)
| IoRmtree (path : string)
| IoUnlink (path : string)
| IoMakedirs (path : string)
| IoCopyfile (src dst : string)
| IoRegisterEngine
| IoGit (repo branch folder : string)
| IoConfirm (text : string)
| IoPrompt (text : string)
| IoPause
(** a change in place of the object that was passed as the keyword
    argument [key]: it now holds [value] *)
| IoSetArg (key : string) (value : pyval).

(** The trace of a run: outside effects, and the calls the step runner
    makes on modules, action classes, action instances and the store. *)
Inductive Event : Type :=
| Io (e : IOEvent)
| EvImport (module : string)
| EvConstruct (class_name : string) (snapshot : loc)
              (contents : ProjectConfig) (kwargs : gmap string pyval)
| EvVerify (snapshot : loc)
| EvRun (snapshot : loc)
| EvSaveMeta (store : gmap string pyval).

Inductive PyExn : Type :=
| ImportError (module : string)
| KeyError (key : string)
| TypeError (what : string)
| OSError (what : string)
| OtherException (what : string).

(** How a call ends: it returns, the process exits, or it raises. *)
Inductive Result (A : Type) : Type :=
| Ok (a : A)
| Exit (code : Z)
| Raise (e : PyExn).
Arguments Ok {A} a.
Arguments Exit {A} code.
Arguments Raise {A} e.

(** ** The monad of one configuration object

    A computation that works on one configuration object: it reads the trace
    so far (the environment answers by what has happened), may assign fields
    of the configuration, and emits outside effects in order. *)

Definition Eff (A : Type) : Type :=
  ProjectConfig → list Event → Result A * ProjectConfig * list IOEvent.

#[global] Instance Eff_ret : MRet Eff := λ A a c h, (Ok a, c, []).

#[global] Instance Eff_bind : MBind Eff := λ A B f m c h,
  match m c h with
  | (Ok a, c1, o1) =>
      let '(r, c2, o2) := f a c1 (h ++ (Io <$> o1)) in (r, c2, o1 ++ o2)
  | (Exit n, c1, o1) => (Exit n, c1, o1)
  | (Raise e, c1, o1) => (Raise e, c1, o1)
  end.

(** What both the driver and an action can do: affect the outside, end the
    process, raise. *)
Class MonadOut (M : Type → Type) : Type := {
  emit : IOEvent → M unit;
  exit : ∀ {A}, Z → M A;
  raise : ∀ {A}, PyExn → M A
}.

Definition Eff_emit (e : IOEvent) : Eff unit := λ c h, (Ok tt, c, [e]).
Definition Eff_exit {A} (code : Z) : Eff A := λ c h, (Exit code, c, []).
Definition Eff_raise {A} (e : PyExn) : Eff A := λ c h, (Raise e, c, []).

#[global] Instance Eff_out : MonadOut Eff :=
  {| emit := Eff_emit; exit := @Eff_exit; raise := @Eff_raise |}.

Definition get_config : Eff ProjectConfig := λ c h, (Ok c, c, []).
Definition put_config (c' : ProjectConfig) : Eff unit := λ c h, (Ok tt, c', []).
Definition ask {A} (q : list Event → A) : Eff A := λ c h, (Ok (q h), c, []).

(** [if b: m]. *)
Definition when {M} `{MRet M} (b : bool) (m : M unit) : M unit :=
  if b then m else mret tt.

Section Printing.
Context {M : Type → Type} `{MBind M, MonadOut M}.

(** The printing helpers of [utility.common] and [click.secho]. *)
Definition print_title (msg : string) : M unit := emit (IoPrint PTitle msg).
Definition print_action (msg : string) : M unit := emit (IoPrint PAction msg).
Definition print_warning (msg : string) : M unit := emit (IoPrint PWarning msg).
Definition print_error (msg : string) : M unit := emit (IoPrint PError msg).
Definition secho (msg : string) : M unit := emit (IoPrint PSecho msg).

(** Modelled from the spec: [utility.common.error_exit] is not among the
    sources; a fatal error prints its message and terminates the process
    with a non-zero status. *)
Definition error_exit {A} (msg : string) : M A :=
  print_error msg ;; exit 1.
End Printing.

(** ** Action classes

    The contract of [actions.action.Action] as the runner uses it: the
    constructor gets the keyword arguments, [verify] returns an error
    message, [run] returns success, [error] is the message of a failed run
    and [getattr] is [getattr(b, name, None)], which reads a named
    attribute ([None]: no such attribute) and, where the attribute is a
    property, runs its code.  Every method works on the configuration
    object the instance was built with and returns the instance's new
    state; it can change an argument object it was given in place
    ([IoSetArg]), end the process and raise. *)

Record ActionClass : Type := {
  act_state : Type;
  act_init : gmap string pyval → Eff act_state;
  act_verify : act_state → Eff (string * act_state);
  act_run : act_state → Eff (bool * act_state);
  act_error : act_state → string;
  act_getattr : act_state → string → Eff (option pyval * act_state)
}.

(** A loaded module: [getattr(module, name, None)] on its classes. *)
Definition PyModule : Type := string → option ActionClass.

(** ** The environment

    Everything the two files call that lives outside them: [os.path],
    [click], [utility.common], [importlib], the methods of [ProjectConfig]
    and the actions [Build] and [Git].  An answer of the outside world is a
    function of the trace so far. *)

Class Environment : Type := {
  os_path_isfile : list Event → string → bool;
  os_path_exists : list Event → string → bool;
  os_path_isabs : string → bool;
  os_path_abspath : string → string;
  os_path_normpath : string → string;
  os_path_join : string → string → string;
  (** [os.makedirs(path)] raises *)
  os_makedirs_raises : list Event → string → bool;
  (** [os.makedirs(path, exist_ok=True)], [os.unlink(path)],
      [shutil.copyfile(src, dst)] and [shutil.rmtree(path, onerror=...)]
      raise *)
  os_makedirs_exist_ok_raises : list Event → string → bool;
  os_unlink_raises : list Event → string → bool;
  shutil_copyfile_raises : list Event → string → string → bool;
  shutil_rmtree_raises : list Event → string → bool;
  (** the exit code of [launch(exe, args)] *)
  launch_code : list Event → string → list string → Z;
  click_confirm : list Event → string → bool;
  click_prompt : list Event → string → string;
  get_visual_studio_version : list Event → Z;
  (** [str(x)] as [str.format] renders a value *)
  py_str : pyval → string;
  (** [config.check_environment()], a query on the configuration *)
  check_environment : ProjectConfig → list Event → bool;
  (** [config.setup_engine_paths(path)] *)
  setup_engine_paths : string → Eff bool;
  (** [register_project_engine(config, prompt)] *)
  register_project_engine : bool → Eff unit;
  (** [Git(config).run()] with the five attributes [ensure_engine] sets;
      returns success and the action's [error] *)
  Git_run : string → string → string → bool → bool → Eff (bool * string);
  (** [importlib.import_module(name)]; [None]: the import raises *)
  import_module : string → option PyModule;
  (** [actions.build.Build] *)
  Build : ActionClass
}.

Section Common.
Context `{!Environment}.

(** [launch(exe, args)]: spawns the process, waits, returns its exit code. *)
Definition launch (exe : string) (args : list string) : Eff Z :=
  emit (IoLaunch exe args) ;; ask (λ h, launch_code h exe args).

Definition isfile (path : string) : Eff bool := ask (λ h, os_path_isfile h path).
Definition exists_ (path : string) : Eff bool := ask (λ h, os_path_exists h path).

(** A call into the file system that is not guarded by [try]: the call
    [e] is made and, when it fails, its [OSError] goes up. *)
Definition file_call (e : IOEvent) (raises : list Event → bool)
    (what : string) : Eff unit :=
  emit e ;;
  failed ← ask raises;
  when failed (raise (OSError what)).

Definition unlink (path : string) : Eff unit :=
  file_call (IoUnlink path) (λ h, os_unlink_raises h path) "os.unlink".
Definition makedirs_exist_ok (path : string) : Eff unit :=
  file_call (IoMakedirs path) (λ h, os_makedirs_exist_ok_raises h path)
            "os.makedirs".
Definition copyfile (src dst : string) : Eff unit :=
  file_call (IoCopyfile src dst) (λ h, shutil_copyfile_raises h src dst)
            "shutil.copyfile".
(** [shutil.rmtree(path, onerror=on_rm_error)], lines 72-85: the handler
    passes over a file that is not there and else makes the path writable
    and unlinks it, which can fail in its turn. *)
Definition rmtree (path : string) : Eff unit :=
  file_call (IoRmtree path) (λ h, shutil_rmtree_raises h path)
            "shutil.rmtree".
End Common.

(** ** actions/package.py *)

Module Package.

(** The attributes of a [Package] instance.  [error] comes from the base
    class; the others are set by [__init__] from the keyword arguments. *)
Record t : Type := {
  error : string;
  pak_assets : pyval;
  nativize_assets : pyval;
  compressed_assets : pyval;
  no_debug_info : pyval;
  full_rebuild : pyval;
  no_editor_content : pyval;
  ignore_cook_errors : pyval;
  use_debug_editor_cmd : pyval;
  build_type : pyval;
  maps : pyval;
  build : pyval;
  cook : pyval;
  package : pyval;
  stage : pyval;
  archive : pyval;
  content_black_list : pyval
}.

(** [self.build_type = v] and [self.error = e]. *)
Definition set_build_type (v : pyval) (self : t) : t :=
  {| error := error self; pak_assets := pak_assets self;
     nativize_assets := nativize_assets self;
     compressed_assets := compressed_assets self;
     no_debug_info := no_debug_info self; full_rebuild := full_rebuild self;
     no_editor_content := no_editor_content self;
     ignore_cook_errors := ignore_cook_errors self;
     use_debug_editor_cmd := use_debug_editor_cmd self;
     build_type := v; maps := maps self; build := build self;
     cook := cook self; package := package self; stage := stage self;
     archive := archive self;
     content_black_list := content_black_list self |}.

Definition set_error (e : string) (self : t) : t :=
  {| error := e; pak_assets := pak_assets self;
     nativize_assets := nativize_assets self;
     compressed_assets := compressed_assets self;
     no_debug_info := no_debug_info self; full_rebuild := full_rebuild self;
     no_editor_content := no_editor_content self;
     ignore_cook_errors := ignore_cook_errors self;
     use_debug_editor_cmd := use_debug_editor_cmd self;
     build_type := build_type self; maps := maps self; build := build self;
     cook := cook self; package := package self; stage := stage self;
     archive := archive self;
     content_black_list := content_black_list self |}.

(** Class constants. *)
Definition build_blacklist_dir : string := "Build\Win64".
Definition blacklist_file_name (build_name : string) : string :=
  "PakBlacklist-" +:+ build_name +:+ ".txt".

(** [kwargs[k] if k in kwargs else d]. *)
Definition kw (kwargs : gmap string pyval) (k : string) (d : pyval) : pyval :=
  default d (kwargs !! k).

(** [Package.__init__]; the base class sets [error] to the empty string. *)
Definition init (kwargs : gmap string pyval) : t :=
  {| error := "";
     pak_assets := kw kwargs "pak_assets" (JBool true);
     nativize_assets := kw kwargs "nativize_assets" (JBool true);
     compressed_assets := kw kwargs "compressed_assets" (JBool true);
     no_debug_info := kw kwargs "no_debug_info" (JBool false);
     full_rebuild := kw kwargs "full_rebuild" (JBool false);
     no_editor_content := kw kwargs "no_editor_content" (JBool false);
     ignore_cook_errors := kw kwargs "ignore_cook_errors" (JBool false);
     use_debug_editor_cmd := kw kwargs "use_debug_editor_cmd" (JBool false);
     build_type := kw kwargs "build_type" (JStr "");
     maps := kw kwargs "maps" (JList []);
     build := kw kwargs "build" (JBool true);
     cook := kw kwargs "cook" (JBool true);
     package := kw kwargs "package" (JBool true);
     stage := kw kwargs "stage" (JBool true);
     archive := kw kwargs "archive" (JBool true);
     content_black_list := kw kwargs "content_black_list" (JStr "") |}.

Definition valid_build_types : list string :=
  ["standalone"; "client"; "server"].

Definition newline : string := String (ascii_of_nat 10) EmptyString.
Definition dquote : string := String (ascii_of_nat 34) EmptyString.

(** The argument list up to the stage toggles, lines 101-111. *)
Definition base_args (self : t) (config : ProjectConfig) : list string :=
  [ "-ScriptsForProject=" +:+ uproject_file_path config;
    "BuildCookRun"; "-nocompileeditor"; "-NoHotReload"; "-nop4";
    "-project=" +:+ uproject_file_path config;
    "-archivedirectory=" +:+ builds_path config;
    "-clientconfig=" +:+ configuration config;
    "-serverconfig=" +:+ configuration config;
    "-ue4exe=" +:+ (if truthy (use_debug_editor_cmd self)
                    then "UE4Editor-Win64-Debug-Cmd.exe"
                    else "UE4Editor-Cmd.exe");
    "-prereqs"; "-targetplatform=Win64"; "-platform=Win64";
    "-servertargetplatform=Win64"; "-serverplatform=Win64";
    "-CrashReporter"; "-utf8output" ].

(** [if flag: cmd_args.append(arg)]. *)
Definition opt (flag : pyval) (arg : string) : list string :=
  if truthy flag then [arg] else [].

(** The [-map=] argument, lines 142-143; [None] is a [TypeError] of
    [len] or of [join]. *)
Definition map_args (self : t) : option (list string) :=
  n ← py_len (maps self);
  if (0 <? n)%nat then
    items ← py_iter_strs (maps self);
    Some ["-map=" +:+ py_join "+" items]
  else Some [].

(** The whole argument vector of the external process, lines 101-150. *)
Definition cmd_args (self : t) (config : ProjectConfig)
  : option (list string) :=
  m ← map_args self;
  Some (base_args self config
        ++ opt (build self) "-build"
        ++ opt (cook self) "-cook"
        ++ opt (package self) "-package"
        ++ opt (stage self) "-stage"
        ++ opt (archive self) "-archive"
        ++ (if py_eq_str (build_type self) "client" then ["-client"]
            else if py_eq_str (build_type self) "server"
                 then ["-server"; "-noclient"]
                 else [])
        ++ opt (nativize_assets self) "-nativizeAssets"
        ++ (if truthy (pak_assets self) && truthy (stage self)
            then ["-pak"] else [])
        ++ opt (compressed_assets self) "-compressed"
        ++ opt (no_debug_info self) "-nodebuginfo"
        ++ opt (no_editor_content self) "-SkipCookingEditorContent"
        ++ opt (ignore_cook_errors self) "-IgnoreCookErrors"
        ++ m
        ++ (if clean config || truthy (full_rebuild self)
            then ["-clean"] else ["-iterate"; "-iterativecooking"])
        ++ ["-compile"]).

Section Methods.
Context `{!Environment}.

(** [Package.verify], lines 51-61. *)
Definition verify (self : t) : Eff (string * t) :=
  config ← get_config;
  ready ← ask (check_environment config);
  if negb ready
  then mret ("Environment is not ready for building or packaging!", self)
  else
    if negb (existsb (py_eq_str (build_type self)) valid_build_types)
    then
      print_warning
        ("Unrecognized build type (" +:+ py_str (build_type self)
         +:+ ") for package. Defaulting to " +:+ dquote +:+ "standalone"
         +:+ dquote +:+ "." +:+ newline
         +:+ "Valid types=['standalone', 'client', 'server']") ;;
      mret ("", set_build_type (JStr "standalone") self)
    else mret ("", self).

(** Lines 70-85: the build directory that a clean build removes. *)
Definition clean_builds (self : t) (config : ProjectConfig) : Eff unit :=
  if py_eq_str (build_type self) "client" then
    rmtree (os_path_join (builds_path config) "WindowsClient")
  else if py_eq_str (build_type self) "server" then
    rmtree (os_path_join (builds_path config) "WindowsServer")
  else
    rmtree (os_path_join (builds_path config) "WindowsNoEditor").

(** Lines 93-99: installing the content blacklist. *)
Definition setup_blacklist (self : t) (config : ProjectConfig)
    (build_blacklist_file_path : string) : Eff unit :=
  print_action ("Setting up content blacklist for configuration "
                +:+ configuration config) ;;
  present ← isfile build_blacklist_file_path;
  when present (unlink build_blacklist_file_path) ;;
  makedirs_exist_ok (os_path_join (uproject_dir_path config)
                                  build_blacklist_dir) ;;
  match content_black_list self with
  | JStr name =>
      copyfile (os_path_join (uproject_dir_path config) name)
               build_blacklist_file_path
  | _ => raise (TypeError "os.path.join")
  end.

(** [Package.run], lines 63-161. *)
Definition run (self : t) : Eff (bool * t) :=
  '(err, self) ← verify self;
  let self := set_error err self in
  if negb (String.eqb (error self) "") then mret (false, self) else
  config ← get_config;
  secho ("Building for client version " +:+ version_str config) ;;
  when (clean config) (clean_builds self config) ;;
  let cap_build_name := py_title (uproject_name config) in
  print_action ("Building " +:+ cap_build_name +:+ " Build") ;;
  let build_blacklist_file_path :=
    os_path_join (os_path_join (uproject_dir_path config)
                               build_blacklist_dir)
                 (blacklist_file_name (configuration config)) in
  when (negb (py_eq_str (content_black_list self) ""))
       (setup_blacklist self config build_blacklist_file_path) ;;
  match cmd_args self config with
  | None => raise (TypeError "maps")
  | Some args =>
      print_action ("Building, Cooking, and Packaging "
                    +:+ cap_build_name +:+ " Build") ;;
      code ← launch (UE4RunUATBatPath config) args;
      if negb (code =? 0)%Z then
        mret (false, set_error ("Unable to build " +:+ uproject_name config
                                +:+ "!") self)
      else
        present ← isfile build_blacklist_file_path;
        when present (unlink build_blacklist_file_path) ;;
        mret (true, self)
  end.

(** [getattr(self, name, None)] on the data attributes. *)
Definition getattr (self : t) (name : string) : option pyval :=
  if String.eqb name "error" then Some (JStr (error self))
  else if String.eqb name "pak_assets" then Some (pak_assets self)
  else if String.eqb name "nativize_assets" then Some (nativize_assets self)
  else if String.eqb name "compressed_assets" then Some (compressed_assets self)
  else if String.eqb name "no_debug_info" then Some (no_debug_info self)
  else if String.eqb name "full_rebuild" then Some (full_rebuild self)
  else if String.eqb name "no_editor_content" then Some (no_editor_content self)
  else if String.eqb name "ignore_cook_errors" then Some (ignore_cook_errors self)
  else if String.eqb name "use_debug_editor_cmd" then Some (use_debug_editor_cmd self)
  else if String.eqb name "build_type" then Some (build_type self)
  else if String.eqb name "maps" then Some (maps self)
  else if String.eqb name "build" then Some (build self)
  else if String.eqb name "cook" then Some (cook self)
  else if String.eqb name "package" then Some (package self)
  else if String.eqb name "stage" then Some (stage self)
  else if String.eqb name "archive" then Some (archive self)
  else if String.eqb name "content_black_list" then Some (content_black_list self)
  else if String.eqb name "build_blacklist_dir" then Some (JStr build_blacklist_dir)
  else if String.eqb name "blacklist_file_name" then Some (JStr "PakBlacklist-{0}.txt")
  else if String.eqb name "config" then Some (PyObject "config")
  else if String.eqb name "verify" then Some (PyObject "verify")
  else if String.eqb name "run" then Some (PyObject "run")
  else None.

(** [Package] as an action class. *)
Definition class : ActionClass :=
  {| act_state := t;
     act_init := λ kwargs, mret (init kwargs);
     act_verify := verify;
     act_run := run;
     act_error := error;
     act_getattr := λ self name, mret (getattr self name, self) |}.
End Methods.

End Package.

(** ** The driver's state

    The heap of configuration objects, the metadata store [build_meta] with
    its persisted snapshot, and the trace. *)

Record World : Type := {
  heap : gmap loc ProjectConfig;
  meta : gmap string pyval;
  disk : gmap string pyval;
  trace : list Event
}.

Definition M (A : Type) : Type := World → Result A * World.

#[global] Instance M_ret : MRet M := λ A a w, (Ok a, w).

#[global] Instance M_bind : MBind M := λ A B f m w,
  match m w with
  | (Ok a, w1) => f a w1
  | (Exit n, w1) => (Exit n, w1)
  | (Raise e, w1) => (Raise e, w1)
  end.

(** Appends one event to the trace. *)
Definition log (e : Event) : M unit := λ w,
  (Ok tt, {| heap := heap w; meta := meta w; disk := disk w;
             trace := trace w ++ [e] |}).

Definition M_exit {A} (code : Z) : M A := λ w, (Exit code, w).
Definition M_raise {A} (e : PyExn) : M A := λ w, (Raise e, w).

#[global] Instance M_out : MonadOut M :=
  {| emit := λ e, log (Io e); exit := @M_exit; raise := @M_raise |}.

(** Reads the object at [l]. *)
Definition read (l : loc) : M ProjectConfig := λ w, (Ok (heap w !!! l), w).

(** Runs a computation on the object at [l]: it sees the trace, its
    assignments go to that object and to no other, its effects are
    appended to the trace. *)
Definition on {A} (l : loc) (m : Eff A) : M A := λ w,
  let '(r, c, out) := m (heap w !!! l) (trace w) in
  (r, {| heap := <[l := c]> (heap w); meta := meta w; disk := disk w;
         trace := trace w ++ (Io <$> out) |}).

(** *** Argument objects shared with the script

    [kwargs.update(step['action']['args'])] puts the script's own objects
    into the keyword arguments, so a change that an action makes to one of
    them in place is a change of [step['action']['args']] in the script
    of the driver's configuration. *)

(** The arguments [args] of a step after the change [e]. *)
Definition change_arg (args : gmap string pyval) (e : IOEvent)
  : gmap string pyval :=
  match e with
  | IoSetArg key value =>
      match args !! key with
      | Some v => if same_kind v value then <[key := value]> args else args
      | None => args
      end
  | _ => args
  end.

Definition set_args (args : option (gmap string pyval)) (a : StepAction)
  : StepAction :=
  {| a_id := a_id a; a_module := a_module a; a_meta := a_meta a;
     a_args := args; a_meta_updates := a_meta_updates a |}.

Definition set_action (a : StepAction) (s : Step) : Step :=
  {| s_desc := s_desc s; s_enabled := s_enabled s;
     s_allow_failure := s_allow_failure s; s_action := a |}.

(** The step [s] after the changes [out] to the arguments of step [id]. *)
Definition change_step (id : nat) (out : list IOEvent) (s : Step) : Step :=
  if decide (a_id (s_action s) = id) then
    set_action (set_args ((λ args, foldl change_arg args out)
                            <$> a_args (s_action s))
                         (s_action s)) s
  else s.

Definition change_entry (id : nat) (out : list IOEvent) (e : Entry) : Entry :=
  match e with
  | Group steps => Group (change_step id out <$> steps)
  | Table items => Table items
  end.

Definition change_config (id : nat) (out : list IOEvent) (c : ProjectConfig)
  : ProjectConfig :=
  set_script (fmap (M:=gmap string) (change_entry id out) <$> script c) c.

(** The heap after the changes in place among the effects [out] of an
    action that holds the argument objects of the step [shared.2] of the
    script of the configuration object at [shared.1]. *)
Definition share (shared : option (loc * nat)) (out : list IOEvent)
    (h : gmap loc ProjectConfig) : gmap loc ProjectConfig :=
  match shared with
  | Some (config, id) => alter (change_config id out) config h
  | None => h
  end.
Arguments share : simpl never.

(** Runs a method of an action instance that was built on the object at
    [l] and holds the argument objects of [shared]. *)
Definition on_sharing {A} (shared : option (loc * nat)) (l : loc)
    (m : Eff A) : M A := λ w,
  let '(r, c, out) := m (heap w !!! l) (trace w) in
  (r, {| heap := <[l := c]> (share shared out (heap w)); meta := meta w;
         disk := disk w; trace := trace w ++ (Io <$> out) |}).

(** [copy.deepcopy(config)]: a new object, equal in every field, that
    shares nothing with the original. *)
Definition deepcopy (l : loc) : M loc := λ w,
  let l' := fresh (dom (heap w)) in
  (Ok l', {| heap := <[l' := heap w !!! l]> (heap w); meta := meta w;
             disk := disk w; trace := trace w |}).

(** ** build_meta.BuildMeta *)

Module BuildMeta.

(** Modelled from the spec: [build_meta.py] is not among the sources.
    [collect(keys)] is the projection of the store on the requested keys
    and fails if a key is absent. *)
Fixpoint collect (store : gmap string pyval) (keys : list string)
  : Result (gmap string pyval) :=
  match keys with
  | [] => Ok ∅
  | k :: ks =>
      match store !! k with
      | None => Raise (KeyError k)
      | Some v =>
          match collect store ks with
          | Ok m => Ok (<[k := v]> m)
          | r => r
          end
      end
  end.

(** [build_meta.name(...)]: the store keeps its entries as attributes of
    the object ([setattr], line 314), so an entry of the name of a method
    hides the method, and the call is a call of the entry: a [TypeError],
    as the values of the store are not callable.  (An entry that is a
    callable object is not modelled; the properties that depend on a call
    of the store say that no entry hides the method.) *)
Definition method {A} (name : string) (body : M A) : M A := λ w,
  match meta w !! name with
  | Some _ => (Raise (TypeError "object is not callable"), w)
  | None => body w
  end.

Definition collect_meta (keys : list string) : M (gmap string pyval) :=
  method "collect_meta" (λ w, (collect (meta w) keys, w)).

(** [setattr(build_meta, k, v)]: the store's attribute [k] becomes [v]. *)
Definition set (k : string) (v : pyval) : M unit := λ w,
  (Ok tt, {| heap := heap w; meta := <[k := v]> (meta w); disk := disk w;
             trace := trace w |}).

(** Modelled from the spec: [save()] overwrites the persisted snapshot
    with the store, atomically. *)
Definition save_meta : M unit :=
  method "save_meta" (λ w,
    (Ok tt, {| heap := heap w; meta := meta w; disk := meta w;
               trace := trace w ++ [EvSaveMeta (meta w)] |})).

(** Modelled from the spec: [insertBulk(mapping)] seeds the store. *)
Definition insert_meta (kwargs : gmap string pyval) : M unit :=
  method "insert_meta" (λ w,
    (Ok tt, {| heap := heap w; meta := py_update (meta w) kwargs;
               disk := disk w; trace := trace w |})).

(** Modelled from the spec: [load()] reads the persisted snapshot. *)
Definition load : M unit := λ w,
  (Ok tt, {| heap := heap w; meta := disk w; disk := disk w;
             trace := trace w |}).

End BuildMeta.

(** ** build_script.py: run_build_steps *)

Section Runner.
Context `{!Environment}.

(** [action_class(config, **kwargs)] for the configuration object at
    [cfg]: the call is recorded with the contents the object has at that
    moment, then the constructor runs on it.  [shared] names the step whose
    argument objects are among [kwargs], if there is one. *)
Definition construct (name : string) (cls : ActionClass)
    (shared : option (loc * nat)) (cfg : loc)
    (kwargs : gmap string pyval) : M (act_state cls) :=
  c ← read cfg;
  log (EvConstruct name cfg c kwargs) ;;
  on_sharing shared cfg (act_init cls kwargs).

Definition call_verify (cls : ActionClass) (shared : option (loc * nat))
    (cfg : loc) (b : act_state cls) : M (string * act_state cls) :=
  log (EvVerify cfg) ;; on_sharing shared cfg (act_verify cls b).

Definition call_run (cls : ActionClass) (shared : option (loc * nat))
    (cfg : loc) (b : act_state cls) : M (bool * act_state cls) :=
  log (EvRun cfg) ;; on_sharing shared cfg (act_run cls b).

(** ["enabled" in step and step["enabled"] is False]. *)
Definition disabled (step : Step) : bool :=
  match s_enabled step with Some v => is_False v | None => false end.

(** ["allow_failure" in step and step["allow_failure"] is True]. *)
Definition allow_failure (step : Step) : bool :=
  match s_allow_failure step with Some v => is_True v | None => false end.

(** Lines 281-287: the keyword arguments of the action.  The values of
    [args] are the objects of the script themselves, see [share]. *)
Definition build_kwargs (action : StepAction) : M (gmap string pyval) :=
  let kwargs : gmap string pyval := ∅ in
  kwargs ← match a_meta action with
           | Some keys =>
               collected ← BuildMeta.collect_meta keys;
               mret (py_update kwargs collected)
           | None => mret kwargs
           end;
  match a_args action with
  | Some args => mret (py_update kwargs args)
  | None => mret kwargs
  end.

(** Lines 311-314: the loop over [meta_updates.items()]. *)
Fixpoint meta_updates (cls : ActionClass) (shared : option (loc * nat))
    (snapshot : loc) (b : act_state cls)
    (updates : list (string * string)) : M unit :=
  match updates with
  | [] => mret tt
  | (k, v) :: rest =>
      '(meta_item, b) ← on_sharing shared snapshot (act_getattr cls b v);
      match meta_item with
      | Some JNull | None => mret tt
      | Some meta_item => BuildMeta.set k meta_item
      end ;;
      meta_updates cls shared snapshot b rest
  end.

(** How the body of the [for] loop ends: with the next step, or with a
    [return] out of [run_build_steps]. *)
Inductive Ctl : Type := Continue | Return.

(** The step of the driver's script whose argument objects the action of
    [action] is given. *)
Definition sharing (config : loc) (action : StepAction)
  : option (loc * nat) :=
  Some (config, a_id action).

(** Lines 281-291: [b = action_class(deepcopy(config), **kwargs)]; returns
    the clone with the instance. *)
Definition instantiate (config : loc) (name : string) (cls : ActionClass)
    (action : StepAction) : M (loc * act_state cls) :=
  kwargs ← build_kwargs action;
  snapshot ← deepcopy config;
  b ← construct name cls (sharing config action) snapshot kwargs;
  mret (snapshot, b).

(** Lines 309-315: the meta updates of a step that ran. *)
Definition do_meta_updates (cls : ActionClass) (shared : option (loc * nat))
    (snapshot : loc) (b : act_state cls) (action : StepAction) : M unit :=
  match a_meta_updates action with
  | Some updates =>
      meta_updates cls shared snapshot b updates ;;
      BuildMeta.save_meta
  | None => mret tt
  end.

(** Lines 281-315: the step once its action class is known. *)
Definition run_action (config : loc) (step : Step) (name : string)
    (action_class : ActionClass) : M Ctl :=
  let shared := sharing config (s_action step) in
  '(snapshot, b) ← instantiate config name action_class (s_action step);
  '(verify_error, b) ← call_verify action_class shared snapshot b;
  if negb (String.eqb verify_error "") then
    if allow_failure step then
      print_warning verify_error ;;
      print_warning "Verification of this action failed. Skipping because of allow_failure flag." ;;
      mret Return
    else error_exit verify_error
  else
  '(ok, b) ← call_run action_class shared snapshot b;
  if negb ok then
    if allow_failure step then
      print_warning (act_error action_class b) ;;
      print_warning "Running of this action failed. Skipping because of allow_failure flag." ;;
      mret Return
    else error_exit (act_error action_class b)
  else
  do_meta_updates action_class shared snapshot b (s_action step) ;;
  mret Continue.

(** Lines 273-276: the class that the step's module name stands for.
    The outer [None] is a failed import, the inner one a module without a
    class of that name. *)
Definition resolve (module : string) : option (option ActionClass) :=
  step_module ← import_module module;
  Some (step_module (py_title (last_component module))).

(** The body of the loop, lines 268-315. *)
Definition run_step (config : loc) (step : Step) : M Ctl :=
  if disabled step then mret Continue else
  print_action (default "Performing Undescribed step" (s_desc step)) ;;
  let module := a_module (s_action step) in
  log (EvImport module) ;;
  match resolve module with
  | None => raise (ImportError module)
  | Some None =>
      print_warning ("action class (" +:+ py_title (last_component module)
                     +:+ ") could not be found!") ;;
      mret Continue
  | Some (Some action_class) =>
      run_action config step (py_title (last_component module)) action_class
  end.

(** The [for step in steps] loop, line 267. *)
Fixpoint run_steps (config : loc) (steps : list Step) : M unit :=
  match steps with
  | [] => mret tt
  | step :: rest =>
      ctl ← run_step config step;
      match ctl with
      | Continue => run_steps config rest
      | Return => mret tt
      end
  end.

(** The body of the loop when [steps] is a dict and [step] one of its
    keys, a string: [in] is the substring test and subscripting with a
    string raises, at line 268, 271 or 274. *)
Definition run_key (step : string) : M unit :=
  if py_contains "enabled" step then
    raise (TypeError "string indices must be integers")
  else if py_contains "desc" step then
    raise (TypeError "string indices must be integers")
  else
    print_action "Performing Undescribed step" ;;
    raise (TypeError "string indices must be integers").

(** The [for step in steps] loop over the keys of a dict. *)
Fixpoint run_keys (keys : list string) : M unit :=
  match keys with
  | [] => mret tt
  | step :: rest => run_key step ;; run_keys rest
  end.

(** [run_build_steps(config, build_meta, steps_name, complain_missing_step)].
    The store [build_meta] is the one of the [World]. *)
Definition run_build_steps (config : loc) (steps_name : string)
    (complain_missing_step : bool) : M unit :=
  c ← read config;
  match script c with
  | None => print_warning "Script json not loaded for run_build_steps!"
  | Some sc =>
      match sc !! steps_name with
      | Some (Group steps) => run_steps config steps
      | Some (Table items) => run_keys items.*1
      | None =>
          when complain_missing_step
            (print_warning ("Could not find build step (" +:+ steps_name
                            +:+ ") for run_build_steps!"))
      end
  end.
End Runner.

(** ** build_script.py: ensure_engine *)

Section EnsureEngine.
Context `{!Environment}.

(** [try: os.makedirs(path) except Exception: error_exit(...)]. *)
Definition makedirs_or_exit (path : string) : Eff unit :=
  emit (IoMakedirs path) ;;
  failed ← ask (λ h, os_makedirs_raises h path);
  when failed
    (error_exit ("Unable to create engine directory! Tried @ " +:+ path)).

(** Lines 188-197: an ideal location to put the engine. *)
Definition default_engine_path (config : ProjectConfig) : string :=
  if (String.length (engine_path_name config) =? 0)%nat then
    os_path_abspath
      (os_path_join (uproject_dir_path config)
                    ("..\UnrealEngine_" +:+ uproject_name config))
  else if os_path_isabs (engine_path_name config)
       then engine_path_name config
       else os_path_normpath
              (os_path_join (uproject_dir_path config)
                            (engine_path_name config)).

(** Lines 170-206: find out where the engine is, or where to put it. *)
Definition locate_engine (can_pull : bool) (engine_override : string)
  : Eff unit :=
  config ← get_config;
  if String.eqb (UE4EnginePath config) "" then
    when (negb can_pull && String.eqb engine_override "")
      (error_exit ("Static engine placement required for non-git pulled engine. "
                   +:+ "You can specify a path using the -e param, or specify git configuration.")) ;;
    if negb (String.eqb engine_override "") then
      setup_engine_paths (os_path_abspath engine_override) ;; mret tt
    else
      emit (IoConfirm "Would you like to specify the location of the engine install?") ;;
      result ← ask (λ h, click_confirm h "Would you like to specify the location of the engine install?");
      if (result : bool) then
        emit (IoPrompt "Where would you like to install the engine?") ;;
        result ← ask (λ h, click_prompt h "Where would you like to install the engine?");
        present ← exists_ result;
        when (negb present) (makedirs_or_exit result) ;;
        setup_engine_paths result ;; mret tt
      else
        let engine_path := default_engine_path config in
        present ← exists_ engine_path;
        when (negb present) (makedirs_or_exit engine_path) ;;
        setup_engine_paths engine_path ;; mret tt
  else if negb (String.eqb (UE4EnginePath config) engine_override)
          && negb (String.eqb engine_override "") then
    error_exit "Specific engine path requested, but engine path for this project already exists?"
  else mret tt.

(** Lines 208-225: pull the engine, set up its paths, register it. *)
Definition pull_and_register (can_pull : bool)
    (engine_override : string) : Eff unit :=
  when can_pull
    (config ← get_config;
     '(ok, error) ← Git_run (git_proj_branch config) (git_repo config)
                            (UE4EnginePath config) true false;
     when (negb ok) (error_exit error)) ;;
  ok ← setup_engine_paths engine_override;
  when (negb ok) (error_exit "Could not setup valid engine paths!") ;;
  config ← get_config;
  when (negb (String.eqb (UE4EngineKeyName config) ""))
    (register_project_engine false).

(** Lines 233-238: the arguments of the dependency sync. *)
Definition dependency_args (config : ProjectConfig) : list string :=
  (if exclude_samples config
   then (λ sample_pack, "-exclude=" +:+ sample_pack)
          <$> ["FeaturePacks"; "Samples"; "Templates"]
   else [])
  ++ ((λ extra_exclude, "-exclude=" +:+ extra_exclude)
        <$> extra_dependency_excludes config).

(** Lines 227-249: the dependency sync and the build-tool check. *)
Definition sync_dependencies : Eff unit :=
  config ← get_config;
  if negb (editor_running config) then
    print_action "Checking engine dependencies up-to-date" ;;
    code ← launch (UE4GitDependenciesPath config) (dependency_args config);
    when (negb (code =? 0)%Z)
      (error_exit "Engine dependencies Failed to Sync!") ;;
    present ← isfile (UE4UBTPath config);
    when (negb present)
      (print_action "Build tool doesn't exist yet, generating project and building..." ;;
       vs ← ask get_visual_studio_version;
       code ← launch (UE4GenProjFilesPath config)
                     (if (vs =? 2017)%Z then ["-2017"] else []);
       when (negb (code =? 0)%Z)
         (error_exit "Failed to build UnrealBuildTool.exe!"))
  else mret tt.

(** Line 168. *)
Definition can_pull_engine (config : ProjectConfig) : bool :=
  negb (String.eqb (git_repo config) "")
  && negb (String.eqb (git_proj_branch config) "").

(** Lines 168-225: everything before the editor is looked for. *)
Definition prepare_engine (engine_override : string) : Eff unit :=
  config ← get_config;
  let can_pull := can_pull_engine config in
  locate_engine can_pull engine_override ;;
  pull_and_register can_pull engine_override.

(** [ensure_engine(config, engine_override)], lines 162-249. *)
Definition ensure_engine (engine_override : string) : Eff unit :=
  prepare_engine engine_override ;;
  sync_dependencies.

End EnsureEngine.

(** ** build_script.py: build_script, from line 88 on

    The configuration is loaded and lives at [config]; [buildtype] is the
    build type after the fix-up of line 66. *)

Section BuildScript.
Context `{!Environment}.

(** [b = Build(config, build_name=name); if not b.run(): error_exit(b.error)]
    on the driver's own configuration object. *)
Definition build_or_exit (config : loc) (build_name : string) : M unit :=
  b ← construct "Build" Build None config
       {[ "build_name" := JStr build_name ]};
  '(ok, b) ← call_run Build None config b;
  when (negb ok) (error_exit (act_error Build b)).

(** [package = Package(config); if not package.run(): error_exit(...)]. *)
Definition package_or_exit (config : loc) : M unit :=
  b ← construct "Package" Package.class None config ∅;
  '(ok, b) ← call_run Package.class None config b;
  when (negb ok) (error_exit (act_error Package.class b)).

Fixpoint build_tools (config : loc) (tools : list string) : M unit :=
  match tools with
  | [] => mret tt
  | tool_name :: rest => build_or_exit config tool_name ;; build_tools config rest
  end.

(** ['name' in config.script]; on [None] the test raises. *)
Definition has_steps (c : ProjectConfig) (name : string) : M bool :=
  match script c with
  | Some sc => mret (bool_decide (is_Some (sc !! name)))
  | None => raise (TypeError "argument of type 'NoneType' is not iterable")
  end.

(** [config.clean = b] on the driver's object. *)
Definition assign_clean (config : loc) (b : bool) : M unit :=
  on config (c ← get_config; put_config (set_clean b c)).

(** Lines 132-153: the group that the build type selects. *)
Definition main_group (config : loc) (buildtype : string) : M unit :=
  c ← read config;
  if String.eqb buildtype "Editor" then
    (if editor_running c then
       print_warning "Cannot build the Editor while the editor is running!" ;;
       emit IoPause ;;
       exit 1
     else mret tt) ;;
    game_editor ← has_steps c "game_editor_steps";
    if (game_editor : bool) then
      run_build_steps config "game_editor_steps" false
    else
      editor ← has_steps c "editor_steps";
      if (editor : bool) then
        run_build_steps config "editor_steps" false
      else build_or_exit config (uproject_name c +:+ "Editor")
  else if String.eqb buildtype "Package" then
    package ← has_steps c "package_steps";
    if (package : bool) then
      run_build_steps config "package_steps" false
    else package_or_exit config
  else mret tt.

(** Lines 130-155: the step groups of a full build, in their fixed order. *)
Definition build_groups (config : loc) (buildtype : string) : M unit :=
  run_build_steps config "pre_build_steps" false ;;
  main_group config buildtype ;;
  run_build_steps config "post_build_steps" false.

(** ["meta" in config.script], lines 90-92: the store is created from its
    persisted snapshot and seeded with the script's [meta] section; [**]
    takes a dict only. *)
Definition seed_meta (config : loc) : M unit :=
  BuildMeta.load ;;
  c ← read config;
  match script c with
  | Some sc =>
      match sc !! "meta" with
      | Some (Table seed) => BuildMeta.insert_meta (list_to_map seed)
      | Some (Group _) =>
          raise (TypeError "argument after ** must be a mapping")
      | None => mret tt
      end
  | None => raise (TypeError "argument of type 'NoneType' is not iterable")
  end.

(** Lines 88-159. *)
Definition build_script (config : loc) (engine : string)
    (buildtype : string) (build : string) : M unit :=
  print_title "Unreal Project Builder" ;;
  seed_meta config ;;
  on config (ensure_engine engine) ;;
  c ← read config;
  secho (String (ascii_of_nat 10) "Project File Path: "
         +:+ uproject_dir_path c +:+ String (ascii_of_nat 10) "Engine Path: "
         +:+ UE4EnginePath c) ;;
  present ← on config (isfile (os_path_join (UE4EnginePath c)
                         "Engine\Binaries\Win64\UnrealHeaderTool.exe"));
  when (negb present) (build_or_exit config "UnrealHeaderTool") ;;
  c ← read config;
  let clean_revert := clean c in
  when (String.eqb buildtype "Package") (assign_clean config false) ;;
  build_tools config (build_engine_tools c) ;;
  assign_clean config clean_revert ;;
  (if negb (String.eqb build "") then
     run_build_steps config build true
   else
     c ← read config;
     (if negb (editor_running c) then
        let clean_revert := clean c in
        when (String.eqb buildtype "Package") (assign_clean config false) ;;
        build_or_exit config "UE4Editor" ;;
        assign_clean config clean_revert
      else print_warning "Skipping engine build because engine is running!") ;;
     build_groups config buildtype) ;;
  BuildMeta.save_meta ;;
  print_action "SUCCESS!" ;;
  emit IoPause.

End BuildScript.

(** ** A small concrete setting

    An outside world in which every file is absent, every process and
    every file operation succeeds and the environment is ready, with a
    registry of a few modules; used to run the definitions on concrete
    scripts. *)

Module Demo.

(** An action that does nothing: [verify] returns [verify_error], [run]
    returns [ok], and the instance has the attributes [attrs]. *)
Definition fixed (verify_error : string) (ok : bool)
    (attrs : gmap string pyval) : ActionClass :=
  {| act_state := unit;
     act_init := λ _, mret tt;
     act_verify := λ b, mret (verify_error, b);
     act_run := λ b, mret (ok, b);
     act_error := λ _, "run failed";
     act_getattr := λ b name, mret (attrs !! name, b) |}.

(** An action whose [run] assigns [config.clean = True] on the
    configuration object it was given. *)
Definition tamper : ActionClass :=
  {| act_state := unit;
     act_init := λ _, mret tt;
     act_verify := λ b, mret ("", b);
     act_run := λ b, c ← get_config; put_config (set_clean true c) ;; mret (true, b);
     act_error := λ _, "";
     act_getattr := λ b _, mret (None, b) |}.

(** An action that keeps its keyword arguments and whose [run] appends an
    item to the list it was given as [maps], in place. *)
Definition grower : ActionClass :=
  {| act_state := gmap string pyval;
     act_init := λ kwargs, mret kwargs;
     act_verify := λ b, mret ("", b);
     act_run := λ b,
       match b !! "maps" with
       | Some (JList l) =>
           let l' := JList (l ++ [JStr "Bonus"]) in
           emit (IoSetArg "maps" l') ;; mret (true, <["maps" := l']> b)
       | _ => mret (true, b)
       end;
     act_error := λ _, "";
     act_getattr := λ b name, mret (b !! name, b) |}.

(** An action whose attribute [broken] is a property that raises. *)
Definition moody : ActionClass :=
  {| act_state := unit;
     act_init := λ _, mret tt;
     act_verify := λ b, mret ("", b);
     act_run := λ b, mret (true, b);
     act_error := λ _, "";
     act_getattr := λ b name,
       if String.eqb name "broken" then raise (OtherException "broken")
       else if String.eqb name "size" then mret (Some (JNum 7), b)
       else mret (None, b) |}.

(** The modules that can be imported.  [actions.empty] is a module that
    defines no class [Empty]. *)
Definition registry (name : string) : option PyModule :=
  if String.eqb name "actions.good" then
    Some (λ cls, if String.eqb cls "Good"
                 then Some (fixed "" true {[ "barAttr" := JNum 42 ]})
                 else None)
  else if String.eqb name "actions.unverified" then
    Some (λ cls, if String.eqb cls "Unverified"
                 then Some (fixed "not ready" true ∅) else None)
  else if String.eqb name "actions.failing" then
    Some (λ cls, if String.eqb cls "Failing"
                 then Some (fixed "" false ∅) else None)
  else if String.eqb name "actions.tamper" then
    Some (λ cls, if String.eqb cls "Tamper" then Some tamper else None)
  else if String.eqb name "actions.grower" then
    Some (λ cls, if String.eqb cls "Grower" then Some grower else None)
  else if String.eqb name "actions.moody" then
    Some (λ cls, if String.eqb cls "Moody" then Some moody else None)
  else if String.eqb name "actions.empty" then Some (λ _, None)
  else None.

Definition env : Environment :=
  {| os_path_isfile := λ _ _, false;
     os_path_exists := λ _ _, false;
     os_path_isabs := λ _, false;
     os_path_abspath := λ p, p;
     os_path_normpath := λ p, p;
     os_path_join := λ a b, a +:+ "\" +:+ b;
     os_makedirs_raises := λ _ _, false;
     os_makedirs_exist_ok_raises := λ _ _, false;
     os_unlink_raises := λ _ _, false;
     shutil_copyfile_raises := λ _ _ _, false;
     shutil_rmtree_raises := λ _ _, false;
     launch_code := λ _ _ _, 0%Z;
     click_confirm := λ _ _, false;
     click_prompt := λ _ _, "";
     get_visual_studio_version := λ _, 2017%Z;
     py_str := λ v, match v with JStr s => s | _ => "?" end;
     check_environment := λ _ _, true;
     setup_engine_paths := λ _, mret true;
     register_project_engine := λ _, emit IoRegisterEngine;
     Git_run := λ branch repo folder _ _,
       emit (IoGit repo branch folder) ;; mret (true, "");
     import_module := registry;
     Build := fixed "" true ∅ |}.

Definition step (module : string) (allow : option pyval)
    (updates : option (list (string * string))) : Step :=
  {| s_desc := None; s_enabled := None; s_allow_failure := allow;
     s_action := {| a_id := 0; a_module := module; a_meta := None;
                    a_args := None; a_meta_updates := updates |} |}.

(** A step that is switched off. *)
Definition off_step : Step :=
  {| s_desc := None; s_enabled := Some (JBool false);
     s_allow_failure := None;
     s_action := {| a_id := 0; a_module := "actions.good"; a_meta := None;
                    a_args := None; a_meta_updates := None |} |}.


(** A project whose engine is installed and whose editor is running. *)
Definition running_config : ProjectConfig :=
  {| script := None; clean := false; editor_running := true;
     configuration := "Development"; version_str := "1.0"; git_repo := "";
     git_proj_branch := ""; engine_path_name := "";
     exclude_samples := true; extra_dependency_excludes := [];
     build_engine_tools := []; uproject_name := "game";
     uproject_dir_path := "C:\game";
     uproject_file_path := "C:\game\game.uproject";
     builds_path := "C:\game\builds"; UE4EnginePath := "C:\UE4";
     UE4EngineKeyName := "";
     UE4GitDependenciesPath := "C:\UE4\GitDependencies.exe";
     UE4UBTPath := "C:\UE4\UnrealBuildTool.exe";
     UE4GenProjFilesPath := "C:\UE4\GenerateProjectFiles.bat";
     UE4RunUATBatPath := "C:\UE4\RunUAT.bat" |}.

(** A world whose only object is the driver's configuration, at 0. *)
Definition world (c : ProjectConfig) : World :=
  {| heap := {[ 0%nat := c ]}; meta := ∅; disk := ∅; trace := [] |}.

End Demo.

(** Further worlds and inputs. *)
Module Lab.

(** An outside world in which the environment is not ready and every
    process fails. *)
Definition broken : Environment :=
  {| os_path_isfile := λ _ _, false;
     os_path_exists := λ _ _, false;
     os_path_isabs := λ _, false;
     os_path_abspath := λ p, p;
     os_path_normpath := λ p, p;
     os_path_join := λ a b, a +:+ "\" +:+ b;
     os_makedirs_raises := λ _ _, false;
     os_makedirs_exist_ok_raises := λ _ _, false;
     os_unlink_raises := λ _ _, false;
     shutil_copyfile_raises := λ _ _ _, false;
     shutil_rmtree_raises := λ _ _, false;
     launch_code := λ _ _ _, 1%Z;
     click_confirm := λ _ _, false;
     click_prompt := λ _ _, "";
     get_visual_studio_version := λ _, 2017%Z;
     py_str := λ v, match v with JStr s => s | _ => "?" end;
     check_environment := λ _ _, false;
     setup_engine_paths := λ _, mret true;
     register_project_engine := λ _, emit IoRegisterEngine;
     Git_run := λ branch repo folder _ _,
       emit (IoGit repo branch folder) ;; mret (true, "");
     import_module := Demo.registry;
     Build := Demo.fixed "" true ∅ |}.

(** The project of [Demo.running_config] with the editor closed and a
    clean build asked for. *)
Definition closed_config : ProjectConfig :=
  set_clean true
    {| script := script Demo.running_config; clean := false;
       editor_running := false;
       configuration := configuration Demo.running_config;
       version_str := version_str Demo.running_config;
       git_repo := ""; git_proj_branch := ""; engine_path_name := "";
       exclude_samples := true; extra_dependency_excludes := ["Docs"];
       build_engine_tools := [];
       uproject_name := uproject_name Demo.running_config;
       uproject_dir_path := uproject_dir_path Demo.running_config;
       uproject_file_path := uproject_file_path Demo.running_config;
       builds_path := builds_path Demo.running_config;
       UE4EnginePath := UE4EnginePath Demo.running_config;
       UE4EngineKeyName := "";
       UE4GitDependenciesPath := UE4GitDependenciesPath Demo.running_config;
       UE4UBTPath := UE4UBTPath Demo.running_config;
       UE4GenProjFilesPath := UE4GenProjFilesPath Demo.running_config;
       UE4RunUATBatPath := UE4RunUATBatPath Demo.running_config |}.

(** A script with one group, whose steps are all switched off. *)
Definition idle_script : Script :=
  {[ "pre_build_steps" := Group [Demo.off_step; Demo.off_step] ]}.

(** [Demo.running_config] with [idle_script] loaded. *)
Definition scripted_config : ProjectConfig :=
  {| script := Some idle_script; clean := false; editor_running := true;
     configuration := "Development"; version_str := "1.0"; git_repo := "";
     git_proj_branch := ""; engine_path_name := "";
     exclude_samples := true; extra_dependency_excludes := [];
     build_engine_tools := []; uproject_name := "game";
     uproject_dir_path := uproject_dir_path Demo.running_config;
     uproject_file_path := uproject_file_path Demo.running_config;
     builds_path := builds_path Demo.running_config;
     UE4EnginePath := UE4EnginePath Demo.running_config;
     UE4EngineKeyName := "";
     UE4GitDependenciesPath := UE4GitDependenciesPath Demo.running_config;
     UE4UBTPath := UE4UBTPath Demo.running_config;
     UE4GenProjFilesPath := UE4GenProjFilesPath Demo.running_config;
     UE4RunUATBatPath := UE4RunUATBatPath Demo.running_config |}.

(** The step [s] with the identity [id]. *)
Definition numbered (id : nat) (s : Step) : Step :=
  set_action {| a_id := id; a_module := a_module (s_action s);
                a_meta := a_meta (s_action s);
                a_args := a_args (s_action s);
                a_meta_updates := a_meta_updates (s_action s) |} s.

(** Steps with and without meta updates, one of them failing. *)
Definition mixed_steps : list Step :=
  [Demo.step "actions.good" None (Some [("foo", "barAttr")]);
   numbered 1 (Demo.step "actions.tamper" None None);
   numbered 2 (Demo.step "actions.failing" (Some (JBool true)) None);
   numbered 3 (Demo.step "actions.good" None None)].

(** A step of the action that appends to its argument [maps]. *)
Definition grower_step (maps : list pyval) : Step :=
  {| s_desc := None; s_enabled := None; s_allow_failure := None;
     s_action := {| a_id := 2; a_module := "actions.grower";
                    a_meta := None;
                    a_args := Some {[ "maps" := JList maps ]};
                    a_meta_updates := None |} |}.

(** Three steps, the second of which assigns to its configuration and the
    third of which changes its argument in place, and a configuration
    whose script has them as its [pre_build_steps]. *)
Definition growing_steps : list Step :=
  [Demo.step "actions.good" None None;
   numbered 1 (Demo.step "actions.tamper" None None);
   grower_step [JStr "Lobby"]].

Definition growing_config : ProjectConfig :=
  set_script (Some {[ "pre_build_steps" := Group growing_steps ]})
             Demo.running_config.

(** A configuration whose script has a [meta] section and nothing else. *)
Definition seeded_config : ProjectConfig :=
  set_script (Some {[ "meta" := Table [("version", JNum 3)] ]})
             Demo.running_config.

(** A client package of two maps. *)
Definition client_package : Package.t :=
  Package.init {[ "build_type" := JStr "client";
                  "maps" := JList [JStr "Lobby"; JStr "Arena"];
                  "pak_assets" := JBool false ]}.

End Lab.

(** * Properties *)

(** ** Notions used in the statements *)

(** The world [w] after the events [es]. *)
Definition logged (w : World) (es : list Event) : World :=
  {| heap := heap w; meta := meta w; disk := disk w;
     trace := trace w ++ es |}.

(** The configuration objects that the trace shows being handed to a
    constructor, with the contents they had. *)
Definition constructions (tr : list Event) : list (loc * ProjectConfig) :=
  omap (λ e, match e with
             | EvConstruct _ l c _ => Some (l, c)
             | _ => None
             end) tr.

(** The objects that the trace shows being handed to a constructor. *)
Definition snapshots (tr : list Event) : list loc := (constructions tr).*1.

(** No argument object is changed in place among the events [es]. *)
Definition unshared (es : list Event) : Prop :=
  ∀ key value, Io (IoSetArg key value) ∉ es.

(** The configuration [c'] is [c] in every field but the script. *)
Definition same_but_script (c c' : ProjectConfig) : Prop :=
  set_script None c' = set_script None c.

(** [w'] comes from [w] by steps that assign to no object other than [l],
    create no object other than [l] and construct no action; of the object
    at [config] they change at most the script, and that only by changing
    an argument object in place. *)
Definition quiet (config l : loc) (w w' : World) : Prop :=
  (∀ l', l' ≠ l → l' ≠ config → heap w' !! l' = heap w !! l')
  ∧ (l ≠ config →
       set_script None <$> heap w' !! config
       = set_script None <$> heap w !! config)
  ∧ dom (heap w) ⊆ dom (heap w')
  ∧ dom (heap w') ⊆ {[l]} ∪ dom (heap w)
  ∧ ∃ new, trace w' = trace w ++ new ∧ constructions new = []
      ∧ (unshared new → l ≠ config → heap w' !! config = heap w !! config).

(** A computation all of whose runs are [quiet]. *)
Definition Quiet {A} (config l : loc) (m : M A) : Prop :=
  ∀ w r w', m w = (r, w') → quiet config l w w'.

(** The world in which [deepcopy(config)] has made the clone and the
    constructor call on it is recorded. *)
Definition cloned (w : World) (config : loc) (name : string)
    (kwargs : gmap string pyval) : World :=
  let l := fresh (dom (heap w)) in
  {| heap := <[l := heap w !!! config]> (heap w); meta := meta w;
     disk := disk w;
     trace := trace w ++ [EvConstruct name l (heap w !!! config) kwargs] |}.

(** The world in which the step is announced and its module imported. *)
Definition announced (step : Step) (w : World) : World :=
  logged (logged w [Io (IoPrint PAction
                          (default "Performing Undescribed step" (s_desc step)))])
         [EvImport (a_module (s_action step))].

(** [w'] comes from [w] by steps that leave every object of [w] other
    than the one at [config] as it is, change of that one at most the
    script, and that only by changing an argument object in place, and
    construct actions only on fresh, pairwise distinct objects. *)
Definition isolated (config : loc) (w w' : World) : Prop :=
  (∀ l, l ∈ dom (heap w) → l ≠ config → heap w' !! l = heap w !! l)
  ∧ dom (heap w) ⊆ dom (heap w')
  ∧ set_script None <$> heap w' !! config
    = set_script None <$> heap w !! config
  ∧ ∃ new, trace w' = trace w ++ new
      ∧ (unshared new → heap w' !! config = heap w !! config)
      ∧ Forall (λ lc : loc * ProjectConfig,
                  (lc.1 ∉ dom (heap w)) ∧ (lc.1 ∈ dom (heap w'))
                  ∧ same_but_script (heap w !!! config) lc.2)
               (constructions new)
      ∧ NoDup (snapshots new).

(** The store after the loop over [meta_updates.items()], when reading
    the attribute [v] gives [attrs v]. *)
Fixpoint store_updates (attrs : string → option pyval)
    (updates : list (string * string)) (store : gmap string pyval)
  : gmap string pyval :=
  match updates with
  | [] => store
  | (k, v) :: rest =>
      store_updates attrs rest
        match attrs v with
        | Some JNull | None => store
        | Some meta_item => <[k := meta_item]> store
        end
  end.

(** The attributes named in [updates] are plain data attributes of the
    instance [b]: reading [v] gives [attrs v] and does nothing else. *)
Definition plain_attributes (cls : ActionClass) (b : act_state cls)
    (attrs : string → option pyval) (updates : list (string * string))
  : Prop :=
  ∀ k v, (k, v) ∈ updates →
    ∀ c h, act_getattr cls b v c h = (Ok (attrs v, b), c, []).

(** The world [w] after the two warnings of an allowed failure. *)
Definition warned (w : World) (msg note : string) : World :=
  logged (logged w [Io (IoPrint PWarning msg)]) [Io (IoPrint PWarning note)].

(** The step [step], whose action class is [cls], fails in the world [w]:
    either [verify] returns the non-empty message [msg], or [verify]
    returns the empty string and [run] returns [False] with the error
    [msg].  [note] is the second line that the runner prints for an
    allowed failure, [wf] the world when the failure is known. *)
Inductive fails (config : loc) (step : Step)
    (cls : ActionClass) (w : World) : string → string → World → Prop :=
| fails_verify snapshot b w1 err b1 w2 :
    instantiate config (py_title (last_component (a_module (s_action step))))
      cls (s_action step) (announced step w) = (Ok (snapshot, b), w1) →
    call_verify cls (sharing config (s_action step)) snapshot b w1
    = (Ok (err, b1), w2) →
    err ≠ "" →
    fails config step cls w err
      "Verification of this action failed. Skipping because of allow_failure flag."
      w2
| fails_run snapshot b w1 b1 w2 b2 w3 :
    instantiate config (py_title (last_component (a_module (s_action step))))
      cls (s_action step) (announced step w) = (Ok (snapshot, b), w1) →
    call_verify cls (sharing config (s_action step)) snapshot b w1
    = (Ok ("", b1), w2) →
    call_run cls (sharing config (s_action step)) snapshot b1 w2
    = (Ok (false, b2), w3) →
    fails config step cls w (act_error cls b2)
      "Running of this action failed. Skipping because of allow_failure flag."
      w3.

(** The warning of [Package.verify] for an unrecognized build type. *)
Definition unrecognized_build_type `{Environment} (self : Package.t)
  : string :=
  "Unrecognized build type (" +:+ py_str (Package.build_type self)
  +:+ ") for package. Defaulting to " +:+ Package.dquote +:+ "standalone"
  +:+ Package.dquote +:+ "." +:+ Package.newline
  +:+ "Valid types=['standalone', 'client', 'server']".

(** A computation that, started on the configuration [c], leaves it as
    it is, launches only processes that satisfy [P] and returns only
    values that satisfy [Q]. *)
Definition tame {A} (c : ProjectConfig) (P : string → list string → Prop)
    (Q : A → Prop) (m : Eff A) : Prop :=
  ∀ h r c' out, m c h = (r, c', out) →
    c' = c
    ∧ (∀ exe args, IoLaunch exe args ∈ out → P exe args)
    ∧ (∀ a, r = Ok a → Q a).

(** The flags that the stage toggles and the cook mode control. *)
Definition stage_flags : list string :=
  ["-build"; "-cook"; "-package"; "-stage"; "-archive";
   "-clean"; "-iterate"; "-iterativecooking"].

(** ** Notions of the further properties *)

(** The store and its persisted snapshot are the same in both worlds. *)
Definition same_store (w w' : World) : Prop :=
  meta w' = meta w ∧ disk w' = disk w.

(** Every run of [m] relates the world before to the world after by [R]. *)
Definition Always {A} (R : World → World → Prop) (m : M A) : Prop :=
  ∀ w r w', m w = (r, w') → R w w'.

(** What the runner calls on the instance built on an object. *)
Inductive Call : Type := Constructed | Verified | Ran.

(** The calls that a trace shows, with the object of the instance. *)
Definition protocol (tr : list Event) : list (loc * Call) :=
  omap (λ e, match e with
             | EvConstruct _ l _ _ => Some (l, Constructed)
             | EvVerify l => Some (l, Verified)
             | EvRun l => Some (l, Ran)
             | _ => None
             end) tr.

(** The calls on the instance built on [l], in order. *)
Definition calls_on (l : loc) (tr : list Event) : list Call :=
  (filter (λ x : loc * Call, x.1 = l) (protocol tr)).*2.

(** [w'] extends the trace of [w] by events whose calls are [p]. *)
Definition traced (p : list (loc * Call)) (w w' : World) : Prop :=
  ∃ new, trace w' = trace w ++ new ∧ protocol new = p.

(** [w'] comes from [w] by steps each of which builds its instance on a
    new object and calls it in the order construct, verify, run. *)
Definition orderly (w w' : World) : Prop :=
  dom (heap w) ⊆ dom (heap w')
  ∧ ∃ new, trace w' = trace w ++ new
      ∧ Forall (λ x : loc * Call,
                  (x.1 ∉ dom (heap w)) ∧ (x.1 ∈ dom (heap w')))
               (protocol new)
      ∧ ∀ l, calls_on l new `prefix_of` [Constructed; Verified; Ran].

(** A computation that, started on the configuration [c], leaves it as
    it is, has only outside effects that satisfy [E], never ends the
    process, raises only exceptions that satisfy [F] and returns only
    values that satisfy [Q]. *)
Definition behaves {A} (c : ProjectConfig) (E : IOEvent → Prop)
    (F : PyExn → Prop) (Q : A → Prop) (m : Eff A) : Prop :=
  ∀ h r c' out, m c h = (r, c', out) →
    c' = c ∧ Forall E out
    ∧ match r with Ok a => Q a | Exit _ => False | Raise e => F e end.

(** What [verify] makes of an instance: nothing, or the build type
    ['standalone'] when the error is empty and the build type is not one
    of the three valid ones. *)
Definition verified (self : Package.t) (err : string) (self' : Package.t)
  : Prop :=
  self' = self
  ∨ (err = ""
     ∧ existsb (py_eq_str (Package.build_type self))
               Package.valid_build_types = false
     ∧ self' = Package.set_build_type (JStr "standalone") self).

(** [build_blacklist_file_path], lines 90-92. *)
Definition blacklist_path `{Environment} (c : ProjectConfig) : string :=
  os_path_join
    (os_path_join (uproject_dir_path c) Package.build_blacklist_dir)
    (Package.blacklist_file_name (configuration c)).

(** The build directory of the instance's build type, lines 80-85. *)
Definition build_dir `{Environment} (self : Package.t) (c : ProjectConfig)
  : string :=
  os_path_join (builds_path c)
    (if py_eq_str (Package.build_type self) "client" then "WindowsClient"
     else if py_eq_str (Package.build_type self) "server"
          then "WindowsServer" else "WindowsNoEditor").

(** The outside effects that [Package.run] can have. *)
Definition package_effect `{Environment} (self : Package.t)
    (c : ProjectConfig) (e : IOEvent) : Prop :=
  match e with
  | IoPrint _ _ => True
  | IoLaunch exe _ => exe = UE4RunUATBatPath c
  | IoRmtree path => clean c = true ∧ path = build_dir self c
  | IoUnlink path => path = blacklist_path c
  | IoMakedirs path =>
      py_eq_str (Package.content_black_list self) "" = false
      ∧ path = os_path_join (uproject_dir_path c) Package.build_blacklist_dir
  | IoCopyfile src dst =>
      ∃ name, Package.content_black_list self = JStr name ∧ name ≠ ""
              ∧ src = os_path_join (uproject_dir_path c) name
              ∧ dst = blacklist_path c
  | _ => False
  end.

(** The flags that the build type and the asset options control, and the
    closing [-compile]. *)
Definition option_flags : list string :=
  ["-client"; "-server"; "-noclient"; "-nativizeAssets"; "-pak";
   "-compressed"; "-nodebuginfo"; "-SkipCookingEditorContent";
   "-IgnoreCookErrors"; "-compile"].

(** The argument vectors that [Package.run] may launch with: [cmd_args]
    of the instance as [verify] leaves it. *)
Definition launch_effect (self : Package.t) (c : ProjectConfig)
    (e : IOEvent) : Prop :=
  match e with
  | IoLaunch _ args =>
      ∃ self', verified self "" self'
               ∧ Package.cmd_args (Package.set_error "" self') c = Some args
  | _ => True
  end.

(** No character of [s] is a dot. *)
Definition dotless (s : string) : Prop :=
  Forall (λ c, c ≠ "."%char) (list_ascii_of_string s).

(** A character with an upper and a lower case. *)
Definition cased (c : ascii) : bool := is_lower c || is_upper c.

(** Unfolds the operations of the two monads, leaving the calls into the
    environment and into action classes as they are. *)
Ltac eff_unfold :=
  cbv [mbind mret Eff_bind Eff_ret M_bind M_ret get_config put_config ask
       when emit exit raise Eff_out Eff_emit Eff_exit Eff_raise
       M_out M_exit M_raise log read
       print_title print_action print_warning print_error secho error_exit
       launch isfile exists_
       file_call unlink makedirs_exist_ok copyfile rmtree].

Section Frame.
Context `{!Environment}.

Lemma constructions_app (t1 t2 : list Event) :
  constructions (t1 ++ t2) = constructions t1 ++ constructions t2.
Proof. unfold constructions. apply omap_app. Qed.

Lemma constructions_io (out : list IOEvent) : constructions (Io <$> out) = [].
Proof. induction out as [|e out IH]; [done|]. simpl. exact IH. Qed.

Lemma unshared_app (es1 es2 : list Event) :
  unshared (es1 ++ es2) ↔ unshared es1 ∧ unshared es2.
Proof.
  unfold unshared. split.
  - intros Hno. split; intros k v Hin; apply (Hno k v), elem_of_app; eauto.
  - intros [H1 H2] k v [Hin|Hin]%elem_of_app; [eapply H1 | eapply H2]; eauto.
Qed.

Lemma unshared_io (out : list IOEvent) :
  unshared (Io <$> out) → ∀ k v, IoSetArg k v ∉ out.
Proof.
  intros Hno k v Hin. apply (Hno k v). apply list_elem_of_fmap. eauto.
Qed.

(** Effects without a change in place leave the script as it is. *)
Lemma change_args_unshared (args : gmap string pyval) (out : list IOEvent) :
  (∀ k v, IoSetArg k v ∉ out) → foldl change_arg args out = args.
Proof.
  revert args. induction out as [|e out IH]; intros args Hno; [done|].
  simpl. rewrite IH.
  - destruct e; try done. exfalso. apply (Hno key value).
    apply list_elem_of_here.
  - intros k v Hin. apply (Hno k v). now apply list_elem_of_further.
Qed.

Lemma change_step_unshared (id : nat) (out : list IOEvent) (s : Step) :
  (∀ k v, IoSetArg k v ∉ out) → change_step id out s = s.
Proof.
  intros Hno. unfold change_step. destruct (decide _); [|done].
  destruct s as [desc en al [i m me ar mu]]. unfold set_action, set_args. simpl.
  destruct ar as [args|]; simpl; [|done].
  now rewrite change_args_unshared.
Qed.

Lemma change_config_unshared (id : nat) (out : list IOEvent)
    (c : ProjectConfig) :
  (∀ k v, IoSetArg k v ∉ out) → change_config id out c = c.
Proof.
  intros Hno. unfold change_config.
  assert (Hs : fmap (M:=gmap string) (change_entry id out) <$> script c
               = script c).
  { destruct (script c) as [sc|]; [|done]. simpl. f_equal.
    rewrite <- (map_fmap_id sc) at 2. apply map_fmap_ext. intros k e _.
    destruct e as [steps|items]; [|done]. simpl. f_equal.
    rewrite <- (list_fmap_id steps) at 2. apply list_fmap_ext.
    intros i s _. now apply change_step_unshared. }
  rewrite Hs. now destruct c.
Qed.

Lemma dom_share shared out (h : gmap loc ProjectConfig) :
  dom (share shared out h) = dom h.
Proof.
  destruct shared as [[config id]|]; [|done]. apply dom_alter_L.
Qed.

Lemma share_same shared out (h : gmap loc ProjectConfig) (l : loc) :
  set_script None <$> share shared out h !! l = set_script None <$> h !! l.
Proof.
  destruct shared as [[config id]|]; [|done]. unfold share.
  destruct (decide (config = l)) as [->|Hne].
  - rewrite lookup_alter_eq. now destruct (h !! l).
  - now rewrite lookup_alter_ne.
Qed.

Lemma share_other shared out (h : gmap loc ProjectConfig) (l : loc) :
  (∀ id, shared ≠ Some (l, id)) → share shared out h !! l = h !! l.
Proof.
  destruct shared as [[config id]|]; [|done]. unfold share. intros Hne.
  apply lookup_alter_ne. intros ->. now apply (Hne id).
Qed.

Lemma share_unshared shared out (h : gmap loc ProjectConfig) :
  (∀ k v, IoSetArg k v ∉ out) → share shared out h = h.
Proof.
  destruct shared as [[config id]|]; [|done]. unfold share. intros Hno.
  apply alter_id. intros c _. now apply change_config_unshared.
Qed.

Lemma same_script_total (h h' : gmap loc ProjectConfig) (l : loc) :
  set_script None <$> h' !! l = set_script None <$> h !! l →
  same_but_script (h !!! l) (h' !!! l).
Proof.
  unfold same_but_script. rewrite !lookup_total_alt.
  destruct (h' !! l), (h !! l); simpl; congruence.
Qed.

Lemma quiet_refl config l w : quiet config l w w.
Proof.
  repeat split; [set_solver..|]. exists []. now rewrite app_nil_r.
Qed.

Lemma quiet_trans config l w1 w2 w3 :
  quiet config l w1 w2 → quiet config l w2 w3 → quiet config l w1 w3.
Proof.
  intros (Hh1 & Hs1 & Hd1 & He1 & n1 & Ht1 & Hc1 & Hu1)
         (Hh2 & Hs2 & Hd2 & He2 & n2 & Ht2 & Hc2 & Hu2).
  repeat split.
  - intros l' Hl' Hc'. rewrite Hh2, Hh1; done.
  - intros Hne. rewrite Hs2, Hs1; done.
  - now transitivity (dom (heap w2)).
  - intros x Hx. apply He2, elem_of_union in Hx.
    destruct Hx as [Hx|Hx]; [apply elem_of_union; now left | now apply He1].
  - exists (n1 ++ n2). rewrite Ht2, Ht1, <- app_assoc. split; [done|].
    rewrite constructions_app, Hc1, Hc2. split; [done|].
    intros [Hn1 Hn2]%unshared_app Hne. rewrite Hu2, Hu1; done.
Qed.

Lemma quiet_logged config l w es :
  constructions es = [] → quiet config l w (logged w es).
Proof.
  intros Hes. repeat split; simpl; [set_solver..|]. now exists es.
Qed.

Lemma Quiet_ret {A} config l (a : A) : Quiet config l (mret a).
Proof. intros w r w' [= <- <-]. apply quiet_refl. Qed.

Lemma Quiet_bind {A B} config l (m : M A) (f : A → M B) :
  Quiet config l m → (∀ a, Quiet config l (f a)) → Quiet config l (m ≫= f).
Proof.
  intros Hm Hf w r w'. unfold mbind, M_bind.
  destruct (m w) as [[a|n|e] w1] eqn:Hmw.
  - intros Hfa. eapply quiet_trans; [eapply Hm | eapply Hf]; eauto.
  - intros [= <- <-]. eapply Hm; eauto.
  - intros [= <- <-]. eapply Hm; eauto.
Qed.

Lemma Quiet_emit config l (e : IOEvent) : Quiet config l (emit e).
Proof. intros w r w' [= <- <-]. now apply (quiet_logged config l w [Io e]). Qed.

Lemma Quiet_exit {A} config l n : Quiet config l (exit (A:=A) n).
Proof. intros w r w' [= <- <-]. apply quiet_refl. Qed.

Lemma Quiet_raise {A} config l e : Quiet config l (raise (A:=A) e).
Proof. intros w r w' [= <- <-]. apply quiet_refl. Qed.

Lemma Quiet_error_exit {A} config l msg :
  Quiet config l (error_exit (A:=A) msg).
Proof. apply Quiet_bind; [apply Quiet_emit|]. intros _. apply Quiet_exit. Qed.

Lemma Quiet_on_sharing {A} config action l (m : Eff A) :
  Quiet config l (on_sharing (sharing config action) l m).
Proof.
  intros w r w'. unfold on_sharing.
  destruct (m (heap w !!! l) (trace w)) as [[r0 c] out].
  intros [= <- <-]. repeat split; simpl.
  - intros l' Hl' Hc'. rewrite lookup_insert_ne by done.
    apply share_other. unfold sharing. congruence.
  - intros Hne. rewrite lookup_insert_ne by done.
    apply (share_same (sharing config action)).
  - rewrite dom_insert_L, dom_share. set_solver.
  - rewrite dom_insert_L, dom_share. set_solver.
  - exists (Io <$> out). split; [done|]. split; [apply constructions_io|].
    intros Hno Hne. rewrite lookup_insert_ne by done.
    rewrite (share_unshared (sharing config action)); [done|].
    now apply unshared_io.
Qed.

Lemma Quiet_call_verify config action l cls b :
  Quiet config l (call_verify cls (sharing config action) l b).
Proof.
  apply Quiet_bind; [|intros _; apply Quiet_on_sharing].
  intros w r w' [= <- <-]. now apply (quiet_logged config l w [EvVerify l]).
Qed.

Lemma Quiet_call_run config action l cls b :
  Quiet config l (call_run cls (sharing config action) l b).
Proof.
  apply Quiet_bind; [|intros _; apply Quiet_on_sharing].
  intros w r w' [= <- <-]. now apply (quiet_logged config l w [EvRun l]).
Qed.

Lemma Quiet_set config l k v : Quiet config l (BuildMeta.set k v).
Proof. intros w r w' [= <- <-]. repeat split; simpl; [set_solver..|].
  exists []. now rewrite app_nil_r. Qed.

Lemma Quiet_method {A} config l name (body : M A) :
  Quiet config l body → Quiet config l (BuildMeta.method name body).
Proof.
  intros Hbody w r w'. unfold BuildMeta.method.
  destruct (meta w !! name); [|apply Hbody].
  intros [= <- <-]. apply quiet_refl.
Qed.

Lemma Quiet_save_meta config l : Quiet config l BuildMeta.save_meta.
Proof.
  apply Quiet_method.
  intros w r w' [= <- <-]. repeat split; simpl; [set_solver..|].
  now exists [EvSaveMeta (meta w)].
Qed.

Lemma Quiet_meta_updates config action l cls b updates :
  Quiet config l (meta_updates cls (sharing config action) l b updates).
Proof.
  revert b. induction updates as [|[k v] updates IH]; intros b; simpl.
  - apply Quiet_ret.
  - apply Quiet_bind; [apply Quiet_on_sharing|]. intros [item b1].
    apply Quiet_bind; [|intros _; apply IH].
    destruct item as [[]|]; first [apply Quiet_ret | apply Quiet_set].
Qed.

Lemma Quiet_do_meta_updates config act l cls b action :
  Quiet config l (do_meta_updates cls (sharing config act) l b action).
Proof.
  unfold do_meta_updates. destruct (a_meta_updates action).
  - apply Quiet_bind; [apply Quiet_meta_updates|].
    intros _. apply Quiet_save_meta.
  - apply Quiet_ret.
Qed.

(** [build_kwargs] only reads the store. *)
Lemma build_kwargs_world action w : (build_kwargs action w).2 = w.
Proof.
  unfold build_kwargs, BuildMeta.collect_meta, BuildMeta.method. eff_unfold.
  destruct (a_meta action) as [keys|];
    [destruct (meta w !! "collect_meta"); [|destruct (BuildMeta.collect _ _)]|];
    destruct (a_args action); reflexivity.
Qed.

(** Splits a goal [Quiet config l m] along the structure of [m]. *)
Ltac quiet_step :=
  match goal with
  | |- Quiet _ _ (mbind _ _) => apply Quiet_bind; [|intros ?]
  | |- Quiet _ _ (mret _) => apply Quiet_ret
  | |- Quiet _ _ (print_warning _) => apply Quiet_emit
  | |- Quiet _ _ (error_exit _) => apply Quiet_error_exit
  | |- Quiet _ _ (call_verify _ _ _ _) => apply Quiet_call_verify
  | |- Quiet _ _ (call_run _ _ _ _) => apply Quiet_call_run
  | |- Quiet _ _ (do_meta_updates _ _ _ _ _) => apply Quiet_do_meta_updates
  | |- Quiet _ _ (if ?c then _ else _) => destruct c
  | |- Quiet _ _ (let '(_, _) := ?p in _) => destruct p
  end.

(** What [instantiate] does once the keyword arguments are collected: it
    clones the configuration into a new object, records the constructor
    call and runs the constructor, with these arguments, on the clone. *)
Lemma instantiate_eq config name cls action kwargs w :
  build_kwargs action w = (Ok kwargs, w) →
  instantiate config name cls action w
  = (b ← on_sharing (sharing config action) (fresh (dom (heap w)))
           (act_init cls kwargs);
     mret (fresh (dom (heap w)), b)) (cloned w config name kwargs).
Proof.
  intros Hkw. unfold instantiate. unfold mbind at 1, M_bind at 1.
  rewrite Hkw. unfold deepcopy, construct, read. eff_unfold.
  cbn [heap meta disk trace]. rewrite lookup_total_insert_eq.
  reflexivity.
Qed.

(** What [instantiate] does: nothing if the keyword arguments cannot be
    collected; otherwise it clones the configuration into a new object,
    records the constructor call and runs the constructor on the clone. *)
Lemma instantiate_frame config name cls action w r w1 :
  instantiate config name cls action w = (r, w1) →
  (w1 = w ∧ (∀ x, r ≠ Ok x) ∧ ∀ kwargs, build_kwargs action w ≠ (Ok kwargs, w))
  ∨ ∃ kwargs, build_kwargs action w = (Ok kwargs, w)
      ∧ quiet config (fresh (dom (heap w))) (cloned w config name kwargs) w1
      ∧ ∀ l b, r = Ok (l, b) → l = fresh (dom (heap w)).
Proof.
  pose proof (build_kwargs_world action w) as Hw.
  destruct (build_kwargs action w) as [[kwargs|n|e] w0] eqn:Hkw;
    simpl in Hw; subst w0.
  - rewrite (instantiate_eq _ _ _ _ _ _ Hkw). unfold mbind, M_bind.
    intros Hrest. right. exists kwargs. split; [done|].
    pose proof (Quiet_on_sharing config action (fresh (dom (heap w)))
                  (act_init cls kwargs) (cloned w config name kwargs)) as Hq.
    destruct (on_sharing _ _ _ _) as [[b|n|e] w2];
      injection Hrest as <- <-;
      (split; [eapply Hq; reflexivity|]); [|done..].
    now intros l b0 [= <- _].
  - unfold instantiate. unfold mbind at 1, M_bind at 1. rewrite Hkw.
    intros [= <- <-]. left. done.
  - unfold instantiate. unfold mbind at 1, M_bind at 1. rewrite Hkw.
    intros [= <- <-]. left. done.
Qed.

Lemma run_action_frame config step name cls w r w' :
  run_action config step name cls w = (r, w') →
  (w' = w ∧ ∀ kwargs, build_kwargs (s_action step) w ≠ (Ok kwargs, w))
  ∨ ∃ kwargs, build_kwargs (s_action step) w = (Ok kwargs, w)
      ∧ quiet config (fresh (dom (heap w))) (cloned w config name kwargs) w'.
Proof.
  unfold run_action. cbv zeta. unfold mbind at 1, M_bind at 1.
  destruct (instantiate _ _ _ _ _) as [[[l b]|n|e] w1] eqn:Hinst;
    apply instantiate_frame in Hinst
      as [(-> & Hno & Hfail) | (kwargs & Hkw & Hq & Hl)].
  - now destruct (Hno (l, b)).
  - specialize (Hl l b eq_refl). subst l. intros Htail.
    right. exists kwargs. split; [done|].
    eapply quiet_trans; [exact Hq|]. revert Htail.
    generalize w1 r w'.
    match goal with
    | |- ∀ w0 r0 w'0, ?m w0 = _ → _ =>
        change (Quiet config (fresh (dom (heap w))) m)
    end.
    repeat quiet_step.
  - intros [= <- <-]. now left.
  - intros [= <- <-]. right. eauto.
  - intros [= <- <-]. now left.
  - intros [= <- <-]. right. eauto.
Qed.

(** The loop body of an enabled step, by what its module resolves to. *)
Lemma run_step_enabled config step w :
  disabled step = false →
  run_step config step w =
    let module := a_module (s_action step) in
    match resolve module with
    | None => (Raise (ImportError module), announced step w)
    | Some None =>
        (Ok Continue,
         logged (announced step w)
           [Io (IoPrint PWarning
                  ("action class (" +:+ py_title (last_component module)
                   +:+ ") could not be found!"))])
    | Some (Some action_class) =>
        run_action config step (py_title (last_component module))
          action_class (announced step w)
    end.
Proof.
  intros Hon. unfold run_step. rewrite Hon. cbv zeta.
  destruct (resolve _) as [[cls|]|]; reflexivity.
Qed.

Lemma isolated_refl config w : isolated config w w.
Proof.
  split; [done|]. split; [done|]. split; [done|].
  exists []. rewrite app_nil_r.
  repeat split; [constructor | constructor].
Qed.

Lemma isolated_logged config w es :
  constructions es = [] → isolated config w (logged w es).
Proof.
  intros Hes. split; [done|]. split; [done|]. split; [done|].
  exists es. unfold snapshots. rewrite Hes.
  repeat split; constructor.
Qed.

Lemma isolated_trans config w1 w2 w3 :
  isolated config w1 w2 → isolated config w2 w3 → isolated config w1 w3.
Proof.
  intros (Hh1 & Hd1 & Hs1 & n1 & Ht1 & Hu1 & Hf1 & Hn1)
         (Hh2 & Hd2 & Hs2 & n2 & Ht2 & Hu2 & Hf2 & Hn2).
  split.
  { intros l Hl Hne. rewrite Hh2; [now apply Hh1|now apply Hd1|done]. }
  split; [now transitivity (dom (heap w2))|].
  split; [now rewrite Hs2, Hs1|].
  exists (n1 ++ n2). rewrite Ht2, Ht1, <- app_assoc. split; [done|].
  split.
  { intros [Hn1' Hn2']%unshared_app. rewrite Hu2, Hu1; done. }
  unfold snapshots. rewrite constructions_app, fmap_app. split.
  - apply Forall_app. split.
    + eapply Forall_impl; [exact Hf1|]. intros lc (? & ? & ?).
      repeat split; [done| now apply Hd2 | done].
    + eapply Forall_impl; [exact Hf2|]. intros lc (Hnew & ? & Hsame).
      repeat split; [|done|].
      * intros Hin. apply Hnew. now apply Hd1.
      * unfold same_but_script in *. rewrite Hsame.
        now apply same_script_total.
  - apply NoDup_app. repeat split; [done| |done].
    intros l Hl1 Hl2.
    apply list_elem_of_fmap in Hl1 as (lc1 & -> & Hlc1).
    apply list_elem_of_fmap in Hl2 as (lc2 & Heq & Hlc2).
    rewrite Forall_forall in Hf1, Hf2.
    destruct (Hf1 _ Hlc1) as (_ & Hin & _).
    destruct (Hf2 _ Hlc2) as (Hout & _). apply Hout. now rewrite <- Heq.
Qed.

Lemma run_action_isolated config step name cls w0 w r w' :
  config ∈ dom (heap w) →
  heap w0 = heap w →
  (∃ es, trace w0 = trace w ++ es ∧ constructions es = [] ∧ unshared es) →
  run_action config step name cls w0 = (r, w') → isolated config w w'.
Proof.
  intros Hc Hheap (es & Htr & Hes & Hues) Hrun.
  apply run_action_frame in Hrun as [[-> _] | (kwargs & _ & Hq)].
  - split; [now rewrite Hheap|]. split; [now rewrite Hheap|].
    split; [now rewrite Hheap|].
    exists es. unfold snapshots. rewrite Hes, Hheap.
    repeat split; [done | constructor | constructor].
  - destruct Hq as (Hold & Hsame & Hd & _ & new & Hnew & Hcn & Hun).
    unfold cloned in *. cbn [heap trace] in *. rewrite Hheap in *.
    set (l := fresh (dom (heap w))) in *.
    assert (Hl : l ∉ dom (heap w)) by apply is_fresh.
    assert (Hlc : l ≠ config) by (intros ->; done).
    rewrite lookup_insert_ne in Hsame by done.
    split.
    { intros i Hi Hne. rewrite Hold; [|intros ->; done|done].
      apply lookup_insert_ne. intros <-. done. }
    split.
    { etransitivity; [|exact Hd]. rewrite dom_insert_L. set_solver. }
    split; [now apply Hsame|].
    exists (es ++ [EvConstruct name l (heap w !!! config) kwargs] ++ new).
    rewrite Hnew, Htr, <- !app_assoc. split; [done|]. split.
    { intros Hn. apply unshared_app in Hn as [_ Hn].
      apply (unshared_app [_]) in Hn as [_ Hn].
      rewrite Hun by done. now apply lookup_insert_ne. }
    unfold snapshots. rewrite !constructions_app, Hes, Hcn. simpl. split.
    + constructor; [|constructor]. simpl. split; [done|split; [|done]].
      apply Hd. rewrite dom_insert_L. apply elem_of_union. left.
      now apply elem_of_singleton.
    + apply NoDup_singleton.
Qed.

Lemma run_step_isolated config step w r w' :
  config ∈ dom (heap w) →
  run_step config step w = (r, w') → isolated config w w'.
Proof.
  intros Hc. destruct (disabled step) eqn:Hd.
  - unfold run_step. rewrite Hd. intros [= <- <-]. apply isolated_refl.
  - rewrite run_step_enabled by done. cbv zeta.
    destruct (resolve _) as [[cls|]|].
    + apply run_action_isolated; [done|done|]. unfold announced, logged. simpl.
      eexists. rewrite <- app_assoc. split; [reflexivity|]. split; [done|].
      intros k v Hin. apply elem_of_cons in Hin as [Hin|Hin]; [done|].
      now apply list_elem_of_singleton in Hin.
    + intros [= <- <-]. unfold announced.
      eapply isolated_trans; [|now apply isolated_logged].
      eapply isolated_trans; [|now apply isolated_logged].
      now apply isolated_logged.
    + intros [= <- <-]. unfold announced.
      eapply isolated_trans; [|now apply isolated_logged].
      now apply isolated_logged.
Qed.

Lemma run_steps_isolated config steps w r w' :
  config ∈ dom (heap w) →
  run_steps config steps w = (r, w') → isolated config w w'.
Proof.
  revert w. induction steps as [|step rest IH]; intros w Hc; simpl.
  - intros [= <- <-]. apply isolated_refl.
  - unfold mbind, M_bind.
    destruct (run_step config step w) as [[[]|n|e] w1] eqn:Hstep;
      apply run_step_isolated in Hstep; try done.
    + intros Hrest. eapply isolated_trans; [exact Hstep|].
      apply IH; [|done]. destruct Hstep as (_ & Hsub & _).
      now apply Hsub.
    + now intros [= <- <-].
    + now intros [= <- <-].
    + now intros [= <- <-].
Qed.



(** A method of the instance that only returns or only raises leaves the
    world as it is. *)
Lemma on_sharing_pure {A} shared l (m : Eff A) (r : Result A) w :
  l ∈ dom (heap w) →
  (∀ c h, m c h = (r, c, [])) →
  on_sharing shared l m w = (r, w).
Proof.
  intros Hl Hm. unfold on_sharing. rewrite Hm. simpl.
  rewrite share_unshared by (intros k v Hin; now apply elem_of_nil in Hin).
  rewrite insert_id, app_nil_r; [now destruct w|].
  apply elem_of_dom in Hl as [c Hc]. now rewrite lookup_total_alt, Hc.
Qed.

Lemma meta_updates_eq cls shared l b attrs updates w :
  l ∈ dom (heap w) →
  plain_attributes cls b attrs updates →
  meta_updates cls shared l b updates w
  = (Ok tt, {| heap := heap w; meta := store_updates attrs updates (meta w);
               disk := disk w; trace := trace w |}).
Proof.
  revert w. induction updates as [|[k v] updates IH]; intros w Hl Hplain;
    simpl.
  - now destruct w.
  - unfold mbind at 1, M_bind at 1.
    rewrite (on_sharing_pure _ _ _ (Ok (attrs v, b)));
      [|done|apply (Hplain k v), list_elem_of_here].
    assert (Hrest : plain_attributes cls b attrs updates).
    { intros k' v' Hin. apply (Hplain k' v'). now apply list_elem_of_further. }
    unfold mbind, M_bind.
    destruct (attrs v) as [[]|]; simpl; rewrite IH by done; try done;
      now destruct w.
Qed.

(** The loop over the mappings [pre ++ post], once the attributes of
    [pre] are read. *)
Lemma meta_updates_app cls shared l b attrs pre post w :
  l ∈ dom (heap w) →
  plain_attributes cls b attrs pre →
  meta_updates cls shared l b (pre ++ post) w
  = meta_updates cls shared l b post
      {| heap := heap w; meta := store_updates attrs pre (meta w);
         disk := disk w; trace := trace w |}.
Proof.
  revert w. induction pre as [|[k v] pre IH]; intros w Hl Hplain; simpl.
  - now destruct w.
  - unfold mbind at 1, M_bind at 1.
    rewrite (on_sharing_pure _ _ _ (Ok (attrs v, b)));
      [|done|apply (Hplain k v), list_elem_of_here].
    assert (Hrest : plain_attributes cls b attrs pre).
    { intros k' v' Hin. apply (Hplain k' v'). now apply list_elem_of_further. }
    unfold mbind, M_bind.
    destruct (attrs v) as [[]|]; simpl; rewrite IH by done; try done;
      now destruct w.
Qed.

(** The loop body of an enabled step whose action is constructed, verified
    and run successfully: what is left are the meta updates. *)
Lemma run_step_ran config step cls w w1 w2 w3 snapshot
    (b b1 b2 : act_state cls) :
  let shared := sharing config (s_action step) in
  disabled step = false →
  resolve (a_module (s_action step)) = Some (Some cls) →
  instantiate config (py_title (last_component (a_module (s_action step))))
    cls (s_action step) (announced step w) = (Ok (snapshot, b), w1) →
  call_verify cls shared snapshot b w1 = (Ok ("", b1), w2) →
  call_run cls shared snapshot b1 w2 = (Ok (true, b2), w3) →
  snapshot ∈ dom (heap w3)
  ∧ run_step config step w
    = (do_meta_updates cls shared snapshot b2 (s_action step) ;;
       mret Continue) w3.
Proof.
  intros shared Hon Hres Hinst Hver Hrun. split.
  - pose proof Hinst as Hi.
    apply instantiate_frame in Hi
      as [(_ & Hno & _) | (kwargs & _ & Hq & Hfresh)];
      [now destruct (Hno (snapshot, b))|].
    rewrite (Hfresh _ _ eq_refl) in *.
    destruct Hq as (_ & _ & Hd1 & _).
    apply Quiet_call_verify in Hver as (_ & _ & Hd2 & _).
    apply Quiet_call_run in Hrun as (_ & _ & Hd3 & _).
    apply Hd3, Hd2, Hd1. unfold cloned. simpl. rewrite dom_insert_L.
    apply elem_of_union. left. now apply elem_of_singleton.
  - rewrite run_step_enabled by done. cbv zeta. rewrite Hres.
    unfold run_action. cbv zeta. fold shared.
    unfold mbind at 1, M_bind at 1. rewrite Hinst.
    unfold mbind at 1, M_bind at 1. rewrite Hver. simpl.
    unfold mbind at 1, M_bind at 1. now rewrite Hrun.
Qed.

Lemma store_updates_other attrs updates store k :
  k ∉ updates.*1 → store_updates attrs updates store !! k = store !! k.
Proof.
  revert store. induction updates as [|[k0 v] updates IH]; intros store;
    simpl; [done|].
  intros [Hne Hnin]%not_elem_of_cons. rewrite IH by done.
  destruct (attrs v) as [[]|]; try done;
    now rewrite lookup_insert_ne.
Qed.

Lemma store_updates_lookup attrs updates store k v :
  NoDup updates.*1 → (k, v) ∈ updates →
  store_updates attrs updates store !! k
  = match attrs v with
    | Some JNull | None => store !! k
    | Some x => Some x
    end.
Proof.
  revert store. induction updates as [|[k0 v0] updates IH]; intros store;
    simpl.
  - intros _ Hin. now apply elem_of_nil in Hin.
  - intros [Hnin Hnd]%NoDup_cons [Heq | Hin]%elem_of_cons.
    + injection Heq as <- <-. rewrite store_updates_other by done.
      destruct (attrs v) as [[]|]; try done; apply lookup_insert_eq.
    + rewrite IH by done.
      assert (Hne : k ≠ k0).
      { intros ->. apply Hnin. apply list_elem_of_fmap. now exists (k0, v). }
      destruct (attrs v) as [[]|]; try done;
        destruct (attrs v0) as [[]|]; try done;
        now rewrite lookup_insert_ne.
Qed.

End Frame.

(** ** Facts about the packaging action *)

Section PackageFacts.
Context `{Environment}.

Lemma verify_eq (self : Package.t) (c : ProjectConfig) (h : list Event) :
  Package.verify self c h =
    if negb (check_environment c h) then
      (Ok ("Environment is not ready for building or packaging!", self), c, [])
    else if negb (existsb (py_eq_str (Package.build_type self))
                          Package.valid_build_types) then
      (Ok ("", Package.set_build_type (JStr "standalone") self), c,
       [IoPrint PWarning (unrecognized_build_type self)])
    else (Ok ("", self), c, []).
Proof.
  unfold Package.verify. eff_unfold. cbn [fmap list_fmap].
  rewrite !app_nil_r. destruct (check_environment c h); [|reflexivity].
  cbn [negb]. now destruct (existsb _ _).
Qed.

Lemma tame_bind {A B} c P (Q : A → Prop) (R : B → Prop) (m : Eff A)
    (f : A → Eff B) :
  tame c P Q m → (∀ a, Q a → tame c P R (f a)) → tame c P R (m ≫= f).
Proof.
  intros Hm Hf h r c' out. unfold mbind, Eff_bind.
  destruct (m c h) as [[[a|n|e] c1] o1] eqn:Hmc;
    destruct (Hm _ _ _ _ Hmc) as (-> & Hl1 & Hq1).
  - destruct (f a c _) as [[r2 c2] o2] eqn:Hfa. intros [= <- <- <-].
    destruct (Hf a (Hq1 a eq_refl) _ _ _ _ Hfa) as (-> & Hl2 & Hq2).
    split; [done|]. split; [|done].
    intros exe args [Hin|Hin]%elem_of_app; eauto.
  - intros [= <- <- <-]. split; [done|]. split; [done|]. done.
  - intros [= <- <- <-]. split; [done|]. split; [done|]. done.
Qed.

Lemma tame_weaken {A} c P (Q Q' : A → Prop) m :
  tame c P Q m → (∀ a, Q a → Q' a) → tame c P Q' m.
Proof.
  intros Hm Hq h r c' out Hrun. destruct (Hm _ _ _ _ Hrun) as (? & ? & ?).
  eauto.
Qed.

Lemma tame_ret {A} c P (Q : A → Prop) (a : A) : Q a → tame c P Q (mret a).
Proof.
  intros Hq h r c' out [= <- <- <-]. split; [done|]. split.
  - intros exe args Hin. now apply elem_of_nil in Hin.
  - now intros a' [= <-].
Qed.

Lemma tame_get_config c P : tame c P (λ config, config = c) get_config.
Proof.
  intros h r c' out [= <- <- <-]. split; [done|]. split.
  - intros exe args Hin. now apply elem_of_nil in Hin.
  - now intros a' [= <-].
Qed.

Lemma tame_ask {A} c P (q : list Event → A) : tame c P (λ _, True) (ask q).
Proof.
  intros h r c' out [= <- <- <-]. split; [done|]. split; [|done].
  intros exe args Hin. now apply elem_of_nil in Hin.
Qed.

Lemma tame_emit c P (e : IOEvent) :
  (∀ exe args, e = IoLaunch exe args → P exe args) →
  tame c P (λ _, True) (emit e).
Proof.
  intros He h r c' out [= <- <- <-]. split; [done|]. split; [|done].
  intros exe args Hin. apply list_elem_of_singleton in Hin. eauto.
Qed.

Lemma tame_raise {A} c P (Q : A → Prop) e : tame c P Q (raise e).
Proof.
  intros h r c' out [= <- <- <-]. split; [done|]. split; [|done].
  intros exe args Hin. now apply elem_of_nil in Hin.
Qed.

Lemma tame_when c P (b : bool) (m : Eff unit) :
  tame c P (λ _, True) m → tame c P (λ _, True) (when b m).
Proof. intros Hm. destruct b; [done|]. now apply tame_ret. Qed.

Lemma tame_file_call c P (e : IOEvent) raises what :
  (∀ exe args, e ≠ IoLaunch exe args) →
  tame c P (λ _, True) (file_call e raises what).
Proof.
  intros He. unfold file_call.
  eapply tame_bind; [apply tame_emit; intros exe args Heq; now destruct (He exe args)|].
  intros _ _. eapply tame_bind; [apply tame_ask|]. intros failed _.
  apply tame_when, tame_raise.
Qed.

Lemma tame_verify c P (self : Package.t) :
  tame c P
    (λ '(err, self'),
       ∃ build_type, self' = Package.set_build_type build_type self)
    (Package.verify self).
Proof.
  intros h r c' out. rewrite verify_eq.
  assert (Hself : self = Package.set_build_type (Package.build_type self) self)
    by now destruct self.
  destruct (negb _); [|destruct (negb _)]; intros [= <- <- <-];
    (split; [done|]); (split; [|intros a [= <-]; eauto]);
    intros exe args Hin.
  - now apply elem_of_nil in Hin.
  - now apply list_elem_of_singleton in Hin.
  - now apply elem_of_nil in Hin.
Qed.

(** Splits a goal [tame c P (λ _, True) m] along the structure of [m]. *)
Ltac tame_step :=
  match goal with
  | |- tame _ _ _ (mbind _ (emit _)) =>
      eapply tame_bind; [apply tame_emit; intros ? ? [=] | intros ? _]
  | |- tame _ _ _ (mbind _ (print_action _)) =>
      eapply tame_bind; [apply tame_emit; intros ? ? [=] | intros ? _]
  | |- tame _ _ _ (mbind _ (secho _)) =>
      eapply tame_bind; [apply tame_emit; intros ? ? [=] | intros ? _]
  | |- tame _ _ _ (mbind _ (isfile _)) =>
      eapply tame_bind; [apply tame_ask | intros ? _]
  | |- tame _ _ _ (mbind _ (when _ _)) =>
      eapply tame_bind; [apply tame_when | intros ? _]
  | |- tame _ _ _ (mbind _ (makedirs_exist_ok _)) =>
      eapply tame_bind; [apply tame_file_call; intros ? ? [=] | intros ? _]
  | |- tame _ _ _ (unlink _) => apply tame_file_call; intros ? ? [=]
  | |- tame _ _ _ (rmtree _) => apply tame_file_call; intros ? ? [=]
  | |- tame _ _ _ (copyfile _ _) => apply tame_file_call; intros ? ? [=]
  | |- tame _ _ _ (emit _) => apply tame_emit; intros ? ? [=]
  | |- tame _ _ _ (print_action _) => apply tame_emit; intros ? ? [=]
  | |- tame _ _ _ (raise _) => apply tame_raise
  | |- tame _ _ _ (mret _) => now apply tame_ret
  | |- tame _ _ _ (if ?b then _ else _) => destruct b
  | |- tame _ _ _ (match ?v with JStr _ => _ | _ => _ end) => destruct v
  end.

(** The processes that [Package.run] launches are launched with the
    argument vector [cmd_args] of the instance, whose [build_type] and
    [error] may have been assigned by then. *)
Lemma run_launches (self : Package.t) (c : ProjectConfig) :
  tame c
    (λ exe args, ∃ build_type err,
       Package.cmd_args
         (Package.set_error err (Package.set_build_type build_type self)) c
       = Some args)
    (λ _, True)
    (Package.run self).
Proof.
  unfold Package.run. eapply tame_bind; [apply tame_verify|].
  intros [err self'] [build_type ->]. cbv zeta.
  destruct (negb _); [now apply tame_ret|].
  eapply tame_bind; [apply tame_get_config|]. intros config ->.
  unfold Package.clean_builds, Package.setup_blacklist.
  repeat tame_step.
  destruct (Package.cmd_args _ c) as [args|] eqn:Hargs; [|apply tame_raise].
  tame_step.
  eapply tame_bind with (Q := λ _, True).
  - unfold launch. eapply tame_bind; [|intros ? _; apply tame_ask].
    apply tame_emit. intros exe args' [= <- <-]. eauto.
  - intros code _. repeat tame_step.
Qed.

Lemma elem_of_opt (x : string) (flag : pyval) (arg : string) :
  x ∈ Package.opt flag arg ↔ truthy flag = true ∧ x = arg.
Proof.
  unfold Package.opt. destruct (truthy flag).
  - rewrite list_elem_of_singleton. tauto.
  - rewrite elem_of_nil. split; [done|]. now intros [? _].
Qed.

Lemma map_args_shape (self : Package.t) (m : list string) :
  Package.map_args self = Some m → m = [] ∨ ∃ joined, m = ["-map=" +:+ joined].
Proof.
  unfold Package.map_args. destruct (py_len _) as [n|]; [|done]. simpl.
  destruct (0 <? n)%nat; [|intros [= <-]; now left].
  destruct (py_iter_strs _) as [items|]; [|done]. simpl.
  intros [= <-]. right. eauto.
Qed.

Ltac in_list H :=
  repeat (apply elem_of_cons in H as [H|H]; [try discriminate H|]);
  try (now apply elem_of_nil in H).

Lemma base_args_no_flag (self : Package.t) (c : ProjectConfig) (x : string) :
  x ∈ stage_flags → x ∉ Package.base_args self c.
Proof.
  intros Hx Hin. unfold stage_flags in Hx. in_list Hx; subst x.
  all: unfold Package.base_args in Hin; in_list Hin.
Qed.

Ltac split_or H :=
  repeat match type of H with _ ∨ _ => destruct H as [H|H] end.

Lemma flag_in_args (self : Package.t) (c : ProjectConfig)
    (args : list string) (x : string) :
  Package.cmd_args self c = Some args →
  x ∈ stage_flags →
  x ∈ args
  ↔ (truthy (Package.build self) = true ∧ x = "-build")
    ∨ (truthy (Package.cook self) = true ∧ x = "-cook")
    ∨ (truthy (Package.package self) = true ∧ x = "-package")
    ∨ (truthy (Package.stage self) = true ∧ x = "-stage")
    ∨ (truthy (Package.archive self) = true ∧ x = "-archive")
    ∨ x ∈ (if clean c || truthy (Package.full_rebuild self)
           then ["-clean"] else ["-iterate"; "-iterativecooking"]).
Proof.
  unfold Package.cmd_args.
  destruct (Package.map_args self) as [m|] eqn:Hm; [|done].
  cbv [mbind option_bind]. intros Heq Hx. apply (inj Some) in Heq.
  subst args. apply map_args_shape in Hm.
  rewrite !elem_of_app, !elem_of_opt. split; [|tauto].
  intros Hin. split_or Hin.
  all: try tauto.
  - now apply base_args_no_flag in Hin.
  - exfalso. destruct (py_eq_str _ _); [|destruct (py_eq_str _ _)];
      in_list Hin; subst x; unfold stage_flags in Hx; in_list Hx.
  - exfalso. destruct Hin as [_ ->]. unfold stage_flags in Hx. in_list Hx.
  - exfalso. destruct (_ && _); in_list Hin; subst x.
    unfold stage_flags in Hx. in_list Hx.
  - exfalso. destruct Hin as [_ ->]. unfold stage_flags in Hx. in_list Hx.
  - exfalso. destruct Hin as [_ ->]. unfold stage_flags in Hx. in_list Hx.
  - exfalso. destruct Hin as [_ ->]. unfold stage_flags in Hx. in_list Hx.
  - exfalso. destruct Hin as [_ ->]. unfold stage_flags in Hx. in_list Hx.
  - exfalso. destruct Hm as [-> | [joined ->]]; in_list Hin; subst x.
    unfold stage_flags in Hx. in_list Hx.
  - exfalso. in_list Hin; subst x. unfold stage_flags in Hx. in_list Hx.
Qed.

(** The flags of the argument vector, by the attributes of the instance. *)
Lemma cmd_args_flags (self : Package.t) (c : ProjectConfig)
    (args : list string) :
  Package.cmd_args self c = Some args →
  ("-build" ∈ args ↔ truthy (Package.build self) = true)
  ∧ ("-cook" ∈ args ↔ truthy (Package.cook self) = true)
  ∧ ("-package" ∈ args ↔ truthy (Package.package self) = true)
  ∧ ("-stage" ∈ args ↔ truthy (Package.stage self) = true)
  ∧ ("-archive" ∈ args ↔ truthy (Package.archive self) = true)
  ∧ ("-clean" ∈ args
     ↔ clean c || truthy (Package.full_rebuild self) = true)
  ∧ ("-iterate" ∈ args
     ↔ clean c || truthy (Package.full_rebuild self) = false)
  ∧ ("-iterativecooking" ∈ args
     ↔ clean c || truthy (Package.full_rebuild self) = false).
Proof.
  intros Hargs.
  repeat split; intros Hin.
  all: try (apply (flag_in_args _ _ _ _ Hargs) in Hin;
            [|unfold stage_flags; solve [repeat constructor]];
            split_or Hin;
            try (destruct Hin as [Hin ?]; (done || discriminate));
            destruct (_ || _); in_list Hin; done).
  all: apply (flag_in_args _ _ _ _ Hargs);
         [unfold stage_flags; solve [repeat constructor]|].
  all: try rewrite Hin.
  all: try tauto.
  all: do 5 right; solve [repeat constructor].
Qed.

End PackageFacts.

Section Properties.
Context `{!Environment}.

(** ** Disabled steps *)

(** C5: a step with [enabled = false] is skipped with no effect at all: the
    loop body returns at once in the same world (nothing is imported,
    constructed, verified or run, nothing is printed or stored), and a step
    list runs exactly as the same list without that step. *)
Theorem disabled_step_is_skipped (config : loc) (pre post : list Step)
    (step : Step) (w : World) :
  s_enabled step = Some (JBool false) →
  run_step config step w = (Ok Continue, w)
  ∧ run_steps config (pre ++ step :: post) = run_steps config (pre ++ post).
Proof.
  intros Hoff.
  assert (Hd : disabled step = true) by (unfold disabled; now rewrite Hoff).
  split.
  - unfold run_step. now rewrite Hd.
  - induction pre as [|s pre IH]; simpl.
    + unfold run_step. now rewrite Hd.
    + now rewrite IH.
Qed.

(** ** The engine bootstrap *)

(** C7: with no engine path known, no git repository or no branch
    configured and no override path, [ensure_engine] ends the process with
    the error message as its only effect: the configuration is untouched
    and nothing is launched, synchronised or created. *)
Theorem ensure_engine_needs_a_source (c : ProjectConfig) (h : list Event) :
  UE4EnginePath c = "" →
  git_repo c = "" ∨ git_proj_branch c = "" →
  ensure_engine "" c h
  = (Exit 1, c,
     [IoPrint PError
        ("Static engine placement required for non-git pulled engine. "
         +:+ "You can specify a path using the -e param, or specify git configuration.")]).
Proof.
  intros Hpath Hgit.
  assert (Hpull : can_pull_engine c = false).
  { unfold can_pull_engine. destruct Hgit as [-> | ->]; simpl; [done|].
    now rewrite andb_false_r. }
  unfold ensure_engine, prepare_engine, locate_engine. eff_unfold.
  rewrite Hpull, Hpath. reflexivity.
Qed.

(** C8: when the editor is running, the dependency sync and the build-tool
    check are skipped: [sync_dependencies] returns at once with no effect,
    so [ensure_engine] ends as its preparation ended, successfully and with
    nothing launched after it. *)
Theorem ensure_engine_skips_sync_when_editor_runs (engine_override : string)
    (c c' : ProjectConfig) (h : list Event) (out : list IOEvent) :
  prepare_engine engine_override c h = (Ok tt, c', out) →
  editor_running c' = true →
  sync_dependencies c' (h ++ (Io <$> out)) = (Ok tt, c', [])
  ∧ ensure_engine engine_override c h = (Ok tt, c', out).
Proof.
  intros Hprep Hrun.
  assert (Hsync : ∀ h', sync_dependencies c' h' = (Ok tt, c', [])).
  { intros h'. unfold sync_dependencies. eff_unfold. now rewrite Hrun. }
  split; [apply Hsync|].
  unfold ensure_engine. unfold mbind at 1. unfold Eff_bind.
  rewrite Hprep, Hsync. now rewrite app_nil_r.
Qed.

(** ** Configuration snapshots *)


(** ** Keyword arguments *)


(** ** Unknown action classes *)

(** C1, as the code has it: an enabled step whose module imports but has
    no class of the title-cased name is skipped with a warning: no action
    is constructed, and the runner goes on with the remaining steps of the
    group.  A step whose module cannot be imported ends the run with the
    import error, before any construction. *)
Theorem unknown_class_is_skipped_with_a_warning (config : loc) (step : Step)
    (rest : list Step) (w : World) :
  disabled step = false →
  let module := a_module (s_action step) in
  let skipped :=
    logged (announced step w)
      [Io (IoPrint PWarning
             ("action class (" +:+ py_title (last_component module)
              +:+ ") could not be found!"))] in
  (resolve module = Some None →
     run_step config step w = (Ok Continue, skipped)
     ∧ run_steps config (step :: rest) w = run_steps config rest skipped)
  ∧ (resolve module = None →
     run_steps config (step :: rest) w
     = (Raise (ImportError module), announced step w)).
Proof.
  intros Hon module skipped. split; intros Hres.
  - assert (Hstep : run_step config step w = (Ok Continue, skipped)).
    { rewrite run_step_enabled by done. cbv zeta. fold module.
      now rewrite Hres. }
    split; [done|]. simpl. unfold mbind, M_bind. now rewrite Hstep.
  - simpl. unfold mbind, M_bind. rewrite run_step_enabled by done.
    cbv zeta. fold module. now rewrite Hres.
Qed.

(** ** Failing steps *)

(** C2: when a step fails (its [verify] returns a non-empty message, or
    its [run] returns failure) and the step has [allow_failure = true],
    the runner prints the message and a note as warnings and returns from
    [run_build_steps] without looking at the rest of the group; the
    process goes on: after a failure in [pre_build_steps] the group of the
    build type and [post_build_steps] run, after a failure in
    [package_steps] the group [post_build_steps] runs.  Without
    [allow_failure] the process exits with the message as a fatal error,
    and so does the whole build. *)
Theorem failure_policy (config : loc) (step : Step) (rest : list Step)
    (cls : ActionClass) (w wf : World) (msg note : string) :
  disabled step = false →
  resolve (a_module (s_action step)) = Some (Some cls) →
  fails config step cls w msg note wf →
  (allow_failure step = true →
     run_steps config (step :: rest) w = (Ok tt, warned wf msg note)
     ∧ ∀ sc group complain,
         script (heap w !!! config) = Some sc →
         sc !! group = Some (Group (step :: rest)) →
         run_build_steps config group complain w
         = (Ok tt, warned wf msg note)
         ∧ (group = "pre_build_steps" → ∀ buildtype,
              build_groups config buildtype w
              = (main_group config buildtype ;;
                 run_build_steps config "post_build_steps" false)
                  (warned wf msg note))
         ∧ (group = "package_steps" → ∀ w0,
              run_build_steps config "pre_build_steps" false w0 = (Ok tt, w) →
              build_groups config "Package" w0
              = run_build_steps config "post_build_steps" false
                  (warned wf msg note)))
  ∧ (allow_failure step = false →
     run_steps config (step :: rest) w
     = (Exit 1, logged wf [Io (IoPrint PError msg)])
     ∧ ∀ sc buildtype,
         script (heap w !!! config) = Some sc →
         sc !! "pre_build_steps" = Some (Group (step :: rest)) →
         build_groups config buildtype w
         = (Exit 1, logged wf [Io (IoPrint PError msg)])).
Proof.
  intros Hon Hres Hfails.
  assert (Hstep : run_step config step w
            = if allow_failure step then (Ok Return, warned wf msg note)
              else (Exit 1, logged wf [Io (IoPrint PError msg)])).
  { rewrite run_step_enabled by done. cbv zeta. rewrite Hres.
    unfold run_action. unfold mbind at 1, M_bind at 1.
    destruct Hfails as [snapshot b w1 err b1 w2 Hinst Hver Herr
                       |snapshot b w1 b1 w2 b2 w3 Hinst Hver Hrun];
      rewrite Hinst; unfold mbind at 1, M_bind at 1; rewrite Hver.
    - apply String.eqb_neq in Herr. rewrite Herr. simpl.
      now destruct (allow_failure step).
    - simpl. unfold mbind at 1, M_bind at 1. rewrite Hrun. simpl.
      now destruct (allow_failure step). }
  assert (Hsteps : run_steps config (step :: rest) w
            = if allow_failure step then (Ok tt, warned wf msg note)
              else (Exit 1, logged wf [Io (IoPrint PError msg)])).
  { simpl. unfold mbind, M_bind. rewrite Hstep.
    now destruct (allow_failure step). }
  assert (Hgroup : ∀ sc group complain,
            script (heap w !!! config) = Some sc →
            sc !! group = Some (Group (step :: rest)) →
            run_build_steps config group complain w
            = run_steps config (step :: rest) w).
  { intros sc group complain Hsc Hg. unfold run_build_steps, read.
    unfold mbind, M_bind. now rewrite Hsc, Hg. }
  split; intros Hallow; rewrite Hallow in Hsteps; (split; [done|]).
  - intros sc group complain Hsc Hg.
    assert (Hrun := Hgroup sc group complain Hsc Hg).
    rewrite Hsteps in Hrun. split; [done|]. split.
    + intros -> buildtype. unfold build_groups.
      unfold mbind at 1, M_bind at 1.
      now rewrite (Hgroup sc _ false Hsc Hg), Hsteps.
    + intros -> w0 Hpre. unfold build_groups.
      unfold mbind at 1, M_bind at 1. rewrite Hpre.
      unfold mbind at 1, M_bind at 1.
      assert (Hmain : main_group config "Package" w
                = (Ok tt, warned wf msg note)).
      { unfold main_group, read. unfold mbind at 1, M_bind at 1. simpl.
        unfold has_steps. rewrite Hsc, Hg.
        rewrite bool_decide_eq_true_2 by eauto.
        unfold mbind at 1, M_bind at 1. cbn [mret M_ret].
        now rewrite (Hgroup sc _ false Hsc Hg), Hsteps. }
      now rewrite Hmain.
  - intros sc buildtype Hsc Hg. unfold build_groups.
    unfold mbind at 1, M_bind at 1.
    now rewrite (Hgroup sc "pre_build_steps" false Hsc Hg), Hsteps.
Qed.

(** ** Meta updates *)

(** C6, as the code has it: when an enabled step's action verifies and
    runs successfully and the step declares [meta_updates], then for each
    mapping whose named output is an attribute of the action instance with
    a value other than [None] the store gets that value under the meta
    key; a mapping whose output is missing or [None] writes nothing, and
    the other entries of the store are as they were.  Right after the
    loop, before the next step, the store's [save_meta] is called: unless
    an entry of the store hides that method, the persisted snapshot then
    equals the store, the save is the last thing that happened, and the
    next step starts from that world. *)
Theorem meta_updates_are_stored_and_saved (config : loc) (step : Step)
    (rest : list Step) (cls : ActionClass) (w w1 w2 w3 : World)
    (snapshot : loc) (b b1 b2 : act_state cls)
    (updates : list (string * string)) (attrs : string → option pyval) :
  let shared := sharing config (s_action step) in
  disabled step = false →
  resolve (a_module (s_action step)) = Some (Some cls) →
  instantiate config (py_title (last_component (a_module (s_action step))))
    cls (s_action step) (announced step w) = (Ok (snapshot, b), w1) →
  call_verify cls shared snapshot b w1 = (Ok ("", b1), w2) →
  call_run cls shared snapshot b1 w2 = (Ok (true, b2), w3) →
  a_meta_updates (s_action step) = Some updates →
  NoDup updates.*1 →
  plain_attributes cls b2 attrs updates →
  let w' := {| heap := heap w3;
               meta := store_updates attrs updates (meta w3);
               disk := disk w3; trace := trace w3 |} in
  (∀ k v x, (k, v) ∈ updates → attrs v = Some x → x ≠ JNull →
            meta w' !! k = Some x)
  ∧ (∀ k v, (k, v) ∈ updates → attrs v = None ∨ attrs v = Some JNull →
            meta w' !! k = meta w3 !! k)
  ∧ (∀ k, k ∉ updates.*1 → meta w' !! k = meta w3 !! k)
  ∧ run_step config step w = (BuildMeta.save_meta ;; mret Continue) w'
  ∧ (meta w' !! "save_meta" = None →
     let w4 := {| heap := heap w3; meta := meta w'; disk := meta w';
                  trace := trace w3 ++ [EvSaveMeta (meta w')] |} in
     run_step config step w = (Ok Continue, w4)
     ∧ run_steps config (step :: rest) w = run_steps config rest w4).
Proof.
  intros shared Hon Hres Hinst Hver Hrun Hups Hnd Hplain w'.
  destruct (run_step_ran config step cls w w1 w2 w3 snapshot b b1 b2
              Hon Hres Hinst Hver Hrun) as [Hl Hran].
  assert (Hstep : run_step config step w
                  = (BuildMeta.save_meta ;; mret Continue) w').
  { rewrite Hran. unfold do_meta_updates. rewrite Hups.
    unfold mbind, M_bind. now rewrite (meta_updates_eq _ _ _ _ attrs). }
  split.
  { intros k v x Hin Hattr Hx. simpl.
    rewrite (store_updates_lookup _ _ _ k v) by done. rewrite Hattr.
    now destruct x. }
  split.
  { intros k v Hin Hattr. simpl.
    rewrite (store_updates_lookup _ _ _ k v) by done.
    now destruct Hattr as [-> | ->]. }
  split; [intros k Hk; simpl; now apply store_updates_other|].
  split; [done|].
  intros Hfree w4.
  assert (Hstep' : run_step config step w = (Ok Continue, w4)).
  { rewrite Hstep. unfold mbind, M_bind, BuildMeta.save_meta, BuildMeta.method.
    now rewrite Hfree. }
  split; [done|]. simpl. unfold mbind, M_bind. now rewrite Hstep'.
Qed.

(** ** The packaging action *)

(** C4, as the code has it: [Package.verify] returns an error message
    (empty for success), never ends the process or raises, and leaves the
    configuration as it is.  It leaves the instance as it is when the
    environment is not ready or [build_type] is one of the three valid
    types; otherwise it assigns [build_type = 'standalone'], the only
    attribute it ever changes, and prints a warning. *)
Theorem verify_changes_only_build_type (self : Package.t)
    (c : ProjectConfig) (h : list Event) :
  let valid := existsb (py_eq_str (Package.build_type self))
                       Package.valid_build_types in
  ∃ err self' out,
    Package.verify self c h = (Ok (err, self'), c, out)
    ∧ self' = Package.set_build_type (Package.build_type self') self
    ∧ (err = "" ↔ check_environment c h = true)
    ∧ (check_environment c h = false ∨ valid = true →
         self' = self ∧ out = [])
    ∧ (check_environment c h = true ∧ valid = false →
         Package.build_type self' = JStr "standalone"
         ∧ ∃ msg, out = [IoPrint PWarning msg]).
Proof.
  intros valid. rewrite verify_eq. fold valid.
  destruct (check_environment c h) eqn:Hready; cbn [negb].
  - destruct valid eqn:Hvalid; cbn [negb].
    + exists "", self, []. split; [reflexivity|].
      split; [now destruct self|]. split; [done|].
      split; [done|]. now intros [_ ?].
    + eexists "", _, _. split; [reflexivity|].
      split; [reflexivity|]. split; [done|]. split.
      * now intros [|].
      * intros _. split; [reflexivity|]. eauto.
  - eexists _, self, []. split; [reflexivity|].
    split; [now destruct self|]. split; [done|].
    split; [done|]. now intros [? _].
Qed.

(** C9: the argument vector of every process that [Package.run] launches
    has [-build], [-cook], [-package], [-stage], [-archive] exactly when the
    attribute of that name is true, [-clean] exactly when [config.clean] or
    [full_rebuild] is true, and [-iterate] and [-iterativecooking] exactly
    when neither is, so never the clean and the iterative flags together;
    and the five attributes are the keyword arguments of those names,
    [True] when absent. *)
Theorem package_flags_follow_toggles (self : Package.t)
    (c c' : ProjectConfig) (h : list Event) (r : Result (bool * Package.t))
    (out : list IOEvent) (exe : string) (args : list string) :
  Package.run self c h = (r, c', out) →
  IoLaunch exe args ∈ out →
  let clean_mode := clean c || truthy (Package.full_rebuild self) in
  ("-build" ∈ args ↔ truthy (Package.build self) = true)
  ∧ ("-cook" ∈ args ↔ truthy (Package.cook self) = true)
  ∧ ("-package" ∈ args ↔ truthy (Package.package self) = true)
  ∧ ("-stage" ∈ args ↔ truthy (Package.stage self) = true)
  ∧ ("-archive" ∈ args ↔ truthy (Package.archive self) = true)
  ∧ ("-clean" ∈ args ↔ clean_mode = true)
  ∧ ("-iterate" ∈ args ↔ clean_mode = false)
  ∧ ("-iterativecooking" ∈ args ↔ clean_mode = false)
  ∧ ¬ ("-clean" ∈ args ∧ ("-iterate" ∈ args ∨ "-iterativecooking" ∈ args))
  ∧ ∀ kwargs,
      Package.build (Package.init kwargs)
      = default (JBool true) (kwargs !! "build")
      ∧ Package.cook (Package.init kwargs)
        = default (JBool true) (kwargs !! "cook")
      ∧ Package.package (Package.init kwargs)
        = default (JBool true) (kwargs !! "package")
      ∧ Package.stage (Package.init kwargs)
        = default (JBool true) (kwargs !! "stage")
      ∧ Package.archive (Package.init kwargs)
        = default (JBool true) (kwargs !! "archive").
Proof.
  intros Hrun Hin clean_mode.
  destruct (run_launches self c h r c' out Hrun) as (_ & Hlaunch & _).
  destruct (Hlaunch exe args Hin) as (build_type & err & Hargs).
  apply cmd_args_flags in Hargs. cbn [Package.build Package.cook
    Package.package Package.stage Package.archive Package.full_rebuild
    Package.set_error Package.set_build_type] in Hargs.
  fold clean_mode in Hargs.
  destruct Hargs as (Hb & Hc & Hp & Hs & Ha & Hclean & Hit & Hitc).
  repeat (split; [assumption|]). split.
  - intros [Hcl [Hi|Hi]].
    + apply Hclean in Hcl. apply Hit in Hi. congruence.
    + apply Hclean in Hcl. apply Hitc in Hi. congruence.
  - intros kwargs. repeat split.
Qed.

End Properties.

(** * The properties on concrete runs *)

Lemma disabled_step_is_skipped_witness :
  run_step (H:=Demo.env) 0 Demo.off_step (Demo.world empty_config)
  = (Ok Continue, Demo.world empty_config)
  ∧ run_steps (H:=Demo.env) 0
      ([Demo.step "actions.good" None None] ++ Demo.off_step
         :: [Demo.step "actions.tamper" None None])
    = run_steps (H:=Demo.env) 0
        ([Demo.step "actions.good" None None]
           ++ [Demo.step "actions.tamper" None None]).
Proof.
  apply (disabled_step_is_skipped (H:=Demo.env)). reflexivity.
Defined.

Lemma ensure_engine_needs_a_source_witness :
  ensure_engine (H:=Demo.env) "" empty_config []
  = (Exit 1, empty_config,
     [IoPrint PError
        ("Static engine placement required for non-git pulled engine. "
         +:+ "You can specify a path using the -e param, or specify git configuration.")]).
Proof.
  apply (ensure_engine_needs_a_source (H:=Demo.env) empty_config []).
  - reflexivity.
  - left. reflexivity.
Defined.

Lemma ensure_engine_skips_sync_when_editor_runs_witness :
  sync_dependencies (H:=Demo.env) Demo.running_config ([] ++ (Io <$> []))
  = (Ok tt, Demo.running_config, [])
  ∧ ensure_engine (H:=Demo.env) "" Demo.running_config []
    = (Ok tt, Demo.running_config, []).
Proof.
  apply (ensure_engine_skips_sync_when_editor_runs (H:=Demo.env) ""
           Demo.running_config Demo.running_config [] []).
  - reflexivity.
  - reflexivity.
Defined.


(** The argument object is the script's own: after the run of
    [Lab.growing_steps] the list [maps] of the third step of the driver's
    script has the item that the action appended, and the second step's
    assignment to [clean] has not reached the driver. *)
Example shared_argument_reaches_the_script :
  let w' := (run_steps (H:=Demo.env) 0 Lab.growing_steps
               (Demo.world Lab.growing_config)).2 in
  (s ← script (heap w' !!! 0%nat); s !! "pre_build_steps")
  = Some (Group [Demo.step "actions.good" None None;
                 Lab.numbered 1 (Demo.step "actions.tamper" None None);
                 Lab.grower_step [JStr "Lobby"; JStr "Bonus"]])
  ∧ clean (heap w' !!! 0%nat) = false.
Proof. vm_compute. split; reflexivity. Qed.


(** A module without the class: the step is skipped with a warning and
    the next step runs. *)
Lemma unknown_class_is_skipped_with_a_warning_witness :
  let step := Demo.step "actions.empty" None None in
  let w := Demo.world empty_config in
  let skipped :=
    logged (announced step w)
      [Io (IoPrint PWarning "action class (Empty) could not be found!")] in
  run_step (H:=Demo.env) 0 step w = (Ok Continue, skipped)
  ∧ run_steps (H:=Demo.env) 0 [step; Demo.step "actions.good" None None] w
    = run_steps (H:=Demo.env) 0 [Demo.step "actions.good" None None] skipped.
Proof.
  intros step w skipped.
  destruct (unknown_class_is_skipped_with_a_warning (H:=Demo.env) 0 step
              [Demo.step "actions.good" None None] w eq_refl)
    as [Hskip _].
  apply Hskip. reflexivity.
Defined.

(** No fail-fast on an unknown class: the module [actions.empty] has no
    class [Empty], yet the run of the group returns normally, and the step
    after it is constructed on the snapshot 1, verified and run. *)
Lemma unknown_class_does_not_fail_fast :
  let steps := [Demo.step "actions.empty" None None;
                Demo.step "actions.good" None None] in
  let result := run_steps (H:=Demo.env) 0 steps (Demo.world empty_config) in
  resolve (H:=Demo.env) "actions.empty" = Some None
  ∧ result.1 = Ok tt
  ∧ trace result.2
    = [Io (IoPrint PAction "Performing Undescribed step");
       EvImport "actions.empty";
       Io (IoPrint PWarning "action class (Empty) could not be found!");
       Io (IoPrint PAction "Performing Undescribed step");
       EvImport "actions.good";
       EvConstruct "Good" 1 empty_config ∅;
       EvVerify 1; EvRun 1].
Proof. vm_compute. repeat split. Qed.

(** A step whose [verify] fails, with [allow_failure]: two warnings, the
    rest of the group is not looked at, the run returns normally. *)
Lemma failure_policy_witness :
  let step := Demo.step "actions.unverified" (Some (JBool true)) None in
  let w := Demo.world empty_config in
  ∃ wf,
    run_steps (H:=Demo.env) 0 [step; Demo.step "actions.good" None None] w
    = (Ok tt,
       warned wf "not ready"
         "Verification of this action failed. Skipping because of allow_failure flag.").
Proof.
  intros step w. eexists.
  refine (proj1 (proj1 (failure_policy (H:=Demo.env) 0 step
                          [Demo.step "actions.good" None None]
                          (Demo.fixed "not ready" true ∅) w _ _ _
                          eq_refl eq_refl _) eq_refl)).
  eapply fails_verify.
  - reflexivity.
  - reflexivity.
  - discriminate.
Defined.

(** Scenario A: one enabled step whose action succeeds, with
    [meta_updates = {"foo": "barAttr"}] and [barAttr = 42]: after the step
    the store and the persisted snapshot have [foo = 42]. *)
Lemma meta_updates_are_stored_and_saved_witness :
  let step := Demo.step "actions.good" None (Some [("foo", "barAttr")]) in
  ∃ w4,
    run_step (H:=Demo.env) 0 step (Demo.world empty_config)
    = (Ok Continue, w4)
    ∧ meta w4 !! "foo" = Some (JNum 42)
    ∧ disk w4 !! "foo" = Some (JNum 42).
Proof.
  intros step.
  set (cls := Demo.fixed "" true {[ "barAttr" := JNum 42 ]}).
  set (w1 := (instantiate 0 "Good" cls (s_action step)
                (announced step (Demo.world empty_config))).2).
  set (w2 := (call_verify cls (sharing 0 (s_action step)) 1 tt w1).2).
  set (w3 := (call_run cls (sharing 0 (s_action step)) 1 tt w2).2).
  destruct (meta_updates_are_stored_and_saved (H:=Demo.env) 0 step []
              cls (Demo.world empty_config) w1 w2 w3 1 tt tt tt
              [("foo", "barAttr")]
              (λ name, ({[ "barAttr" := JNum 42 ]} : gmap string pyval)
                         !! name))
    as (Hstore & _ & _ & _ & Hsave).
  - reflexivity.
  - reflexivity.
  - reflexivity.
  - reflexivity.
  - reflexivity.
  - reflexivity.
  - apply NoDup_singleton.
  - intros k v _ c h. reflexivity.
  - destruct (Hsave eq_refl) as [Hstep _]. eexists.
    split; [exact Hstep|].
    assert (Hfoo : ∀ x, x = JNum 42 → store_updates
              (λ name, ({[ "barAttr" := JNum 42 ]} : gmap string pyval)
                         !! name)
              [("foo", "barAttr")] ∅ !! "foo" = Some x).
    { intros x ->. reflexivity. }
    split; apply Hfoo; reflexivity.
Defined.

(** A mapping is configured, the step is enabled and its action runs
    successfully, but the instance has no attribute [missing]: nothing is
    written under [foo].  The same holds for an attribute that is [None]. *)
Lemma missing_output_is_not_stored :
  let step := Demo.step "actions.good" None
                (Some [("foo", "missing"); ("bar", "barAttr")]) in
  let result := run_step (H:=Demo.env) 0 step (Demo.world empty_config) in
  disabled step = false
  ∧ a_meta_updates (s_action step)
    = Some [("foo", "missing"); ("bar", "barAttr")]
  ∧ result.1 = Ok Continue
  ∧ meta result.2 !! "foo" = None
  ∧ meta result.2 !! "bar" = Some (JNum 42)
  ∧ disk result.2 = meta result.2.
Proof. vm_compute. repeat split. Qed.

(** [verify] does assign an attribute: on a freshly built [Package],
    whose [build_type] is the empty string, it returns the instance with
    [build_type] set to ['standalone']. *)
Lemma verify_assigns_build_type :
  (Package.verify (H:=Demo.env) (Package.init ∅) empty_config []).1.1
  = Ok ("", Package.set_build_type (JStr "standalone") (Package.init ∅))
  ∧ Package.build_type (Package.init ∅) = JStr ""
  ∧ Package.set_build_type (JStr "standalone") (Package.init ∅)
    ≠ Package.init ∅.
Proof.
  split; [reflexivity|]. split; [reflexivity|]. intros Heq.
  apply (f_equal Package.build_type) in Heq. discriminate Heq.
Qed.

(** A default [Package] with [cook] switched off, on an iterative build. *)
Lemma package_flags_follow_toggles_witness :
  let self := Package.init {[ "cook" := JBool false ]} in
  let args :=
    default [] (Package.cmd_args
                  (Package.set_build_type (JStr "standalone") self)
                  Demo.running_config) in
  IoLaunch "C:\UE4\RunUAT.bat" args
  ∈ (Package.run (H:=Demo.env) self Demo.running_config []).2
  ∧ "-build" ∈ args ∧ ¬ ("-cook" ∈ args) ∧ ¬ ("-clean" ∈ args)
  ∧ "-iterate" ∈ args.
Proof.
  intros self args.
  assert (Hin : IoLaunch "C:\UE4\RunUAT.bat" args
                ∈ (Package.run (H:=Demo.env) self Demo.running_config []).2).
  { vm_compute. repeat constructor. }
  split; [exact Hin|].
  destruct (package_flags_follow_toggles (H:=Demo.env) self
              Demo.running_config
              (Package.run (H:=Demo.env) self Demo.running_config []).1.2
              []
              (Package.run (H:=Demo.env) self Demo.running_config []).1.1
              (Package.run (H:=Demo.env) self Demo.running_config []).2
              "C:\UE4\RunUAT.bat" args)
    as (Hb & Hc & _ & _ & _ & Hcl & Hit & _).
  - reflexivity.
  - exact Hin.
  - split; [apply Hb; reflexivity|]. split; [|split].
    + intros Hcook. apply Hc in Hcook. discriminate Hcook.
    + intros Hclean. apply Hcl in Hclean. discriminate Hclean.
    + apply Hit. reflexivity.
Defined.

(** * Further properties of the step runner *)

Section StoreFacts.
Context `{!Environment}.

Lemma Always_bind {A B} (R : World → World → Prop) (m : M A) (f : A → M B) :
  (∀ w1 w2 w3, R w1 w2 → R w2 w3 → R w1 w3) →
  Always R m → (∀ a, Always R (f a)) → Always R (m ≫= f).
Proof.
  intros Htrans Hm Hf w r w'. unfold mbind, M_bind.
  destruct (m w) as [[a|n|e] w1] eqn:Hmw.
  - intros Hfa. eapply Htrans; [eapply Hm | eapply Hf]; eauto.
  - intros [= <- <-]. eapply Hm; eauto.
  - intros [= <- <-]. eapply Hm; eauto.
Qed.

Lemma same_store_refl w : same_store w w.
Proof. done. Qed.

Lemma same_store_trans w1 w2 w3 :
  same_store w1 w2 → same_store w2 w3 → same_store w1 w3.
Proof. intros [? ?] [? ?]. split; congruence. Qed.

Lemma Keeps_bind {A B} (m : M A) (f : A → M B) :
  Always same_store m → (∀ a, Always same_store (f a)) →
  Always same_store (m ≫= f).
Proof. apply Always_bind, same_store_trans. Qed.

Lemma Keeps_ret {A} (a : A) : Always same_store (mret a).
Proof. now intros w r w' [= <- <-]. Qed.

Lemma Keeps_log e : Always same_store (log e).
Proof. now intros w r w' [= <- <-]. Qed.

Lemma Keeps_emit (e : IOEvent) : Always same_store (emit e).
Proof. now intros w r w' [= <- <-]. Qed.

Lemma Keeps_exit {A} n : Always same_store (exit (A:=A) n).
Proof. now intros w r w' [= <- <-]. Qed.

Lemma Keeps_raise {A} e : Always same_store (raise (A:=A) e).
Proof. now intros w r w' [= <- <-]. Qed.

Lemma Keeps_read l : Always same_store (read l).
Proof. now intros w r w' [= <- <-]. Qed.

Lemma Keeps_deepcopy l : Always same_store (deepcopy l).
Proof. now intros w r w' [= <- <-]. Qed.

Lemma Keeps_on {A} l (m : Eff A) : Always same_store (on l m).
Proof.
  intros w r w'. unfold on.
  destruct (m (heap w !!! l) (trace w)) as [[r0 c] out].
  now intros [= <- <-].
Qed.

Lemma Keeps_on_sharing {A} shared l (m : Eff A) :
  Always same_store (on_sharing shared l m).
Proof.
  intros w r w'. unfold on_sharing.
  destruct (m (heap w !!! l) (trace w)) as [[r0 c] out].
  now intros [= <- <-].
Qed.

Lemma Keeps_error_exit {A} msg : Always same_store (error_exit (A:=A) msg).
Proof. apply Keeps_bind; [apply Keeps_emit|]. intros _. apply Keeps_exit. Qed.

Lemma Keeps_build_kwargs action : Always same_store (build_kwargs action).
Proof.
  intros w r w' Hrun. pose proof (build_kwargs_world action w) as Hw.
  rewrite Hrun in Hw. simpl in Hw. now subst w'.
Qed.

(** Splits a goal [Always same_store m] along the structure of [m]. *)
Ltac keeps_step :=
  match goal with
  | |- Always same_store (mbind _ _) => apply Keeps_bind; [|intros ?]
  | |- Always same_store (mret _) => apply Keeps_ret
  | |- Always same_store (log _) => apply Keeps_log
  | |- Always same_store (read _) => apply Keeps_read
  | |- Always same_store (deepcopy _) => apply Keeps_deepcopy
  | |- Always same_store (on _ _) => apply Keeps_on
  | |- Always same_store (on_sharing _ _ _) => apply Keeps_on_sharing
  | |- Always same_store (build_kwargs _) => apply Keeps_build_kwargs
  | |- Always same_store (print_warning _) => apply Keeps_emit
  | |- Always same_store (print_action _) => apply Keeps_emit
  | |- Always same_store (error_exit _) => apply Keeps_error_exit
  | |- Always same_store (raise _) => apply Keeps_raise
  | |- Always same_store (if ?c then _ else _) => destruct c
  | |- Always same_store (let '(_, _) := ?p in _) => destruct p
  end.

Lemma Keeps_instantiate config name cls action :
  Always same_store (instantiate config name cls action).
Proof. unfold instantiate, construct. repeat keeps_step. Qed.

Lemma Keeps_call_verify cls shared l b :
  Always same_store (call_verify cls shared l b).
Proof. unfold call_verify. repeat keeps_step. Qed.

Lemma Keeps_call_run cls shared l b :
  Always same_store (call_run cls shared l b).
Proof. unfold call_run. repeat keeps_step. Qed.

(** The meta updates of a step that end normally end with the store
    saved; when the step declares none, they change nothing. *)
Lemma do_meta_updates_store cls shared l b action w r w' :
  do_meta_updates cls shared l b action w = (r, w') →
  match a_meta_updates action with
  | Some _ => r = Ok tt → disk w' = meta w'
  | None => r = Ok tt ∧ same_store w w'
  end.
Proof.
  unfold do_meta_updates. destruct (a_meta_updates action) as [updates|].
  - unfold mbind, M_bind.
    destruct (meta_updates _ _ _ _ _ _) as [[[]|n|e] w1];
      [|now intros [= <- <-]..].
    unfold BuildMeta.save_meta, BuildMeta.method.
    destruct (meta w1 !! "save_meta"); now intros [= <- <-].
  - now intros [= <- <-].
Qed.

(** A step either leaves the store and its snapshot alone, or it got as
    far as its meta updates; if it then ran to its end, the store is
    saved. *)
Lemma run_action_store config step name cls w r w' :
  run_action config step name cls w = (r, w') →
  same_store w w'
  ∨ (is_Some (a_meta_updates (s_action step)) ∧ r ≠ Ok Return
     ∧ (r = Ok Continue → disk w' = meta w')).
Proof.
  unfold run_action. cbv zeta. unfold mbind at 1, M_bind at 1.
  destruct (instantiate _ _ _ _ _) as [[[l b]|n|e] w1] eqn:Hinst;
    apply Keeps_instantiate in Hinst;
    [|intros [= <- <-]; now left..].
  unfold mbind at 1, M_bind at 1.
  destruct (call_verify _ _ _ _ _) as [[[err b1]|n|e] w2] eqn:Hver;
    apply Keeps_call_verify in Hver;
    pose proof (same_store_trans _ _ _ Hinst Hver) as H2;
    [|intros [= <- <-]; now left..].
  destruct (negb (err =? "")%string).
  { intros Hrest. left. eapply same_store_trans; [exact H2|].
    revert Hrest. generalize w2 r w'.
    match goal with
    | |- ∀ w0 r0 w'0, ?m w0 = _ → _ => change (Always same_store m)
    end.
    repeat keeps_step. }
  unfold mbind at 1, M_bind at 1.
  destruct (call_run _ _ _ _ _) as [[[ok b2]|n|e] w3] eqn:Hrun;
    apply Keeps_call_run in Hrun;
    pose proof (same_store_trans _ _ _ H2 Hrun) as H3;
    [|intros [= <- <-]; now left..].
  destruct (negb ok).
  { intros Hrest. left. eapply same_store_trans; [exact H3|].
    revert Hrest. generalize w3 r w'.
    match goal with
    | |- ∀ w0 r0 w'0, ?m w0 = _ → _ => change (Always same_store m)
    end.
    repeat keeps_step. }
  unfold mbind, M_bind.
  destruct (do_meta_updates _ _ _ _ _ _) as [r4 w4] eqn:Hmeta.
  apply do_meta_updates_store in Hmeta.
  destruct (a_meta_updates (s_action step)) as [updates|].
  - intros Hr. right. split; [eauto|].
    destruct r4 as [[]|n|e]; injection Hr as <- <-;
      (split; [done|]); [auto|done..].
  - destruct Hmeta as [-> Hsame]. intros [= <- <-].
    left. now apply (same_store_trans _ _ _ H3).
Qed.

Lemma run_step_store config step w r w' :
  run_step config step w = (r, w') →
  same_store w w'
  ∨ (is_Some (a_meta_updates (s_action step)) ∧ r ≠ Ok Return
     ∧ (r = Ok Continue → disk w' = meta w')).
Proof.
  destruct (disabled step) eqn:Hd.
  - unfold run_step. rewrite Hd. intros [= <- <-]. now left.
  - rewrite run_step_enabled by done. cbv zeta.
    destruct (resolve _) as [[cls|]|].
    + intros Hrun. apply run_action_store in Hrun. exact Hrun.
    + intros [= <- <-]. now left.
    + intros [= <- <-]. now left.
Qed.

End StoreFacts.

Section MoreRunner.
Context `{!Environment}.

(** X2: a run of a step list that returns leaves no change of the store
    unsaved, with any actions: either the store and its persisted snapshot
    are both as they were, or the snapshot equals the store.  (No entry
    of the store hides its [save_meta].) *)
Theorem store_is_saved_when_changed (config : loc) (steps : list Step)
    (w w' : World) :
  run_steps config steps w = (Ok tt, w') →
  meta w' !! "save_meta" = None →
  same_store w w' ∨ disk w' = meta w'.
Proof.
  intros Hrun _. revert w Hrun.
  induction steps as [|step rest IH]; intros w; simpl.
  - intros [= <-]. now left.
  - unfold mbind, M_bind.
    destruct (run_step config step w) as [[[]|n|e] w1] eqn:Hstep;
      apply run_step_store in Hstep; [| |done..].
    + intros Hrest. apply IH in Hrest as [[Hm Hd]|Hsaved]; [|now right].
      destruct Hstep as [[Hm1 Hd1]|(_ & _ & Hsaved)].
      * left. split; congruence.
      * right. rewrite Hm, Hd. now apply Hsaved.
    + intros [= <-]. destruct Hstep as [?|(_ & ? & _)]; [now left|done].
Qed.

(** X3: a step list none of whose steps declares [meta_updates] leaves
    the store and its persisted snapshot as they were, whatever the
    actions do. *)
Theorem no_meta_updates_no_store_change (config : loc) (steps : list Step)
    (w w' : World) (r : Result unit) :
  Forall (λ step, a_meta_updates (s_action step) = None) steps →
  run_steps config steps w = (r, w') →
  meta w' = meta w ∧ disk w' = disk w.
Proof.
  intros Hnone. revert w.
  induction Hnone as [|step rest Hstep Hrest IH]; intros w; simpl.
  - now intros [= <- <-].
  - unfold mbind, M_bind.
    destruct (run_step config step w) as [[[]|n|e] w1] eqn:Hrun;
      apply run_step_store in Hrun as [Hsame|(Hsome & _)];
      try (rewrite Hstep in Hsome; now destruct Hsome).
    + intros Hrun. apply IH in Hrun. now apply (same_store_trans _ w1).
    + now intros [= <- <-].
    + now intros [= <- <-].
    + now intros [= <- <-].
Qed.

(** X4: a step that fails with [allow_failure], so that the runner
    returns from the group, leaves the store and its persisted snapshot as
    they were: nothing is written or saved before the action has run
    successfully. *)
Theorem unfinished_step_keeps_store (config : loc) (step : Step)
    (w w' : World) :
  run_step config step w = (Ok Return, w') →
  meta w' = meta w ∧ disk w' = disk w.
Proof.
  intros [Hsame|(_ & Hne & _)]%run_step_store; [exact Hsame|done].
Qed.

End MoreRunner.

(** ** The calls on action instances *)

Section ProtocolFacts.
Context `{!Environment}.

Lemma protocol_app (t1 t2 : list Event) :
  protocol (t1 ++ t2) = protocol t1 ++ protocol t2.
Proof. unfold protocol. apply omap_app. Qed.

Lemma protocol_io (out : list IOEvent) : protocol (Io <$> out) = [].
Proof. induction out as [|e out IH]; [done|]. simpl. exact IH. Qed.

Lemma traced_refl w : traced [] w w.
Proof. exists []. now rewrite app_nil_r. Qed.

Lemma traced_trans p q w1 w2 w3 :
  traced p w1 w2 → traced q w2 w3 → traced (p ++ q) w1 w3.
Proof.
  intros (n1 & Ht1 & Hp1) (n2 & Ht2 & Hp2). exists (n1 ++ n2).
  rewrite Ht2, Ht1, <- app_assoc, protocol_app, Hp1, Hp2. done.
Qed.

Lemma silent_trans w1 w2 w3 :
  traced [] w1 w2 → traced [] w2 w3 → traced [] w1 w3.
Proof. apply (traced_trans [] []). Qed.

Lemma Silent_bind {A B} (m : M A) (f : A → M B) :
  Always (traced []) m → (∀ a, Always (traced []) (f a)) →
  Always (traced []) (m ≫= f).
Proof. apply Always_bind, silent_trans. Qed.

Lemma Silent_ret {A} (a : A) : Always (traced []) (mret a).
Proof. intros w r w' [= <- <-]. apply traced_refl. Qed.

Lemma Silent_emit (e : IOEvent) : Always (traced []) (emit e).
Proof. intros w r w' [= <- <-]. now exists [Io e]. Qed.

Lemma Silent_exit {A} n : Always (traced []) (exit (A:=A) n).
Proof. intros w r w' [= <- <-]. apply traced_refl. Qed.

Lemma Silent_error_exit {A} msg : Always (traced []) (error_exit (A:=A) msg).
Proof. apply Silent_bind; [apply Silent_emit|]. intros _. apply Silent_exit. Qed.

Lemma Silent_on_sharing {A} shared l (m : Eff A) :
  Always (traced []) (on_sharing shared l m).
Proof.
  intros w r w'. unfold on_sharing.
  destruct (m (heap w !!! l) (trace w)) as [[r0 c] out].
  intros [= <- <-]. exists (Io <$> out). split; [done|]. apply protocol_io.
Qed.

Lemma Silent_set k v : Always (traced []) (BuildMeta.set k v).
Proof.
  intros w r w' [= <- <-]. exists []. simpl. now rewrite app_nil_r.
Qed.

Lemma Silent_meta_updates cls shared l b updates :
  Always (traced []) (meta_updates cls shared l b updates).
Proof.
  revert b. induction updates as [|[k v] updates IH]; intros b; simpl.
  - apply Silent_ret.
  - apply Silent_bind; [apply Silent_on_sharing|]. intros [item b1].
    apply Silent_bind; [|intros _; apply IH].
    destruct item as [[]|]; first [apply Silent_ret | apply Silent_set].
Qed.

Lemma Silent_save_meta : Always (traced []) BuildMeta.save_meta.
Proof.
  intros w r w'. unfold BuildMeta.save_meta, BuildMeta.method.
  destruct (meta w !! "save_meta"); intros [= <- <-];
    [apply traced_refl | now eexists [_]].
Qed.

Lemma Silent_do_meta_updates cls shared l b action :
  Always (traced []) (do_meta_updates cls shared l b action).
Proof.
  unfold do_meta_updates. destruct (a_meta_updates action) as [updates|].
  - apply Silent_bind; [apply Silent_meta_updates|].
    intros _. apply Silent_save_meta.
  - apply Silent_ret.
Qed.

Lemma call_verify_traced cls shared l b :
  Always (traced [(l, Verified)]) (call_verify cls shared l b).
Proof.
  intros w r w' Hrun. unfold call_verify in Hrun.
  unfold mbind, M_bind, log in Hrun.
  apply Silent_on_sharing in Hrun.
  eapply (traced_trans [(l, Verified)] []); [|exact Hrun].
  now exists [EvVerify l].
Qed.

Lemma call_run_traced cls shared l b :
  Always (traced [(l, Ran)]) (call_run cls shared l b).
Proof.
  intros w r w' Hrun. unfold call_run in Hrun.
  unfold mbind, M_bind, log in Hrun.
  apply Silent_on_sharing in Hrun.
  eapply (traced_trans [(l, Ran)] []); [|exact Hrun].
  now exists [EvRun l].
Qed.

(** Splits a goal [Always (traced []) m] along the structure of [m]. *)
Ltac silent_step :=
  match goal with
  | |- Always (traced []) (mbind _ _) => apply Silent_bind; [|intros ?]
  | |- Always (traced []) (mret _) => apply Silent_ret
  | |- Always (traced []) (print_warning _) => apply Silent_emit
  | |- Always (traced []) (error_exit _) => apply Silent_error_exit
  | |- Always (traced []) (do_meta_updates _ _ _ _ _) =>
      apply Silent_do_meta_updates
  | |- Always (traced []) (if ?c then _ else _) => destruct c
  end.

(** [instantiate] records the construction, on the new object, unless
    the keyword arguments cannot be collected. *)
Lemma instantiate_traced config name cls action w r w1 :
  instantiate config name cls action w = (r, w1) →
  let l0 := fresh (dom (heap w)) in
  (traced [] w w1 ∧ ∀ x, r ≠ Ok x)
  ∨ (traced [(l0, Constructed)] w w1 ∧ ∀ l b, r = Ok (l, b) → l = l0).
Proof.
  intros Hrun l0.
  pose proof (build_kwargs_world action w) as Hw.
  destruct (build_kwargs action w) as [[kwargs|n|e] w0] eqn:Hkw;
    simpl in Hw; subst w0.
  - right. rewrite (instantiate_eq _ _ _ _ _ _ Hkw) in Hrun. fold l0 in Hrun.
    unfold mbind, M_bind in Hrun.
    pose proof (Silent_on_sharing (sharing config action) l0
                  (act_init cls kwargs) (cloned w config name kwargs)) as Hq.
    destruct (on_sharing _ _ _ _) as [[b|n|e] w2];
      injection Hrun as <- <-; specialize (Hq _ _ eq_refl);
      (split;
       [apply (traced_trans [(l0, Constructed)] [] w
                 (cloned w config name kwargs)); [|exact Hq];
        now eexists [_]|]); [|done..].
    now intros l b0 [= <- _].
  - unfold instantiate in Hrun. unfold mbind at 1, M_bind at 1 in Hrun.
    rewrite Hkw in Hrun.
    injection Hrun as <- <-. left. split; [apply traced_refl|done].
  - unfold instantiate in Hrun. unfold mbind at 1, M_bind at 1 in Hrun.
    rewrite Hkw in Hrun.
    injection Hrun as <- <-. left. split; [apply traced_refl|done].
Qed.

(** The calls of one step: a prefix of construct, verify, run, all on the
    new object. *)
Lemma run_action_traced config step name cls w r w' :
  run_action config step name cls w = (r, w') →
  ∃ p, traced p w w'
       ∧ p `prefix_of` [(fresh (dom (heap w)), Constructed);
                        (fresh (dom (heap w)), Verified);
                        (fresh (dom (heap w)), Ran)].
Proof.
  set (l0 := fresh (dom (heap w))).
  unfold run_action. cbv zeta. unfold mbind at 1, M_bind at 1.
  destruct (instantiate _ _ _ _ _) as [[[l b]|n|e] w1] eqn:Hinst;
    apply instantiate_traced in Hinst; cbv zeta in Hinst; fold l0 in Hinst;
    destruct Hinst as [[H1 Hno]|[H1 Hl]].
  - now destruct (Hno (l, b)).
  - specialize (Hl l b eq_refl). subst l.
    unfold mbind at 1, M_bind at 1.
    destruct (call_verify _ _ _ _ _) as [[[err b1]|n|e] w2] eqn:Hver;
      apply call_verify_traced in Hver;
      pose proof (traced_trans _ _ _ _ _ H1 Hver) as H2; simpl in H2.
    + destruct (negb (err =? "")%string).
      { intros Hrest. exists [(l0, Constructed); (l0, Verified)].
        split; [|now exists [(l0, Ran)]].
        apply (traced_trans _ [] w w2 w') in H2; [exact H2|].
        revert Hrest. generalize w2 r w'.
        match goal with
        | |- ∀ w0 r0 w'0, ?m w0 = _ → _ => change (Always (traced []) m)
        end.
        repeat silent_step. }
      unfold mbind at 1, M_bind at 1.
      destruct (call_run _ _ _ _ _) as [[[ok b2]|n|e] w3] eqn:Hrun;
        apply call_run_traced in Hrun;
        pose proof (traced_trans _ _ _ _ _ H2 Hrun) as H3; simpl in H3.
      * intros Hrest. exists [(l0, Constructed); (l0, Verified); (l0, Ran)].
        split; [|done].
        apply (traced_trans _ [] w w3 w') in H3; [exact H3|].
        revert Hrest. generalize w3 r w'.
        match goal with
        | |- ∀ w0 r0 w'0, ?m w0 = _ → _ => change (Always (traced []) m)
        end.
        repeat silent_step.
      * intros [= <- <-]. eexists. split; [exact H3|done].
      * intros [= <- <-]. eexists. split; [exact H3|done].
    + intros [= <- <-]. eexists. split; [exact H2|]. now exists [(l0, Ran)].
    + intros [= <- <-]. eexists. split; [exact H2|]. now exists [(l0, Ran)].
  - intros [= <- <-]. eexists. split; [exact H1|]. apply prefix_nil.
  - intros [= <- <-]. eexists. split; [exact H1|]. now eexists [_; _].
  - intros [= <- <-]. eexists. split; [exact H1|]. apply prefix_nil.
  - intros [= <- <-]. eexists. split; [exact H1|]. now eexists [_; _].
Qed.

End ProtocolFacts.

Section OrderFacts.
Context `{!Environment}.

Lemma protocol_constructed (l : loc) (tr : list Event) :
  (l, Constructed) ∈ protocol tr → ∃ c, (l, c) ∈ constructions tr.
Proof.
  unfold protocol, constructions. intros (e & He & Hcall)%list_elem_of_omap.
  destruct e; try done. injection Hcall as ->.
  eexists. apply list_elem_of_omap. eexists. split; [exact He|done].
Qed.

Lemma calls_on_app l (t1 t2 : list Event) :
  calls_on l (t1 ++ t2) = calls_on l t1 ++ calls_on l t2.
Proof. unfold calls_on. now rewrite protocol_app, filter_app, fmap_app. Qed.

Lemma calls_on_nil l (tr : list Event) :
  Forall (λ x : loc * Call, x.1 ≠ l) (protocol tr) → calls_on l tr = [].
Proof.
  unfold calls_on. generalize (protocol tr). intros p.
  induction 1 as [|x p Hx Hp IH]; [done|].
  rewrite filter_cons_False by done. exact IH.
Qed.

Lemma calls_on_all l (tr : list Event) :
  Forall (λ x : loc * Call, x.1 = l) (protocol tr) →
  calls_on l tr = (protocol tr).*2.
Proof.
  unfold calls_on. generalize (protocol tr). intros p.
  induction 1 as [|x p Hx Hp IH]; [done|].
  rewrite filter_cons_True by done. rewrite !fmap_cons. now f_equal.
Qed.

Lemma orderly_refl w : orderly w w.
Proof.
  split; [done|]. exists []. rewrite app_nil_r. split; [done|].
  split; [constructor|]. intros l. apply prefix_nil.
Qed.

Lemma orderly_trans w1 w2 w3 : orderly w1 w2 → orderly w2 w3 → orderly w1 w3.
Proof.
  intros (Hd1 & n1 & Ht1 & Hf1 & Hc1) (Hd2 & n2 & Ht2 & Hf2 & Hc2).
  split; [now transitivity (dom (heap w2))|].
  exists (n1 ++ n2). rewrite Ht2, Ht1, <- app_assoc. split; [done|]. split.
  - rewrite protocol_app. apply Forall_app. split.
    + eapply Forall_impl; [exact Hf1|]. intros x [? ?].
      split; [done|]. now apply Hd2.
    + eapply Forall_impl; [exact Hf2|]. intros x [Hnew ?].
      split; [|done]. intros Hin. apply Hnew. now apply Hd1.
  - intros l. rewrite calls_on_app.
    destruct (decide (l ∈ dom (heap w2))) as [Hin|Hout].
    + rewrite (calls_on_nil l n2), app_nil_r; [apply Hc1|].
      eapply Forall_impl; [exact Hf2|]. intros x [Hnew _] Heq.
      now rewrite Heq in Hnew.
    + rewrite (calls_on_nil l n1); [apply Hc2|].
      eapply Forall_impl; [exact Hf1|]. intros x [_ Hold] Heq.
      now rewrite Heq in Hold.
Qed.

Lemma run_step_traced config step w r w' :
  run_step config step w = (r, w') →
  ∃ p, traced p w w'
       ∧ p `prefix_of` [(fresh (dom (heap w)), Constructed);
                        (fresh (dom (heap w)), Verified);
                        (fresh (dom (heap w)), Ran)].
Proof.
  destruct (disabled step) eqn:Hd.
  - unfold run_step. rewrite Hd. intros [= <- <-].
    exists []. split; [apply traced_refl|apply prefix_nil].
  - rewrite run_step_enabled by done. cbv zeta.
    assert (Hann : traced [] w (announced step w)).
    { unfold announced, logged. simpl. eexists. rewrite <- app_assoc.
      split; [reflexivity|done]. }
    destruct (resolve _) as [[cls|]|].
    + intros Hrun. apply run_action_traced in Hrun as (p & Hp & Hpre).
      exists p. split; [|exact Hpre].
      apply (traced_trans [] p _ _ _ Hann Hp).
    + intros [= <- <-]. exists []. split; [|apply prefix_nil].
      apply (traced_trans [] [] _ _ _ Hann). now eexists [_].
    + intros [= <- <-]. exists []. split; [exact Hann|apply prefix_nil].
Qed.

(** A step makes at most one new object, the one of its action. *)
Lemma run_step_dom config step w r w' :
  run_step config step w = (r, w') →
  dom (heap w) ⊆ dom (heap w')
  ∧ ∀ new lc, trace w' = trace w ++ new → lc ∈ constructions new →
      fresh (dom (heap w)) ∈ dom (heap w').
Proof.
  assert (Hsame : ∀ es lc, trace (logged w es) = trace w ++ [] →
                    lc ∈ constructions es → False).
  { intros es lc Htr. simpl in Htr. apply app_inv_head in Htr as ->.
    apply elem_of_nil. }
  destruct (disabled step) eqn:Hd.
  - unfold run_step. rewrite Hd. intros [= <- <-]. split; [done|].
    intros new lc Htr. rewrite <- (app_nil_r (trace w)) in Htr at 1.
    apply app_inv_head in Htr as <-. intros Hin. now apply elem_of_nil in Hin.
  - rewrite run_step_enabled by done. cbv zeta.
    destruct (resolve _) as [[cls|]|].
    + intros Hrun. apply run_action_frame in Hrun
        as [[-> _] | (kwargs & _ & Hq)].
      * split; [done|]. intros new lc Htr. unfold announced, logged in Htr.
        simpl in Htr. rewrite <- !app_assoc in Htr.
        apply app_inv_head in Htr as <-. intros Hin.
        now apply elem_of_nil in Hin.
      * destruct Hq as (_ & _ & Hdom & _). unfold cloned in Hdom.
        simpl in Hdom. rewrite dom_insert_L in Hdom.
        split; [set_solver|]. intros _ _ _ _. apply Hdom.
        apply elem_of_union. left. now apply elem_of_singleton.
    + intros [= <- <-]. split; [done|]. intros new lc Htr.
      unfold announced, logged in Htr. simpl in Htr.
      rewrite <- !app_assoc in Htr. apply app_inv_head in Htr as <-.
      intros Hin. now apply elem_of_nil in Hin.
    + intros [= <- <-]. split; [done|]. intros new lc Htr.
      unfold announced, logged in Htr. simpl in Htr.
      rewrite <- !app_assoc in Htr. apply app_inv_head in Htr as <-.
      intros Hin. now apply elem_of_nil in Hin.
Qed.

Lemma run_step_orderly config step w r w' :
  run_step config step w = (r, w') → orderly w w'.
Proof.
  intros Hrun. pose proof (run_step_dom _ _ _ _ _ Hrun) as (Hsub & Hcons).
  apply run_step_traced in Hrun as (p & (new & Htr & Hp) & Hpre).
  specialize (Hcons new).
  set (l0 := fresh (dom (heap w))) in *.
  assert (Hall : Forall (λ x : loc * Call, x.1 = l0) p).
  { destruct Hpre as [k Hk]. apply Forall_forall. intros x Hx.
    assert (Hin : x ∈ p ++ k) by (apply elem_of_app; now left).
    rewrite <- Hk in Hin. repeat (apply elem_of_cons in Hin as [->|Hin]; [done|]).
    now apply elem_of_nil in Hin. }
  split; [exact Hsub|]. exists new. split; [exact Htr|]. split.
  - rewrite Hp. apply Forall_forall. intros x Hx.
    rewrite Forall_forall in Hall. rewrite (Hall x Hx).
    split; [apply is_fresh|].
    assert (Hhead : (l0, Constructed) ∈ p).
    { destruct Hpre as [k Hk]. destruct p as [|y p]; [now apply elem_of_nil in Hx|].
      injection Hk as <- _. apply list_elem_of_here. }
    rewrite <- Hp in Hhead. apply protocol_constructed in Hhead as [c Hc].
    now apply (Hcons (l0, c)).
  - intros l. destruct (decide (l = l0)) as [->|Hne].
    + rewrite calls_on_all by now rewrite Hp. rewrite Hp.
      destruct Hpre as [k Hk]. exists (k.*2).
      rewrite <- fmap_app, <- Hk. done.
    + rewrite calls_on_nil; [apply prefix_nil|]. rewrite Hp.
      eapply Forall_impl; [exact Hall|]. intros x Hx Heq. congruence.
Qed.

Lemma run_steps_orderly config steps w r w' :
  run_steps config steps w = (r, w') → orderly w w'.
Proof.
  revert w. induction steps as [|step rest IH]; intros w; simpl.
  - intros [= <- <-]. apply orderly_refl.
  - unfold mbind, M_bind.
    destruct (run_step config step w) as [[[]|n|e] w1] eqn:Hstep;
      apply run_step_orderly in Hstep.
    + intros Hrest. eapply orderly_trans; [exact Hstep|]. now apply IH.
    + now intros [= <- <-].
    + now intros [= <- <-].
    + now intros [= <- <-].
Qed.

End OrderFacts.

Section MoreRunner2.
Context `{!Environment}.

(** X5: in a run of any step list, with any actions, every instance is
    called in the order construct, verify, run, each at most once: the
    calls on the instance of any object are a prefix of these three.  No
    instance is built on an object that existed before the run, so none
    on the driver's own configuration. *)
Theorem calls_follow_the_contract (config : loc) (steps : list Step)
    (w w' : World) (r : Result unit) :
  run_steps config steps w = (r, w') →
  ∃ new,
    trace w' = trace w ++ new
    ∧ ∀ l, calls_on l new `prefix_of` [Constructed; Verified; Ran]
           ∧ (l ∈ dom (heap w) → calls_on l new = []).
Proof.
  intros (Hsub & new & Htr & Hall & Hcalls)%run_steps_orderly.
  exists new. split; [exact Htr|]. intros l. split; [apply Hcalls|].
  intros Hl. apply calls_on_nil.
  eapply Forall_impl; [exact Hall|]. intros x [Hnew _] Heq.
  now rewrite Heq in Hnew.
Qed.

(** X1: [run_build_steps] on a name that is not a key of the script does
    nothing at all, or only prints its complaint when asked to; on a group
    all of whose steps are disabled it does nothing at all. *)
Theorem idle_groups_do_nothing (config : loc) (sc : Script)
    (steps_name : string) (complain : bool) (w : World) :
  script (heap w !!! config) = Some sc →
  (sc !! steps_name = None →
     run_build_steps config steps_name complain w
     = (Ok tt,
        if complain
        then logged w [Io (IoPrint PWarning
                             ("Could not find build step (" +:+ steps_name
                              +:+ ") for run_build_steps!"))]
        else w))
  ∧ (∀ steps,
       sc !! steps_name = Some (Group steps) →
       Forall (λ step, s_enabled step = Some (JBool false)) steps →
       run_build_steps config steps_name complain w = (Ok tt, w)).
Proof.
  intros Hsc. unfold run_build_steps, read. unfold mbind, M_bind.
  rewrite Hsc. split.
  - intros ->. now destruct complain.
  - intros steps ->. induction 1 as [|step rest Hoff _ IH]; [done|].
    simpl. unfold mbind, M_bind, run_step, disabled. rewrite Hoff.
    exact IH.
Qed.

End MoreRunner2.

(** * Further properties of the packaging action *)

Section PackageBehaviour.
Context `{!Environment}.

Lemma behaves_bind {A B} c E F (Q : A → Prop) (R : B → Prop) (m : Eff A)
    (f : A → Eff B) :
  behaves c E F Q m → (∀ a, Q a → behaves c E F R (f a)) →
  behaves c E F R (m ≫= f).
Proof.
  intros Hm Hf h r c' out. unfold mbind, Eff_bind.
  destruct (m c h) as [[[a|n|e] c1] o1] eqn:Hmc;
    destruct (Hm _ _ _ _ Hmc) as (-> & He1 & Hq1).
  - destruct (f a c _) as [[r2 c2] o2] eqn:Hfa. intros [= <- <- <-].
    destruct (Hf a Hq1 _ _ _ _ Hfa) as (-> & He2 & Hq2).
    split; [done|]. split; [|done]. now apply Forall_app.
  - done.
  - intros [= <- <- <-]. done.
Qed.

Lemma behaves_ret {A} c E F (Q : A → Prop) (a : A) :
  Q a → behaves c E F Q (mret a).
Proof. intros Hq h r c' out [= <- <- <-]. repeat split; [constructor|done]. Qed.

Lemma behaves_get_config c E F :
  behaves c E F (λ config, config = c) get_config.
Proof. intros h r c' out [= <- <- <-]. repeat split. constructor. Qed.

Lemma behaves_ask {A} c E F (q : list Event → A) :
  behaves c E F (λ _, True) (ask q).
Proof. intros h r c' out [= <- <- <-]. repeat split. constructor. Qed.

Lemma behaves_emit c (E : IOEvent → Prop) F (e : IOEvent) :
  E e → behaves c E F (λ _, True) (emit e).
Proof.
  intros He h r c' out [= <- <- <-]. repeat split. now constructor.
Qed.

Lemma behaves_raise {A} c E (F : PyExn → Prop) (Q : A → Prop) e :
  F e → behaves c E F Q (raise e).
Proof. intros Hf h r c' out [= <- <- <-]. repeat split; [constructor|done]. Qed.

Lemma behaves_when c E F (b : bool) (m : Eff unit) :
  (b = true → behaves c E F (λ _, True) m) →
  behaves c E F (λ _, True) (when b m).
Proof. intros Hm. destruct b; [now apply Hm|]. now apply behaves_ret. Qed.

Lemma behaves_file_call c (E : IOEvent → Prop) (F : PyExn → Prop)
    (e : IOEvent) raises what :
  E e → F (OSError what) →
  behaves c E F (λ _, True) (file_call e raises what).
Proof.
  intros He Hf. unfold file_call.
  eapply behaves_bind; [now apply behaves_emit|]. intros _ _.
  eapply behaves_bind; [apply behaves_ask|]. intros failed _.
  apply behaves_when. intros _. now apply behaves_raise.
Qed.

Lemma behaves_effects {A} c (E E' : IOEvent → Prop) F (Q : A → Prop) m :
  behaves c E F Q m → (∀ e, E e → E' e) → behaves c E' F Q m.
Proof.
  intros Hm HE h r c' out Hrun.
  destruct (Hm _ _ _ _ Hrun) as (? & Hall & ?).
  split; [done|]. split; [|done]. eapply Forall_impl; eauto.
Qed.

Lemma behaves_verify c (E : IOEvent → Prop) F (self : Package.t) :
  (∀ msg, E (IoPrint PWarning msg)) →
  behaves c E F (λ '(err, self'), verified self err self')
    (Package.verify self).
Proof.
  intros Hwarn h r c' out. rewrite verify_eq.
  destruct (negb (check_environment c h));
    [|destruct (negb _) eqn:Hvalid]; intros [= <- <- <-];
    (split; [done|]); (split; [repeat constructor; apply Hwarn|]).
  - now left.
  - right. apply negb_true_iff in Hvalid. done.
  - now left.
Qed.

(** [verify] does not change what the rest of [run] reads besides
    recognising the build type. *)
Lemma verified_client self err self' :
  verified self err self' →
  py_eq_str (Package.build_type self') "client"
  = py_eq_str (Package.build_type self) "client"
  ∧ py_eq_str (Package.build_type self') "server"
    = py_eq_str (Package.build_type self) "server"
  ∧ Package.content_black_list self' = Package.content_black_list self
  ∧ Package.maps self' = Package.maps self.
Proof.
  intros [->|(_ & Hinvalid & ->)]; [done|]. simpl.
  unfold Package.valid_build_types in Hinvalid. simpl in Hinvalid.
  apply orb_false_iff in Hinvalid as [_ Hinvalid].
  apply orb_false_iff in Hinvalid as [Hclient Hinvalid].
  apply orb_false_iff in Hinvalid as [Hserver _].
  now rewrite Hclient, Hserver.
Qed.

End PackageBehaviour.

Section PackageRun.
Context `{!Environment}.

(** Splits a goal [behaves c E F Q m] along the structure of [m]. *)
Ltac behaves_step :=
  match goal with
  | |- behaves _ _ _ _ (mbind _ _) => eapply behaves_bind; [|intros ? ?]
  | |- behaves _ _ _ _ (when _ _) => apply behaves_when; intros ?
  | |- behaves _ _ _ _ (emit _) => apply behaves_emit
  | |- behaves _ _ _ _ (print_action _) => apply behaves_emit
  | |- behaves _ _ _ _ (secho _) => apply behaves_emit
  | |- behaves _ _ _ _ (isfile _) => apply behaves_ask
  | |- behaves _ _ _ _ (ask _) => apply behaves_ask
  | |- behaves _ _ _ _ (unlink _) =>
      apply behaves_file_call; [|solve [eauto]]
  | |- behaves _ _ _ _ (rmtree _) =>
      apply behaves_file_call; [|solve [eauto]]
  | |- behaves _ _ _ _ (makedirs_exist_ok _) =>
      apply behaves_file_call; [|solve [eauto]]
  | |- behaves _ _ _ _ (copyfile _ _) =>
      apply behaves_file_call; [|solve [eauto]]
  | |- behaves _ _ _ _ (if ?b then _ else _) => destruct b eqn:?
  end.

Lemma run_behaves (self : Package.t) (c : ProjectConfig) :
  behaves c (package_effect self c)
    (λ e, (∃ what, e = TypeError what) ∨ (∃ what, e = OSError what))
    (λ '(ok, self'), ok = false ↔ Package.error self' ≠ "")
    (Package.run self).
Proof.
  unfold Package.run.
  eapply behaves_bind; [apply behaves_verify; now intros msg|].
  intros [err self'] Hver. cbv zeta. cbn [Package.error Package.set_error].
  destruct (verified_client _ _ _ Hver) as (Hclient & Hserver & Hlist & _).
  destruct (err =? "")%string eqn:Herr; cbn [negb].
  2: { apply behaves_ret. apply String.eqb_neq in Herr. done. }
  apply String.eqb_eq in Herr. subst err.
  eapply behaves_bind; [apply behaves_get_config|]. intros config ->.
  unfold Package.clean_builds, Package.setup_blacklist, launch.
  cbn [Package.build_type Package.content_black_list Package.set_error].
  rewrite Hclient, Hserver, Hlist.
  repeat behaves_step.
  all: try (cbn [package_effect]; unfold build_dir, blacklist_path;
            repeat match goal with
                   | H : negb _ = true |- _ => apply negb_true_iff in H
                   | H : _ = true |- _ => rewrite H
                   | H : _ = false |- _ => rewrite H
                   end; done).
  - destruct (Package.content_black_list self) as [| | |name| | |] eqn:Hname;
      try (apply behaves_raise; eauto).
    behaves_step. cbn [package_effect]. exists name.
    repeat split; try done.
    intros ->. simpl in *. done.
  - destruct (Package.cmd_args _ c) as [args|];
      [|apply behaves_raise; eauto].
    repeat behaves_step; try done.
    + apply behaves_ret. split; [|done]. intros _. simpl.
      destruct (uproject_name c); discriminate.
    + apply behaves_ret. simpl. split; [done|]. now intros [].
Qed.

(** X6: when [Package.run] returns, it returns [False] exactly when it
    leaves a non-empty [error] on the instance. *)
Theorem run_fails_with_an_error (self self' : Package.t)
    (c c' : ProjectConfig) (h : list Event) (ok : bool)
    (out : list IOEvent) :
  Package.run self c h = (Ok (ok, self'), c', out) →
  ok = false ↔ Package.error self' ≠ "".
Proof.
  intros Hrun. now destruct (run_behaves self c h _ _ _ Hrun) as (_ & _ & ?).
Qed.


(** X7: when the environment is not ready [Package.run] returns [False]
    with the message of [verify] as its [error] and has no effect at all:
    nothing is printed, removed or launched. *)
Theorem run_stops_when_not_ready (self : Package.t) (c : ProjectConfig)
    (h : list Event) :
  check_environment c h = false →
  Package.run self c h
  = (Ok (false,
         Package.set_error
           "Environment is not ready for building or packaging!" self),
     c, []).
Proof.
  intros Hready. unfold Package.run. unfold mbind at 1, Eff_bind.
  rewrite verify_eq, Hready. reflexivity.
Qed.




End PackageRun.

(** ** The other flags of the argument vector *)

Section PackageFlags.
Context `{!Environment}.

Ltac in_list H :=
  repeat (apply elem_of_cons in H as [H|H]; [try discriminate H|]);
  try (now apply elem_of_nil in H).

Ltac split_or H :=
  repeat match type of H with _ ∨ _ => destruct H as [H|H] end.

Ltac behaves_step :=
  match goal with
  | |- behaves _ _ _ _ (mbind _ _) => eapply behaves_bind; [|intros ? ?]
  | |- behaves _ _ _ _ (when _ _) => apply behaves_when; intros ?
  | |- behaves _ _ _ _ (emit _) => apply behaves_emit
  | |- behaves _ _ _ _ (print_action _) => apply behaves_emit
  | |- behaves _ _ _ _ (secho _) => apply behaves_emit
  | |- behaves _ _ _ _ (isfile _) => apply behaves_ask
  | |- behaves _ _ _ _ (ask _) => apply behaves_ask
  | |- behaves _ _ _ _ (unlink _) => now apply behaves_file_call
  | |- behaves _ _ _ _ (rmtree _) => now apply behaves_file_call
  | |- behaves _ _ _ _ (makedirs_exist_ok _) => now apply behaves_file_call
  | |- behaves _ _ _ _ (copyfile _ _) => now apply behaves_file_call
  | |- behaves _ _ _ _ (raise _) => now apply behaves_raise
  | |- behaves _ _ _ _ (mret _) => now apply behaves_ret
  | |- behaves _ _ _ _ (if ?b then _ else _) => destruct b eqn:?
  | |- behaves _ _ _ _ (match ?v with JStr _ => _ | _ => _ end) =>
      destruct v
  | |- behaves _ _ _ _ (match ?v with Some _ => _ | None => _ end) =>
      destruct v eqn:?
  end.

Lemma run_launch_args (self : Package.t) (c : ProjectConfig) :
  behaves c (launch_effect self c) (λ _, True)
    (λ _ : bool * Package.t, True) (Package.run self).
Proof.
  unfold Package.run.
  eapply behaves_bind; [apply behaves_verify; now intros msg|].
  intros [err self'] Hver. cbv zeta. cbn [Package.error Package.set_error].
  destruct (err =? "")%string eqn:Herr; cbn [negb];
    [|now apply behaves_ret].
  apply String.eqb_eq in Herr. subst err.
  eapply behaves_bind; [apply behaves_get_config|]. intros config ->.
  unfold Package.clean_builds, Package.setup_blacklist, launch.
  repeat behaves_step; try done.
  cbn [launch_effect]. eauto.
Qed.

Lemma py_eq_str_spec (v : pyval) (s : string) :
  py_eq_str v s = true ↔ v = JStr s.
Proof.
  destruct v; simpl; try (split; [discriminate|intros [=]]).
  rewrite String.eqb_eq. split; [now intros ->|now intros [= ->]].
Qed.

Lemma base_args_no_option (self : Package.t) (c : ProjectConfig)
    (x : string) :
  x ∈ option_flags → x ∉ Package.base_args self c.
Proof.
  intros Hx Hin. unfold option_flags in Hx. in_list Hx; subst x.
  all: unfold Package.base_args in Hin; in_list Hin.
Qed.

Lemma option_flag_in_args (self : Package.t) (c : ProjectConfig)
    (args : list string) (x : string) :
  Package.cmd_args self c = Some args →
  x ∈ option_flags →
  x ∈ args
  ↔ x ∈ (if py_eq_str (Package.build_type self) "client" then ["-client"]
         else if py_eq_str (Package.build_type self) "server"
              then ["-server"; "-noclient"] else [])
    ∨ (truthy (Package.nativize_assets self) = true ∧ x = "-nativizeAssets")
    ∨ x ∈ (if truthy (Package.pak_assets self)
              && truthy (Package.stage self)
           then ["-pak"] else [])
    ∨ (truthy (Package.compressed_assets self) = true ∧ x = "-compressed")
    ∨ (truthy (Package.no_debug_info self) = true ∧ x = "-nodebuginfo")
    ∨ (truthy (Package.no_editor_content self) = true
       ∧ x = "-SkipCookingEditorContent")
    ∨ (truthy (Package.ignore_cook_errors self) = true
       ∧ x = "-IgnoreCookErrors")
    ∨ x ∈ ["-compile"].
Proof.
  unfold Package.cmd_args.
  destruct (Package.map_args self) as [m|] eqn:Hm; [|done].
  cbv [mbind option_bind]. intros Heq Hx. apply (inj Some) in Heq.
  subst args. apply map_args_shape in Hm.
  rewrite !elem_of_app, !elem_of_opt. split; [|tauto].
  intros Hin. split_or Hin.
  all: try tauto.
  - now apply base_args_no_option in Hin.
  - exfalso. destruct Hin as [_ ->]. unfold option_flags in Hx. in_list Hx.
  - exfalso. destruct Hin as [_ ->]. unfold option_flags in Hx. in_list Hx.
  - exfalso. destruct Hin as [_ ->]. unfold option_flags in Hx. in_list Hx.
  - exfalso. destruct Hin as [_ ->]. unfold option_flags in Hx. in_list Hx.
  - exfalso. destruct Hin as [_ ->]. unfold option_flags in Hx. in_list Hx.
  - exfalso. destruct Hm as [-> | [joined ->]]; in_list Hin; subst x.
    unfold option_flags in Hx. in_list Hx.
  - exfalso. destruct (_ || _); in_list Hin; subst x;
      unfold option_flags in Hx; in_list Hx.
Qed.

Lemma cmd_args_options (self : Package.t) (c : ProjectConfig)
    (args : list string) :
  Package.cmd_args self c = Some args →
  ("-client" ∈ args ↔ py_eq_str (Package.build_type self) "client" = true)
  ∧ ("-server" ∈ args
     ↔ py_eq_str (Package.build_type self) "server" = true)
  ∧ ("-noclient" ∈ args
     ↔ py_eq_str (Package.build_type self) "server" = true)
  ∧ ("-nativizeAssets" ∈ args
     ↔ truthy (Package.nativize_assets self) = true)
  ∧ ("-pak" ∈ args
     ↔ truthy (Package.pak_assets self) && truthy (Package.stage self)
       = true)
  ∧ ("-compressed" ∈ args ↔ truthy (Package.compressed_assets self) = true)
  ∧ ("-nodebuginfo" ∈ args ↔ truthy (Package.no_debug_info self) = true)
  ∧ ("-SkipCookingEditorContent" ∈ args
     ↔ truthy (Package.no_editor_content self) = true)
  ∧ ("-IgnoreCookErrors" ∈ args
     ↔ truthy (Package.ignore_cook_errors self) = true)
  ∧ "-compile" ∈ args.
Proof.
  intros Hargs.
  assert (Hclient : py_eq_str (Package.build_type self) "client" = true →
                    py_eq_str (Package.build_type self) "server" = false).
  { intros ->%py_eq_str_spec. done. }
  repeat split; try intros Hin.
  all: try (apply (option_flag_in_args _ _ _ _ Hargs) in Hin;
            [|unfold option_flags; solve [repeat constructor]];
            split_or Hin;
            try (destruct Hin as [Hin ?]; (done || discriminate));
            repeat match type of Hin with
                   | context [if ?b then _ else _] => destruct b eqn:?
                   end; in_list Hin; done).
  all: apply (option_flag_in_args _ _ _ _ Hargs);
         [unfold option_flags; solve [repeat constructor]|].
  all: try tauto.
  all: try (rewrite Hin; left; solve [repeat constructor]).
  all: try (rewrite Hin; do 2 right; left; solve [repeat constructor]).
  all: try (do 7 right; solve [repeat constructor]).
  all: destruct (py_eq_str (Package.build_type self) "client") eqn:Hc;
    [now rewrite (Hclient eq_refl) in Hin |].
  all: rewrite Hin; left; solve [repeat constructor].
Qed.

Lemma verified_options self err self' :
  verified self err self' →
  Package.nativize_assets self' = Package.nativize_assets self
  ∧ Package.pak_assets self' = Package.pak_assets self
  ∧ Package.stage self' = Package.stage self
  ∧ Package.compressed_assets self' = Package.compressed_assets self
  ∧ Package.no_debug_info self' = Package.no_debug_info self
  ∧ Package.no_editor_content self' = Package.no_editor_content self
  ∧ Package.ignore_cook_errors self' = Package.ignore_cook_errors self.
Proof. intros [->|(_ & _ & ->)]; done. Qed.

(** X9: the argument vector of every process that [Package.run] launches
    has [-client] exactly when the instance's build type is ['client'],
    [-server] and [-noclient] exactly when it is ['server'], [-pak]
    exactly when [pak_assets] and [stage] are both true, each of
    [-nativizeAssets], [-compressed], [-nodebuginfo],
    [-SkipCookingEditorContent] and [-IgnoreCookErrors] exactly when the
    attribute of that option is true, and always [-compile]. *)
Theorem launched_options (self : Package.t) (c c' : ProjectConfig)
    (h : list Event) (r : Result (bool * Package.t))
    (out : list IOEvent) (exe : string) (args : list string) :
  Package.run self c h = (r, c', out) →
  IoLaunch exe args ∈ out →
  ("-client" ∈ args ↔ Package.build_type self = JStr "client")
  ∧ ("-server" ∈ args ↔ Package.build_type self = JStr "server")
  ∧ ("-noclient" ∈ args ↔ Package.build_type self = JStr "server")
  ∧ ("-nativizeAssets" ∈ args
     ↔ truthy (Package.nativize_assets self) = true)
  ∧ ("-pak" ∈ args
     ↔ truthy (Package.pak_assets self) && truthy (Package.stage self)
       = true)
  ∧ ("-compressed" ∈ args ↔ truthy (Package.compressed_assets self) = true)
  ∧ ("-nodebuginfo" ∈ args ↔ truthy (Package.no_debug_info self) = true)
  ∧ ("-SkipCookingEditorContent" ∈ args
     ↔ truthy (Package.no_editor_content self) = true)
  ∧ ("-IgnoreCookErrors" ∈ args
     ↔ truthy (Package.ignore_cook_errors self) = true)
  ∧ "-compile" ∈ args.
Proof.
  intros Hrun Hin.
  destruct (run_launch_args self c h _ _ _ Hrun) as (_ & Hall & _).
  rewrite Forall_forall in Hall.
  destruct (Hall _ Hin) as (self' & Hver & Hargs).
  apply cmd_args_options in Hargs.
  cbn [Package.build_type Package.nativize_assets Package.pak_assets
       Package.stage Package.compressed_assets Package.no_debug_info
       Package.no_editor_content Package.ignore_cook_errors
       Package.set_error] in Hargs.
  destruct (verified_client _ _ _ Hver) as (Hclient & Hserver & _ & _).
  destruct (verified_options _ _ _ Hver)
    as (Hn & Hp & Hs & Hco & Hd & He & Hi).
  rewrite Hclient, Hserver, Hn, Hp, Hs, Hco, Hd, He, Hi in Hargs.
  rewrite !py_eq_str_spec in Hargs. exact Hargs.
Qed.

Lemma map_in_args (self : Package.t) (c : ProjectConfig)
    (args m : list string) (x : string) :
  Package.map_args self = Some m →
  Package.cmd_args self c = Some args →
  "-map=" +:+ x ∈ args ↔ "-map=" +:+ x ∈ m.
Proof.
  unfold Package.cmd_args. intros Hm. rewrite Hm.
  cbv [mbind option_bind]. intros Heq. apply (inj Some) in Heq.
  subst args. rewrite !elem_of_app, !elem_of_opt. split; [|tauto].
  intros Hin. split_or Hin.
  all: try done.
  - exfalso. unfold Package.base_args in Hin. in_list Hin.
  - destruct Hin as [_ Hin]. discriminate Hin.
  - destruct Hin as [_ Hin]. discriminate Hin.
  - destruct Hin as [_ Hin]. discriminate Hin.
  - destruct Hin as [_ Hin]. discriminate Hin.
  - destruct Hin as [_ Hin]. discriminate Hin.
  - exfalso. destruct (py_eq_str _ _); [|destruct (py_eq_str _ _)];
      in_list Hin.
  - destruct Hin as [_ Hin]. discriminate Hin.
  - exfalso. destruct (_ && _); in_list Hin.
  - destruct Hin as [_ Hin]. discriminate Hin.
  - destruct Hin as [_ Hin]. discriminate Hin.
  - destruct Hin as [_ Hin]. discriminate Hin.
  - destruct Hin as [_ Hin]. discriminate Hin.
  - exfalso. destruct (_ || _); in_list Hin.
  - exfalso. in_list Hin.
Qed.

(** X11: the argument vector of every process that [Package.run] launches
    has a [-map=] argument exactly when [maps] is not empty, and then it
    is the items of [maps] joined by [+]. *)
Theorem launched_map_argument (self : Package.t) (c c' : ProjectConfig)
    (h : list Event) (r : Result (bool * Package.t))
    (out : list IOEvent) (exe : string) (args : list string) :
  Package.run self c h = (r, c', out) →
  IoLaunch exe args ∈ out →
  ∀ x, "-map=" +:+ x ∈ args
       ↔ ∃ n items, py_len (Package.maps self) = Some (S n)
                    ∧ py_iter_strs (Package.maps self) = Some items
                    ∧ x = py_join "+" items.
Proof.
  intros Hrun Hin x.
  destruct (run_launch_args self c h _ _ _ Hrun) as (_ & Hall & _).
  rewrite Forall_forall in Hall.
  destruct (Hall _ Hin) as (self' & Hver & Hargs).
  destruct (verified_client _ _ _ Hver) as (_ & _ & _ & Hmaps).
  destruct (Package.map_args (Package.set_error "" self')) as [m|] eqn:Hm.
  2: { unfold Package.cmd_args in Hargs. now rewrite Hm in Hargs. }
  rewrite (map_in_args _ _ _ _ x Hm Hargs).
  revert Hm. unfold Package.map_args. cbn [Package.maps Package.set_error].
  rewrite Hmaps.
  destruct (py_len (Package.maps self)) as [[|n]|]; cbn [mbind option_bind].
  - intros [= <-]. split; [now intros ?%elem_of_nil|].
    now intros (n & items & ? & _).
  - simpl. destruct (py_iter_strs (Package.maps self)) as [items|];
      cbn [mbind option_bind]; [|done].
    intros [= <-]. rewrite list_elem_of_singleton. split.
    + intros Heq. exists n, items. repeat split. simpl in Heq.
      now injection Heq.
    + intros (n' & items' & _ & [= <-] & ->). done.
  - done.
Qed.

End PackageFlags.

(** * Further properties of the engine bootstrap and of the build *)

Section MoreBootstrap.
Context `{!Environment}.

(** X12: with an engine path known, an override path that is not that
    path ends the process with an error as the only effect: nothing is
    pulled, set up, registered or launched. *)
Theorem ensure_engine_rejects_another_path (engine_override : string)
    (c : ProjectConfig) (h : list Event) :
  UE4EnginePath c ≠ "" →
  engine_override ≠ "" →
  UE4EnginePath c ≠ engine_override →
  ensure_engine engine_override c h
  = (Exit 1, c,
     [IoPrint PError
        "Specific engine path requested, but engine path for this project already exists?"]).
Proof.
  intros Hknown Hgiven Hother.
  apply String.eqb_neq in Hknown, Hgiven, Hother.
  unfold ensure_engine, prepare_engine, locate_engine. eff_unfold.
  rewrite Hknown, Hother, Hgiven. reflexivity.
Qed.

(** X13: when the editor is not running and the dependency sync returns
    a non-zero exit code, [sync_dependencies] ends the process right
    after it: the build tool is not looked for and the project-files
    generator is not launched. *)
Theorem failed_sync_is_fatal (c : ProjectConfig) (h : list Event) :
  editor_running c = false →
  (∀ h', launch_code h' (UE4GitDependenciesPath c) (dependency_args c)
         ≠ 0%Z) →
  sync_dependencies c h
  = (Exit 1, c,
     [IoPrint PAction "Checking engine dependencies up-to-date";
      IoLaunch (UE4GitDependenciesPath c) (dependency_args c);
      IoPrint PError "Engine dependencies Failed to Sync!"]).
Proof.
  intros Hrun Hcode. unfold sync_dependencies. eff_unfold. rewrite Hrun.
  cbn [negb]. cbv beta iota zeta.
  match goal with
  | |- context [launch_code ?h' _ _] =>
      pose proof (Hcode h') as Hne; apply Z.eqb_neq in Hne; rewrite Hne
  end.
  reflexivity.
Qed.

(** X14: [sync_dependencies] never assigns to the configuration and never
    raises; it ends the process only with status 1; and the only
    processes it launches are the dependency sync, with the exclusion
    arguments, and the project-files generator, with [-2017] or no
    argument. *)
Theorem sync_dependencies_effects (c c' : ProjectConfig) (h : list Event)
    (r : Result unit) (out : list IOEvent) :
  sync_dependencies c h = (r, c', out) →
  c' = c
  ∧ (∀ e, r ≠ Raise e)
  ∧ (∀ code, r = Exit code → code = 1%Z)
  ∧ ∀ exe args, IoLaunch exe args ∈ out →
      (exe = UE4GitDependenciesPath c ∧ args = dependency_args c)
      ∨ (exe = UE4GenProjFilesPath c ∧ (args = ["-2017"] ∨ args = [])).
Proof.
  unfold sync_dependencies. eff_unfold.
  repeat case_match; simplify_eq; intros [= <- <- <-].
  all: split; [done|]; split; [done|]; split; [now intros code [= <-]|].
  all: intros exe args Hin; simpl in Hin;
    repeat (apply elem_of_cons in Hin as [Hin|Hin];
            [try discriminate Hin; injection Hin as -> ->; eauto|]);
    now apply elem_of_nil in Hin.
Qed.

End MoreBootstrap.

Section MoreBuild.
Context `{!Environment}.

Lemma run_keys_heap keys w r w' :
  run_keys keys w = (r, w') → heap w' = heap w.
Proof.
  destruct keys as [|key keys]; simpl; [now intros [= <- <-]|].
  unfold mbind, M_bind, run_key.
  destruct (py_contains "enabled" key); [now intros [= <- <-]|].
  destruct (py_contains "desc" key); now intros [= <- <-].
Qed.

(** [run_build_steps] leaves the driver's configuration object as it is
    in every field but the script. *)
Lemma run_build_steps_config config steps_name complain w r w' :
  config ∈ dom (heap w) →
  run_build_steps config steps_name complain w = (r, w') →
  same_but_script (heap w !!! config) (heap w' !!! config).
Proof.
  intros Hc. unfold run_build_steps, read. unfold mbind, M_bind.
  destruct (script (heap w !!! config)) as [sc|].
  - destruct (sc !! steps_name) as [[steps|items]|].
    + intros Hrun.
      apply run_steps_isolated in Hrun as (_ & _ & Hsame & _); [|done].
      now apply same_script_total.
    + intros Hrun. apply run_keys_heap in Hrun. now rewrite Hrun.
    + destruct complain; now intros [= <- <-].
  - now intros [= <- <-].
Qed.

(** X15: once a build reaches its step groups (lines 130-155, a build
    without [--build]) with the editor running, an Editor build never
    completes: whatever the steps of [pre_build_steps] do, the groups do
    not return normally, and if [pre_build_steps] returns, the process
    exits with status 1 after a warning and a pause, before any editor
    step or post-build step. *)
Theorem editor_build_needs_editor_closed (config : loc) (w w' : World)
    (r : Result unit) :
  config ∈ dom (heap w) →
  editor_running (heap w !!! config) = true →
  build_groups config "Editor" w = (r, w') →
  r ≠ Ok tt
  ∧ ∀ w1, run_build_steps config "pre_build_steps" false w = (Ok tt, w1) →
          r = Exit 1
          ∧ w' = logged
                   (logged w1
                      [Io (IoPrint PWarning
                             "Cannot build the Editor while the editor is running!")])
                   [Io IoPause].
Proof.
  intros Hc Hed. unfold build_groups. unfold mbind at 1, M_bind at 1.
  destruct (run_build_steps config "pre_build_steps" false w)
    as [[[]|n|e] w1] eqn:Hpre.
  - apply run_build_steps_config in Hpre; [|done].
    apply (f_equal editor_running) in Hpre. simpl in Hpre.
    unfold mbind at 1, M_bind at 1.
    assert (Hmain : main_group config "Editor" w1
              = (Exit 1,
                 logged
                   (logged w1
                      [Io (IoPrint PWarning
                             "Cannot build the Editor while the editor is running!")])
                   [Io IoPause])).
    { unfold main_group, read. unfold mbind at 1, M_bind at 1.
      cbn [String.eqb Ascii.eqb Bool.eqb]. simpl String.eqb. cbv iota.
      rewrite Hpre, Hed. reflexivity. }
    rewrite Hmain. intros [= <- <-]. split; [done|].
    now intros w2 [= <-].
  - intros [= <- <-]. split; [done|]. intros w2 Heq. discriminate Heq.
  - intros [= <- <-]. split; [done|]. intros w2 Heq. discriminate Heq.
Qed.

End MoreBuild.

(** * Properties of the class name *)

Section ClassName.

Lemma py_split_dotless (s : string) : Forall dotless (py_split "." s).
Proof.
  induction s as [|c s IH]; simpl.
  - repeat constructor.
  - destruct (Ascii.eqb c ".") eqn:Hc.
    + constructor; [constructor|exact IH].
    + destruct (py_split "." s) as [|x l].
      * repeat constructor. now apply Ascii.eqb_neq.
      * inversion IH as [|? ? Hx Hl]; subst. constructor; [|exact Hl].
        constructor; [now apply Ascii.eqb_neq|exact Hx].
Qed.

Lemma py_split_whole (s : string) : dotless s → py_split "." s = [s].
Proof.
  induction s as [|c s IH]; [done|]. intros Hs.
  inversion Hs as [|? ? Hc Hrest]; subst. simpl.
  apply Ascii.eqb_neq in Hc. rewrite Hc. now rewrite (IH Hrest).
Qed.

Lemma py_split_cons (s : string) : ∃ x l, py_split "." s = x :: l.
Proof.
  induction s as [|c s (x & l & IH)]; simpl; [eauto|].
  destruct (Ascii.eqb c "."); [eauto|]. rewrite IH. eauto.
Qed.

Lemma py_split_after_dot (p s : string) :
  ∃ x l, py_split "." (p +:+ "." +:+ s) = x :: l
         ∧ l ≠ [] ∧ last l = last (py_split "." s).
Proof.
  induction p as [|c p (x & l & IH & Hl & Hlast)]; simpl.
  - destruct (py_split_cons s) as (y & k & Hs). exists "", (py_split "." s).
    change ("" +:+ s) with s. rewrite Hs. done.
  - destruct (Ascii.eqb c ".").
    + exists "", (x :: l). rewrite IH. repeat split; [done|].
      destruct l; [done|]. exact Hlast.
    + rewrite IH. eauto.
Qed.

(** X16: the class is named by the last dotted component of the module
    name alone: it has no dot, it is the part after the last dot whatever
    comes before, and a module name without a dot is its own component. *)
Theorem last_component_is_the_last_part (p s : string) :
  dotless (last_component s)
  ∧ last_component (p +:+ "." +:+ s) = last_component s
  ∧ (dotless s → last_component s = s
                 ∧ last_component (p +:+ "." +:+ s) = s).
Proof.
  assert (Hdot : dotless (last_component s)).
  { unfold last_component. pose proof (py_split_dotless s) as Hall.
    destruct (last (py_split "." s)) as [x|] eqn:Hlast; [|constructor].
    apply last_Some in Hlast as [l' Hl]. rewrite Hl in Hall.
    apply Forall_app in Hall as [_ Hx]. now inversion Hx. }
  assert (Happ : last_component (p +:+ "." +:+ s) = last_component s).
  { unfold last_component.
    destruct (py_split_after_dot p s) as (x & l & -> & Hl & <-).
    destruct l; done. }
  assert (Hwhole : dotless s → last_component s = s).
  { intros Hs. unfold last_component. now rewrite py_split_whole. }
  split; [done|]. split; [done|]. intros Hs.
  split; [now apply Hwhole|]. rewrite Happ. now apply Hwhole.
Qed.

Lemma cased_to_lower (c : ascii) : cased (to_lower c) = cased c.
Proof.
  destruct c as [[] [] [] [] [] [] [] []]; vm_compute; reflexivity.
Qed.

Lemma cased_to_upper (c : ascii) : cased (to_upper c) = cased c.
Proof.
  destruct c as [[] [] [] [] [] [] [] []]; vm_compute; reflexivity.
Qed.

Lemma to_lower_idem (c : ascii) : to_lower (to_lower c) = to_lower c.
Proof.
  destruct c as [[] [] [] [] [] [] [] []]; vm_compute; reflexivity.
Qed.

Lemma to_upper_idem (c : ascii) : to_upper (to_upper c) = to_upper c.
Proof.
  destruct c as [[] [] [] [] [] [] [] []]; vm_compute; reflexivity.
Qed.

Lemma title_from_idem (b : bool) (s : string) :
  title_from b (title_from b s) = title_from b s.
Proof.
  revert b. induction s as [|c s IH]; intros b; [done|]. simpl.
  fold (cased c). destruct (cased c) eqn:Hc; simpl.
  - fold (cased (if b then to_lower c else to_upper c)).
    destruct b; rewrite ?cased_to_lower, ?cased_to_upper, Hc,
      ?to_lower_idem, ?to_upper_idem, IH; done.
  - fold (cased c). now rewrite Hc, IH.
Qed.

Lemma title_from_length (b : bool) (s : string) :
  String.length (title_from b s) = String.length s.
Proof.
  revert b. induction s as [|c s IH]; intros b; [done|]. simpl.
  destruct (is_lower c || is_upper c); simpl; now rewrite IH.
Qed.

(** X17: the class name that is looked up is in title case already:
    title-casing it again changes nothing, and title-casing keeps the
    length of a name. *)
Theorem class_name_is_title_cased (module : string) :
  py_title (py_title (last_component module))
  = py_title (last_component module)
  ∧ String.length (py_title (last_component module))
    = String.length (last_component module).
Proof.
  split; [apply title_from_idem|apply title_from_length].
Qed.

End ClassName.

Section MoreDefaults.
Context `{!Environment}.

(** X19: a step is passed over in silence exactly when its [enabled] is
    the literal [false]: with [enabled] absent or any other value (0, an
    empty string, null) the step is announced and processed. *)
Theorem only_literal_false_disables (config : loc) (step : Step)
    (w : World) :
  run_step config step w = (Ok Continue, w)
  ↔ s_enabled step = Some (JBool false).
Proof.
  split.
  - intros Hrun. destruct (disabled step) eqn:Hd.
    + unfold disabled in Hd. destruct (s_enabled step) as [[| [] | | | | |]|];
        done.
    + exfalso. rewrite run_step_enabled in Hrun by done. cbv zeta in Hrun.
      assert (Hlen : ∀ w1 : World,
                (∃ new, trace w1 = trace (announced step w) ++ new) →
                w1 ≠ w).
      { intros w1 [new Hnew] ->. apply (f_equal length) in Hnew.
        unfold announced, logged in Hnew. simpl in Hnew.
        rewrite !length_app in Hnew. simpl in Hnew. lia. }
      destruct (resolve _) as [[cls|]|].
      * apply run_action_traced in Hrun as (p & (new & Htr & _) & _).
        apply (Hlen w); eauto.
      * injection Hrun as Hw. apply (Hlen w); [|done].
        exists [Io (IoPrint PWarning
                      ("action class ("
                       +:+ py_title (last_component (a_module (s_action step)))
                       +:+ ") could not be found!"))].
        now rewrite <- Hw at 1.
      * discriminate Hrun.
  - intros Hoff. unfold run_step, disabled. now rewrite Hoff.
Qed.

(** X18: a Package build whose script has no [package_steps] constructs
    the default [Package] action with no keyword arguments on the
    driver's own configuration object, not on a clone, and runs it without
    a [verify] call of the runner; everything after that is an outside
    effect. *)
Theorem default_package_uses_the_driver_configuration (config : loc)
    (sc : Script) (w : World) :
  script (heap w !!! config) = Some sc →
  sc !! "package_steps" = None →
  ∃ out,
    trace (main_group config "Package" w).2
    = trace w
      ++ [EvConstruct "Package" config (heap w !!! config) ∅; EvRun config]
      ++ (Io <$> out).
Proof.
  intros Hsc Hno. unfold main_group, read. unfold mbind at 1, M_bind at 1.
  simpl. unfold has_steps. rewrite Hsc, Hno.
  rewrite bool_decide_eq_false_2 by apply is_Some_None.
  unfold mbind at 1, M_bind at 1. cbn [mret M_ret].
  unfold package_or_exit, construct, call_run, read, on_sharing. eff_unfold.
  cbn [heap meta disk trace act_init act_run act_error Package.class].
  cbv [mret Eff_ret]. cbn [fmap list_fmap]. rewrite app_nil_r.
  destruct (Package.run _ _ _) as [[[[ok b]|n|e] c] out]; cbn.
  - destruct ok; cbn.
    + exists out. now rewrite <- !app_assoc.
    + exists (out ++ [IoPrint PError (Package.error b)]).
      rewrite fmap_app. now rewrite <- !app_assoc.
  - exists out. now rewrite <- !app_assoc.
  - exists out. now rewrite <- !app_assoc.
Qed.

End MoreDefaults.

Section MoreEdges.
Context `{!Environment}.

(** X20: [run_build_steps] on a key of the script whose value is a dict,
    as [meta] is, does nothing when the dict is empty; otherwise it raises
    a [TypeError] at the first key of the dict, after announcing an
    undescribed step unless that key contains [enabled] or [desc]. *)
Theorem dict_entry_is_no_step_group (config : loc) (sc : Script)
    (steps_name : string) (complain : bool) (items : list (string * pyval))
    (w : World) :
  script (heap w !!! config) = Some sc →
  sc !! steps_name = Some (Table items) →
  match items with
  | [] => run_build_steps config steps_name complain w = (Ok tt, w)
  | (key, _) :: _ =>
      ∃ what,
        run_build_steps config steps_name complain w
        = (Raise (TypeError what),
           if py_contains "enabled" key || py_contains "desc" key then w
           else logged w [Io (IoPrint PAction "Performing Undescribed step")])
  end.
Proof.
  intros Hsc Hitems. unfold run_build_steps, read. unfold mbind, M_bind.
  rewrite Hsc, Hitems. destruct items as [|[key v] items]; [done|].
  simpl. unfold mbind, M_bind, run_key.
  destruct (py_contains "enabled" key); [eauto|].
  destruct (py_contains "desc" key); eauto.
Qed.

(** X21: when, after a successful run, the read of a named output raises
    in the loop of the meta updates, the exception goes up and ends the
    group; the store then holds what the mappings before it wrote, and
    its persisted snapshot is as it was: the store is changed and not
    saved. *)
Theorem failed_read_leaves_the_store_unsaved (config : loc) (step : Step)
    (rest : list Step) (cls : ActionClass) (w w1 w2 w3 : World)
    (snapshot : loc) (b b1 b2 : act_state cls)
    (pre post : list (string * string)) (k v : string)
    (attrs : string → option pyval) (e : PyExn) :
  let shared := sharing config (s_action step) in
  disabled step = false →
  resolve (a_module (s_action step)) = Some (Some cls) →
  instantiate config (py_title (last_component (a_module (s_action step))))
    cls (s_action step) (announced step w) = (Ok (snapshot, b), w1) →
  call_verify cls shared snapshot b w1 = (Ok ("", b1), w2) →
  call_run cls shared snapshot b1 w2 = (Ok (true, b2), w3) →
  a_meta_updates (s_action step) = Some (pre ++ (k, v) :: post) →
  plain_attributes cls b2 attrs pre →
  (∀ c h, act_getattr cls b2 v c h = (Raise e, c, [])) →
  let w' := {| heap := heap w3;
               meta := store_updates attrs pre (meta w3);
               disk := disk w3; trace := trace w3 |} in
  run_step config step w = (Raise e, w')
  ∧ run_steps config (step :: rest) w = (Raise e, w').
Proof.
  intros shared Hon Hres Hinst Hver Hrun Hups Hplain Hraise w'.
  destruct (run_step_ran config step cls w w1 w2 w3 snapshot b b1 b2
              Hon Hres Hinst Hver Hrun) as [Hl Hran].
  assert (Hstep : run_step config step w = (Raise e, w')).
  { rewrite Hran. unfold do_meta_updates. rewrite Hups.
    unfold mbind at 1 2, M_bind at 1 2.
    rewrite (meta_updates_app _ _ _ _ attrs) by done. fold w'. simpl.
    unfold mbind at 1, M_bind at 1.
    now rewrite (on_sharing_pure _ _ _ (Raise e)). }
  split; [done|]. simpl. unfold mbind, M_bind. now rewrite Hstep.
Qed.

(** X22: a meta update whose key is [save_meta] puts a value in the place
    of the store's method: the call of line 315 then raises a [TypeError]
    and nothing is saved, the persisted snapshot is as it was. *)
Theorem meta_key_can_hide_save_meta (config : loc) (step : Step)
    (cls : ActionClass) (w w1 w2 w3 : World)
    (snapshot : loc) (b b1 b2 : act_state cls)
    (updates : list (string * string)) (v : string) (x : pyval)
    (attrs : string → option pyval) :
  let shared := sharing config (s_action step) in
  disabled step = false →
  resolve (a_module (s_action step)) = Some (Some cls) →
  instantiate config (py_title (last_component (a_module (s_action step))))
    cls (s_action step) (announced step w) = (Ok (snapshot, b), w1) →
  call_verify cls shared snapshot b w1 = (Ok ("", b1), w2) →
  call_run cls shared snapshot b1 w2 = (Ok (true, b2), w3) →
  a_meta_updates (s_action step) = Some updates →
  NoDup updates.*1 →
  plain_attributes cls b2 attrs updates →
  ("save_meta", v) ∈ updates →
  attrs v = Some x → x ≠ JNull → (∀ name, x ≠ PyObject name) →
  let w' := {| heap := heap w3;
               meta := store_updates attrs updates (meta w3);
               disk := disk w3; trace := trace w3 |} in
  meta w' !! "save_meta" = Some x
  ∧ ∃ what, run_step config step w = (Raise (TypeError what), w').
Proof.
  intros shared Hon Hres Hinst Hver Hrun Hups Hnd Hplain Hin Hattr Hx _ w'.
  destruct (run_step_ran config step cls w w1 w2 w3 snapshot b b1 b2
              Hon Hres Hinst Hver Hrun) as [Hl Hran].
  assert (Hkey : meta w' !! "save_meta" = Some x).
  { simpl. rewrite (store_updates_lookup _ _ _ "save_meta" v) by done.
    rewrite Hattr. now destruct x. }
  split; [done|]. rewrite Hran. unfold do_meta_updates. rewrite Hups.
  unfold mbind, M_bind. rewrite (meta_updates_eq _ _ _ _ attrs) by done.
  fold w'. unfold BuildMeta.save_meta, BuildMeta.method. rewrite Hkey.
  eauto.
Qed.

End MoreEdges.

(** * The further properties on concrete runs *)

Lemma idle_groups_do_nothing_witness :
  run_build_steps (H:=Demo.env) 0 "pre_build_steps" true
    (Demo.world Lab.scripted_config)
  = (Ok tt, Demo.world Lab.scripted_config).
Proof.
  apply (proj2 (idle_groups_do_nothing (H:=Demo.env) 0 Lab.idle_script
                  "pre_build_steps" true (Demo.world Lab.scripted_config)
                  eq_refl)
           [Demo.off_step; Demo.off_step]).
  - reflexivity.
  - repeat constructor.
Defined.

Lemma store_is_saved_when_changed_witness :
  let w' := (run_steps (H:=Demo.env) 0 Lab.mixed_steps
               (Demo.world empty_config)).2 in
  same_store (Demo.world empty_config) w' ∨ disk w' = meta w'.
Proof.
  intros w'.
  apply (store_is_saved_when_changed (H:=Demo.env) 0 Lab.mixed_steps
           (Demo.world empty_config) w'); vm_compute; reflexivity.
Defined.

Lemma no_meta_updates_no_store_change_witness :
  let steps := [Demo.step "actions.tamper" None None;
                Demo.step "actions.good" None None] in
  let w' := (run_steps (H:=Demo.env) 0 steps (Demo.world empty_config)).2 in
  meta w' = ∅ ∧ disk w' = ∅.
Proof.
  intros steps w'.
  apply (no_meta_updates_no_store_change (H:=Demo.env) 0 steps
           (Demo.world empty_config) w'
           (run_steps (H:=Demo.env) 0 steps (Demo.world empty_config)).1).
  - repeat constructor.
  - apply surjective_pairing.
Defined.

Lemma unfinished_step_keeps_store_witness :
  let step := Demo.step "actions.failing" (Some (JBool true))
                (Some [("foo", "barAttr")]) in
  let w' := (run_step (H:=Demo.env) 0 step (Demo.world empty_config)).2 in
  meta w' = ∅ ∧ disk w' = ∅.
Proof.
  intros step w'.
  apply (unfinished_step_keeps_store (H:=Demo.env) 0 step
           (Demo.world empty_config) w').
  vm_compute. reflexivity.
Defined.

Lemma calls_follow_the_contract_witness :
  let w := Demo.world empty_config in
  let w' := (run_steps (H:=Demo.env) 0 Lab.mixed_steps w).2 in
  ∃ new,
    trace w' = trace w ++ new
    ∧ ∀ l, calls_on l new `prefix_of` [Constructed; Verified; Ran]
           ∧ (l ∈ dom (heap w) → calls_on l new = []).
Proof.
  intros w w'.
  apply (calls_follow_the_contract (H:=Demo.env) 0 Lab.mixed_steps w w'
           (run_steps (H:=Demo.env) 0 Lab.mixed_steps w).1).
  apply surjective_pairing.
Defined.

Lemma run_fails_with_an_error_witness :
  let result := Package.run (H:=Lab.broken) Lab.client_package
                  Lab.closed_config [] in
  ∃ self', result.1.1 = Ok (false, self') ∧ Package.error self' ≠ "".
Proof.
  intros result. eexists. split; [reflexivity|].
  eapply (run_fails_with_an_error (H:=Lab.broken) Lab.client_package _
            Lab.closed_config _ [] false); reflexivity.
Defined.


Lemma run_stops_when_not_ready_witness :
  Package.run (H:=Lab.broken) Lab.client_package Lab.closed_config []
  = (Ok (false,
         Package.set_error
           "Environment is not ready for building or packaging!"
           Lab.client_package),
     Lab.closed_config, []).
Proof.
  apply (run_stops_when_not_ready (H:=Lab.broken)). reflexivity.
Defined.


Lemma launched_options_witness :
  let result := Package.run (H:=Demo.env) Lab.client_package
                  Lab.closed_config [] in
  let args := default [] (Package.cmd_args Lab.client_package
                            Lab.closed_config) in
  IoLaunch "C:\UE4\RunUAT.bat" args ∈ result.2
  ∧ "-client" ∈ args ∧ ¬ ("-server" ∈ args) ∧ ¬ ("-pak" ∈ args)
  ∧ "-compile" ∈ args.
Proof.
  intros result args.
  assert (Hin : IoLaunch "C:\UE4\RunUAT.bat" args ∈ result.2).
  { vm_compute. repeat constructor. }
  split; [exact Hin|].
  destruct (launched_options (H:=Demo.env) Lab.client_package
              Lab.closed_config result.1.2 [] result.1.1 result.2
              "C:\UE4\RunUAT.bat" args)
    as (Hclient & Hserver & _ & _ & Hpak & _ & _ & _ & _ & Hcompile).
  - reflexivity.
  - exact Hin.
  - split; [apply Hclient; reflexivity|]. split; [|split].
    + intros Hs. apply Hserver in Hs. discriminate Hs.
    + intros Hp. apply Hpak in Hp. discriminate Hp.
    + exact Hcompile.
Defined.

Lemma launched_map_argument_witness :
  let result := Package.run (H:=Demo.env) Lab.client_package
                  Lab.closed_config [] in
  let args := default [] (Package.cmd_args Lab.client_package
                            Lab.closed_config) in
  IoLaunch "C:\UE4\RunUAT.bat" args ∈ result.2
  ∧ "-map=Lobby+Arena" ∈ args.
Proof.
  intros result args.
  assert (Hin : IoLaunch "C:\UE4\RunUAT.bat" args ∈ result.2).
  { vm_compute. repeat constructor. }
  split; [exact Hin|].
  apply (launched_map_argument (H:=Demo.env) Lab.client_package
           Lab.closed_config result.1.2 [] result.1.1 result.2
           "C:\UE4\RunUAT.bat" args eq_refl Hin "Lobby+Arena").
  exists 1%nat, ["Lobby"; "Arena"]. repeat split.
Defined.

Lemma ensure_engine_rejects_another_path_witness :
  ensure_engine (H:=Demo.env) "D:\UE4" Demo.running_config []
  = (Exit 1, Demo.running_config,
     [IoPrint PError
        "Specific engine path requested, but engine path for this project already exists?"]).
Proof.
  apply (ensure_engine_rejects_another_path (H:=Demo.env) "D:\UE4"
           Demo.running_config []); discriminate.
Defined.

Lemma failed_sync_is_fatal_witness :
  sync_dependencies (H:=Lab.broken) Lab.closed_config []
  = (Exit 1, Lab.closed_config,
     [IoPrint PAction "Checking engine dependencies up-to-date";
      IoLaunch "C:\UE4\GitDependencies.exe"
        ["-exclude=FeaturePacks"; "-exclude=Samples"; "-exclude=Templates";
         "-exclude=Docs"];
      IoPrint PError "Engine dependencies Failed to Sync!"]).
Proof.
  apply (failed_sync_is_fatal (H:=Lab.broken) Lab.closed_config []).
  - reflexivity.
  - intros h'. discriminate.
Defined.

Lemma sync_dependencies_effects_witness :
  let result := sync_dependencies (H:=Demo.env) Lab.closed_config [] in
  result.1.2 = Lab.closed_config
  ∧ IoLaunch "C:\UE4\GenerateProjectFiles.bat" ["-2017"] ∈ result.2.
Proof.
  intros result.
  destruct (sync_dependencies_effects (H:=Demo.env) Lab.closed_config
              result.1.2 [] result.1.1 result.2) as (Hc & _).
  - reflexivity.
  - split; [exact Hc|]. vm_compute. repeat constructor.
Defined.

Lemma editor_build_needs_editor_closed_witness :
  let w := Demo.world Lab.scripted_config in
  build_groups (H:=Demo.env) 0 "Editor" w
  = (Exit 1,
     logged
       (logged w
          [Io (IoPrint PWarning
                 "Cannot build the Editor while the editor is running!")])
       [Io IoPause]).
Proof.
  intros w.
  destruct (editor_build_needs_editor_closed (H:=Demo.env) 0 w
              (build_groups (H:=Demo.env) 0 "Editor" w).2
              (build_groups (H:=Demo.env) 0 "Editor" w).1)
    as [_ Hexit].
  - apply elem_of_dom. eexists. reflexivity.
  - reflexivity.
  - apply surjective_pairing.
  - destruct (Hexit w eq_refl) as [Hr Hw].
    rewrite (surjective_pairing (build_groups (H:=Demo.env) 0 "Editor" w)).
    now rewrite Hr, Hw.
Defined.

Lemma default_package_uses_the_driver_configuration_witness :
  ∃ out,
    trace (main_group (H:=Demo.env) 0 "Package"
             (Demo.world Lab.scripted_config)).2
    = trace (Demo.world Lab.scripted_config)
      ++ [EvConstruct "Package" 0
            (heap (Demo.world Lab.scripted_config) !!! 0) ∅; EvRun 0]
      ++ (Io <$> out).
Proof.
  apply (default_package_uses_the_driver_configuration (H:=Demo.env) 0
           Lab.idle_script (Demo.world Lab.scripted_config));
    vm_compute; reflexivity.
Defined.

Lemma last_component_is_the_last_part_witness :
  last_component "package" = "package"
  ∧ last_component ("actions" +:+ "." +:+ "package") = "package".
Proof.
  apply (proj2 (proj2 (last_component_is_the_last_part "actions" "package"))).
  repeat constructor; discriminate.
Defined.

Lemma dict_entry_is_no_step_group_witness :
  ∃ what,
    run_build_steps (H:=Demo.env) 0 "meta" true
      (Demo.world Lab.seeded_config)
    = (Raise (TypeError what),
       logged (Demo.world Lab.seeded_config)
         [Io (IoPrint PAction "Performing Undescribed step")]).
Proof.
  apply (dict_entry_is_no_step_group (H:=Demo.env) 0
           {[ "meta" := Table [("version", JNum 3)] ]} "meta" true
           [("version", JNum 3)] (Demo.world Lab.seeded_config));
    reflexivity.
Defined.

Lemma failed_read_leaves_the_store_unsaved_witness :
  let step := Demo.step "actions.moody" None
                (Some [("size", "size"); ("bad", "broken")]) in
  let result := run_step (H:=Demo.env) 0 step (Demo.world empty_config) in
  result.1 = Raise (OtherException "broken")
  ∧ meta result.2 !! "size" = Some (JNum 7)
  ∧ disk result.2 = ∅.
Proof.
  intros step result.
  set (shared := sharing 0 (s_action step)).
  set (w1 := (instantiate 0 "Moody" Demo.moody (s_action step)
                (announced step (Demo.world empty_config))).2).
  set (w2 := (call_verify Demo.moody shared 1 tt w1).2).
  set (w3 := (call_run Demo.moody shared 1 tt w2).2).
  destruct (failed_read_leaves_the_store_unsaved (H:=Demo.env) 0 step []
              Demo.moody (Demo.world empty_config) w1 w2 w3 1 tt tt tt
              [("size", "size")] [] "bad" "broken"
              (λ name, if String.eqb name "size" then Some (JNum 7) else None)
              (OtherException "broken"))
    as [Hstep _].
  - reflexivity.
  - reflexivity.
  - reflexivity.
  - reflexivity.
  - reflexivity.
  - reflexivity.
  - intros k v [= -> ->]%list_elem_of_singleton c h. reflexivity.
  - intros c h. reflexivity.
  - unfold result. rewrite Hstep. repeat split.
Defined.

Lemma meta_key_can_hide_save_meta_witness :
  let step := Demo.step "actions.good" None
                (Some [("save_meta", "barAttr")]) in
  let result := run_step (H:=Demo.env) 0 step (Demo.world empty_config) in
  (∃ what, result.1 = Raise (TypeError what))
  ∧ meta result.2 !! "save_meta" = Some (JNum 42)
  ∧ disk result.2 = ∅.
Proof.
  intros step result.
  set (cls := Demo.fixed "" true {[ "barAttr" := JNum 42 ]}).
  set (shared := sharing 0 (s_action step)).
  set (w1 := (instantiate 0 "Good" cls (s_action step)
                (announced step (Demo.world empty_config))).2).
  set (w2 := (call_verify cls shared 1 tt w1).2).
  set (w3 := (call_run cls shared 1 tt w2).2).
  destruct (meta_key_can_hide_save_meta (H:=Demo.env) 0 step
              cls (Demo.world empty_config) w1 w2 w3 1 tt tt tt
              [("save_meta", "barAttr")] "barAttr" (JNum 42)
              (λ name, ({[ "barAttr" := JNum 42 ]} : gmap string pyval)
                         !! name))
    as [Hkey [what Hstep]].
  - reflexivity.
  - reflexivity.
  - reflexivity.
  - reflexivity.
  - reflexivity.
  - reflexivity.
  - apply NoDup_singleton.
  - intros k v _ c h. reflexivity.
  - apply list_elem_of_here.
  - reflexivity.
  - discriminate.
  - discriminate.
  - unfold result. rewrite Hstep. split; [eauto|]. split; [exact Hkey|].
    reflexivity.
Defined.
